(** * Unscented Kalman filter (src/ukf.cpp): shallow embedding and properties

    The filter of [ukf.cpp] is embedded as pure functions over an explicit
    [UKF] record that holds the members of the C++ class.  Numbers of type
    [double] (and the few [float] temporaries of the initialisation branch)
    are idealised as real numbers; integers ([int], [long long]) are [Z].
    The angle normalisation loops are the one place where the rounding of
    the machine decides whether the code returns at all, and they are also
    given on binary64 numbers ([Double]).
    Eigen's dynamically sized [VectorXd] and [MatrixXd] are lists: a vector
    is a list of coefficients, a matrix is the list of its columns (Eigen's
    default storage order is column-major). *)

From Stdlib Require Import Reals Lra Lia List ZArith Bool.
From Stdlib Require PrimFloat.
Import ListNotations.
Open Scope R_scope.

(** ** Vectors and matrices *)

Module Eigen.

Definition Vec := list R.
Definition Mat := list Vec.

(** [v(i)] *)
Definition vget (v : Vec) (i : nat) : R := nth i v 0.

(** [v(i) = a] *)
Fixpoint vset (v : Vec) (i : nat) (a : R) : Vec :=
  match v, i with
  | [], _ => []
  | _ :: t, O => a :: t
  | h :: t, S j => h :: vset t j a
  end.

(** [M.col(c)] *)
Definition col (M : Mat) (c : nat) : Vec := nth c M [].

(** [M(r,c)] *)
Definition mget (M : Mat) (r c : nat) : R := vget (col M c) r.

(** [M.col(c) = v] *)
Fixpoint set_col (M : Mat) (c : nat) (v : Vec) : Mat :=
  match M, c with
  | [], _ => []
  | _ :: t, O => v :: t
  | h :: t, S j => h :: set_col t j v
  end.

(** [M(r,c) = a] *)
Definition mset (M : Mat) (r c : nat) (a : R) : Mat :=
  set_col M c (vset (col M c) r a).

Definition rows (M : Mat) : nat := length (hd [] M).
Definition cols (M : Mat) : nat := length M.

(** [VectorXd(n)] and [MatrixXd(r,c)]: storage of the given size; the
    coefficients are unspecified in Eigen and are zero here. *)
Definition vzero (n : nat) : Vec := repeat 0 n.
Definition mzero (r c : nat) : Mat := repeat (vzero r) c.

(** [v.fill(a)] and [M.fill(a)] keep the size. *)
Definition vfill (a : R) (v : Vec) : Vec := map (fun _ => a) v.
Definition mfill (a : R) (M : Mat) : Mat := map (vfill a) M.

Fixpoint vzip (f : R -> R -> R) (u v : Vec) : Vec :=
  match u, v with
  | a :: u', b :: v' => f a b :: vzip f u' v'
  | _, _ => []
  end.

Definition vadd : Vec -> Vec -> Vec := vzip Rplus.
Definition vsub : Vec -> Vec -> Vec := vzip Rminus.
Definition vscale (a : R) (v : Vec) : Vec := map (Rmult a) v.

Fixpoint mzip (f : Vec -> Vec -> Vec) (A B : Mat) : Mat :=
  match A, B with
  | a :: A', b :: B' => f a b :: mzip f A' B'
  | _, _ => []
  end.

Definition madd : Mat -> Mat -> Mat := mzip vadd.
Definition msub : Mat -> Mat -> Mat := mzip vsub.

(** [u * v.transpose()]: column [j] of the outer product is [v(j) * u]. *)
Definition outer (u v : Vec) : Mat := map (fun b => map (fun a => a * b) u) v.

(** dot product, [u.transpose() * v] *)
Fixpoint dot (u v : Vec) : R :=
  match u, v with
  | a :: u', b :: v' => a * b + dot u' v'
  | _, _ => 0
  end.

(** [M.row(r)] *)
Definition row (M : Mat) (r : nat) : Vec := map (fun c => vget c r) M.

(** [M.transpose()] *)
Definition transpose (M : Mat) : Mat := map (row M) (seq 0 (rows M)).

(** [M * v] *)
Definition mvmul (M : Mat) (v : Vec) : Vec :=
  map (fun r => dot (row M r) v) (seq 0 (rows M)).

(** [A * B] *)
Definition mmul (A B : Mat) : Mat := map (mvmul A) B.

(** [v.head(n) = u] *)
Definition set_head (n : nat) (u v : Vec) : Vec := firstn n u ++ skipn n v.

(** [M.topLeftCorner(n,n) = B] *)
Definition set_topLeft (n : nat) (B M : Mat) : Mat :=
  mzip (set_head n) (firstn n B) (firstn n M) ++ skipn n M.

(** [M.block(0,0,r,c)] *)
Definition block00 (r c : nat) (M : Mat) : Mat := map (firstn r) (firstn c M).

End Eigen.
Import Eigen.

(** ** Angle normalisation

    The source repeats the two loops
    [while (a > M_PI) a -= 2.*M_PI;  while (a < -M_PI) a += 2.*M_PI;]
    at every place where an angle difference is formed.

    They are written twice.  Here they run on real numbers, like the rest
    of the filter: each loop is a function with fuel that returns [None]
    when the fuel runs out before the loop exits.  On real numbers the
    loops always exit, and [normalize_angle] is their result.  In
    [Double], further down, the same loops run on binary64 numbers with
    the rounding of the machine, where a loop may never exit. *)

Fixpoint wrap_down (fuel : nat) (a : R) : option R :=
  match fuel with
  | O => None
  | S f => if Rgt_dec a PI then wrap_down f (a - 2 * PI) else Some a
  end.

Fixpoint wrap_up (fuel : nat) (a : R) : option R :=
  match fuel with
  | O => None
  | S f => if Rlt_dec a (- PI) then wrap_up f (a + 2 * PI) else Some a
  end.

Definition normalize_fuel (fuel : nat) (a : R) : option R :=
  match wrap_down fuel a with
  | Some b => wrap_up fuel b
  | None => None
  end.

(** A number of iterations that suffices for both loops. *)
Definition angle_fuel (a : R) : nat :=
  S (S (Z.to_nat (up (Rabs a / (2 * PI))))).

Definition normalize_angle (a : R) : R :=
  match normalize_fuel (angle_fuel a) a with
  | Some b => b
  | None => a
  end.

(** The loops applied to coefficient [i] of a vector. *)
Definition normalize_at (i : nat) (v : Vec) : Vec :=
  vset v i (normalize_angle (vget v i)).

(** *** The loops in double precision

    [M_PI] is the binary64 number nearest to pi, [2.*M_PI] is computed in
    binary64, and so is every subtraction and addition; [a > M_PI] and
    [a < -M_PI] are the comparisons of binary64, false on a NaN. *)
Module Double.

Import PrimFloat.

Definition M_PI : float := 0x1.921fb54442d18p+1%float.

Fixpoint wrap_down (fuel : nat) (a : float) : option float :=
  match fuel with
  | O => None
  | S f =>
      if ltb M_PI a then wrap_down f (sub a (mul 2%float M_PI)) else Some a
  end.

Fixpoint wrap_up (fuel : nat) (a : float) : option float :=
  match fuel with
  | O => None
  | S f =>
      if ltb a (opp M_PI) then wrap_up f (add a (mul 2%float M_PI))
      else Some a
  end.

Definition normalize_fuel (fuel : nat) (a : float) : option float :=
  match wrap_down fuel a with
  | Some b => wrap_up fuel b
  | None => None
  end.


End Double.

(** ** Library routines the filter calls

    [atan2] of <math.h>, and Eigen's [llt().matrixL()] and [inverse()]. *)

(** [atan2(y, x)]: the angle of the point [(x, y)], in [(-PI, PI]]. *)
Definition atan2 (y x : R) : R :=
  if Rlt_dec 0 x then atan (y / x)
  else if Rlt_dec x 0 then
    if Rle_dec 0 y then atan (y / x) + PI else atan (y / x) - PI
  else if Rlt_dec 0 y then PI / 2
  else if Rlt_dec y 0 then - (PI / 2)
  else 0.

Module LLT.

(** Eigen's in-place Cholesky factorisation, in the unblocked variant it
    runs on matrices smaller than 32x32.  Step [k] computes the pivot
    [x = M(k,k) - |M(k,0..k-1)|^2]; when [x <= 0] the factorisation stops
    and leaves the rest of the matrix as it is; otherwise [M(k,k) = sqrt x]
    and the coefficients below it become
    [(M(i,k) - M(i,0..k-1) . M(k,0..k-1)) / sqrt x]. *)

Definition pivot (M : Mat) (k : nat) : R :=
  mget M k k - dot (firstn k (row M k)) (firstn k (row M k)).

Definition below (M : Mat) (k : nat) (x : R) (i : nat) : R :=
  (mget M i k - dot (firstn k (row M i)) (firstn k (row M k))) / x.

Definition step (M : Mat) (k : nat) : option Mat :=
  let x := pivot M k in
  if Rle_dec x 0 then None
  else
    let x := sqrt x in
    Some (set_col M k
            (firstn k (col M k) ++
             x :: map (below M k x) (seq (S k) (rows M - S k)))).

Fixpoint loop (ks : list nat) (M : Mat) : Mat :=
  match ks with
  | [] => M
  | k :: ks' =>
      match step M k with
      | Some M' => loop ks' M'
      | None => M
      end
  end.

(** The lower triangular view: coefficients above the diagonal read as 0. *)
Definition lower_col (c : nat) (v : Vec) : Vec :=
  vzero (Nat.min c (length v)) ++ skipn c v.

Fixpoint lower_from (c : nat) (M : Mat) : Mat :=
  match M with
  | [] => []
  | v :: M' => lower_col c v :: lower_from (S c) M'
  end.

Definition lower (M : Mat) : Mat := lower_from 0 M.

(** [M.llt().matrixL()] *)
Definition matrixL (M : Mat) : Mat := lower (loop (seq 0 (rows M)) M).

(** [M.llt().info() == Success]: every pivot was positive, so that the
    factorisation ran to its end.  [ukf.cpp] never asks for it. *)
Fixpoint complete (ks : list nat) (M : Mat) : bool :=
  match ks with
  | [] => true
  | k :: ks' =>
      match step M k with
      | Some M' => complete ks' M'
      | None => false
      end
  end.

Definition success (M : Mat) : bool := complete (seq 0 (rows M)) M.

End LLT.

Module Inverse.

(** [M.inverse()].  Eigen computes it from an LU decomposition; the result
    is the inverse matrix whenever there is one.  It is written here by
    cofactors: coefficient [(r,c)] is [(-1)^(r+c) det(M without row c and
    column r) / det M].  Eigen does not check that [M] is invertible, and
    neither does this function. *)

Fixpoint drop_nth {A : Type} (n : nat) (l : list A) : list A :=
  match l, n with
  | [], _ => []
  | _ :: t, O => t
  | h :: t, S m => h :: drop_nth m t
  end.

(** [M] without row [r] and column [c]. *)
Definition minor (M : Mat) (r c : nat) : Mat :=
  map (drop_nth r) (drop_nth c M).

Definition sign (n : nat) : R := if Nat.even n then 1 else -1.

Definition sum_over (f : nat -> R) (n : nat) : R :=
  fold_right (fun i acc => f i + acc) 0 (seq 0 n).

(** Determinant of the leading [n]x[n] matrix, expanded along row 0. *)
Fixpoint det_n (n : nat) (M : Mat) : R :=
  match n with
  | O => 1
  | S m => sum_over (fun c => sign c * mget M 0 c * det_n m (minor M 0 c)) n
  end.

Definition det (M : Mat) : R := det_n (cols M) M.

Definition inverse (M : Mat) : Mat :=
  let n := cols M in
  let d := det M in
  map (fun c =>
         map (fun r => sign (r + c) * det_n (n - 1) (minor M c r) / d)
             (seq 0 n))
      (seq 0 n).

End Inverse.

(** ** The filter state *)

Inductive SensorType := LASER | RADAR.

Record MeasurementPackage := mkMeas {
  timestamp_ : Z;
  sensor_type_ : SensorType;
  raw_measurements_ : Vec
}.

(** The members of class [UKF]. *)
Record UKF := mkUKF {
  is_initialized_ : bool;
  use_laser_ : bool;
  use_radar_ : bool;
  n_x_ : Z;
  n_aug_ : Z;
  n_sigma_pts_ : Z;
  n_z : Z;
  lambda_ : R;
  std_a_ : R;
  std_yawdd_ : R;
  std_laspx_ : R;
  std_laspy_ : R;
  std_radr_ : R;
  std_radphi_ : R;
  std_radrd_ : R;
  previous_timestamp_ : Z;
  x_ : Vec;
  P_ : Mat;
  x_aug_ : Vec;
  P_aug_ : Mat;
  Xsig_pred_ : Mat;
  Xsig_aug_ : Mat;
  weights_ : Vec;
  R_radar_ : Mat;
  R_lidar_ : Mat;
  Zsig_ : Mat;
  z_pred_ : Vec;
  S_ : Mat;
  NIS_lidar : R;
  NIS_radar : R
}.

(** Assignments to single members. *)
Definition set_is_initialized_ (b : bool) (s : UKF) : UKF :=
  mkUKF b (use_laser_ s) (use_radar_ s) (n_x_ s) (n_aug_ s) (n_sigma_pts_ s)
    (n_z s) (lambda_ s) (std_a_ s) (std_yawdd_ s) (std_laspx_ s)
    (std_laspy_ s) (std_radr_ s) (std_radphi_ s) (std_radrd_ s)
    (previous_timestamp_ s) (x_ s) (P_ s) (x_aug_ s) (P_aug_ s)
    (Xsig_pred_ s) (Xsig_aug_ s) (weights_ s) (R_radar_ s) (R_lidar_ s)
    (Zsig_ s) (z_pred_ s) (S_ s) (NIS_lidar s) (NIS_radar s).

Definition set_n_z (n : Z) (s : UKF) : UKF :=
  mkUKF (is_initialized_ s) (use_laser_ s) (use_radar_ s) (n_x_ s) (n_aug_ s)
    (n_sigma_pts_ s) n (lambda_ s) (std_a_ s) (std_yawdd_ s) (std_laspx_ s)
    (std_laspy_ s) (std_radr_ s) (std_radphi_ s) (std_radrd_ s)
    (previous_timestamp_ s) (x_ s) (P_ s) (x_aug_ s) (P_aug_ s)
    (Xsig_pred_ s) (Xsig_aug_ s) (weights_ s) (R_radar_ s) (R_lidar_ s)
    (Zsig_ s) (z_pred_ s) (S_ s) (NIS_lidar s) (NIS_radar s).

Definition set_previous_timestamp_ (t : Z) (s : UKF) : UKF :=
  mkUKF (is_initialized_ s) (use_laser_ s) (use_radar_ s) (n_x_ s) (n_aug_ s)
    (n_sigma_pts_ s) (n_z s) (lambda_ s) (std_a_ s) (std_yawdd_ s)
    (std_laspx_ s) (std_laspy_ s) (std_radr_ s) (std_radphi_ s)
    (std_radrd_ s) t (x_ s) (P_ s) (x_aug_ s) (P_aug_ s)
    (Xsig_pred_ s) (Xsig_aug_ s) (weights_ s) (R_radar_ s) (R_lidar_ s)
    (Zsig_ s) (z_pred_ s) (S_ s) (NIS_lidar s) (NIS_radar s).

Definition set_x_ (v : Vec) (s : UKF) : UKF :=
  mkUKF (is_initialized_ s) (use_laser_ s) (use_radar_ s) (n_x_ s) (n_aug_ s)
    (n_sigma_pts_ s) (n_z s) (lambda_ s) (std_a_ s) (std_yawdd_ s)
    (std_laspx_ s) (std_laspy_ s) (std_radr_ s) (std_radphi_ s)
    (std_radrd_ s) (previous_timestamp_ s) v (P_ s) (x_aug_ s) (P_aug_ s)
    (Xsig_pred_ s) (Xsig_aug_ s) (weights_ s) (R_radar_ s) (R_lidar_ s)
    (Zsig_ s) (z_pred_ s) (S_ s) (NIS_lidar s) (NIS_radar s).

Definition set_P_ (m : Mat) (s : UKF) : UKF :=
  mkUKF (is_initialized_ s) (use_laser_ s) (use_radar_ s) (n_x_ s) (n_aug_ s)
    (n_sigma_pts_ s) (n_z s) (lambda_ s) (std_a_ s) (std_yawdd_ s)
    (std_laspx_ s) (std_laspy_ s) (std_radr_ s) (std_radphi_ s)
    (std_radrd_ s) (previous_timestamp_ s) (x_ s) m (x_aug_ s) (P_aug_ s)
    (Xsig_pred_ s) (Xsig_aug_ s) (weights_ s) (R_radar_ s) (R_lidar_ s)
    (Zsig_ s) (z_pred_ s) (S_ s) (NIS_lidar s) (NIS_radar s).

Definition set_x_aug_ (v : Vec) (s : UKF) : UKF :=
  mkUKF (is_initialized_ s) (use_laser_ s) (use_radar_ s) (n_x_ s) (n_aug_ s)
    (n_sigma_pts_ s) (n_z s) (lambda_ s) (std_a_ s) (std_yawdd_ s)
    (std_laspx_ s) (std_laspy_ s) (std_radr_ s) (std_radphi_ s)
    (std_radrd_ s) (previous_timestamp_ s) (x_ s) (P_ s) v (P_aug_ s)
    (Xsig_pred_ s) (Xsig_aug_ s) (weights_ s) (R_radar_ s) (R_lidar_ s)
    (Zsig_ s) (z_pred_ s) (S_ s) (NIS_lidar s) (NIS_radar s).

Definition set_P_aug_ (m : Mat) (s : UKF) : UKF :=
  mkUKF (is_initialized_ s) (use_laser_ s) (use_radar_ s) (n_x_ s) (n_aug_ s)
    (n_sigma_pts_ s) (n_z s) (lambda_ s) (std_a_ s) (std_yawdd_ s)
    (std_laspx_ s) (std_laspy_ s) (std_radr_ s) (std_radphi_ s)
    (std_radrd_ s) (previous_timestamp_ s) (x_ s) (P_ s) (x_aug_ s) m
    (Xsig_pred_ s) (Xsig_aug_ s) (weights_ s) (R_radar_ s) (R_lidar_ s)
    (Zsig_ s) (z_pred_ s) (S_ s) (NIS_lidar s) (NIS_radar s).

Definition set_Xsig_pred_ (m : Mat) (s : UKF) : UKF :=
  mkUKF (is_initialized_ s) (use_laser_ s) (use_radar_ s) (n_x_ s) (n_aug_ s)
    (n_sigma_pts_ s) (n_z s) (lambda_ s) (std_a_ s) (std_yawdd_ s)
    (std_laspx_ s) (std_laspy_ s) (std_radr_ s) (std_radphi_ s)
    (std_radrd_ s) (previous_timestamp_ s) (x_ s) (P_ s) (x_aug_ s)
    (P_aug_ s) m (Xsig_aug_ s) (weights_ s) (R_radar_ s) (R_lidar_ s)
    (Zsig_ s) (z_pred_ s) (S_ s) (NIS_lidar s) (NIS_radar s).

Definition set_Xsig_aug_ (m : Mat) (s : UKF) : UKF :=
  mkUKF (is_initialized_ s) (use_laser_ s) (use_radar_ s) (n_x_ s) (n_aug_ s)
    (n_sigma_pts_ s) (n_z s) (lambda_ s) (std_a_ s) (std_yawdd_ s)
    (std_laspx_ s) (std_laspy_ s) (std_radr_ s) (std_radphi_ s)
    (std_radrd_ s) (previous_timestamp_ s) (x_ s) (P_ s) (x_aug_ s)
    (P_aug_ s) (Xsig_pred_ s) m (weights_ s) (R_radar_ s) (R_lidar_ s)
    (Zsig_ s) (z_pred_ s) (S_ s) (NIS_lidar s) (NIS_radar s).

Definition set_weights_ (v : Vec) (s : UKF) : UKF :=
  mkUKF (is_initialized_ s) (use_laser_ s) (use_radar_ s) (n_x_ s) (n_aug_ s)
    (n_sigma_pts_ s) (n_z s) (lambda_ s) (std_a_ s) (std_yawdd_ s)
    (std_laspx_ s) (std_laspy_ s) (std_radr_ s) (std_radphi_ s)
    (std_radrd_ s) (previous_timestamp_ s) (x_ s) (P_ s) (x_aug_ s)
    (P_aug_ s) (Xsig_pred_ s) (Xsig_aug_ s) v (R_radar_ s) (R_lidar_ s)
    (Zsig_ s) (z_pred_ s) (S_ s) (NIS_lidar s) (NIS_radar s).

Definition set_Zsig_ (m : Mat) (s : UKF) : UKF :=
  mkUKF (is_initialized_ s) (use_laser_ s) (use_radar_ s) (n_x_ s) (n_aug_ s)
    (n_sigma_pts_ s) (n_z s) (lambda_ s) (std_a_ s) (std_yawdd_ s)
    (std_laspx_ s) (std_laspy_ s) (std_radr_ s) (std_radphi_ s)
    (std_radrd_ s) (previous_timestamp_ s) (x_ s) (P_ s) (x_aug_ s)
    (P_aug_ s) (Xsig_pred_ s) (Xsig_aug_ s) (weights_ s) (R_radar_ s)
    (R_lidar_ s) m (z_pred_ s) (S_ s) (NIS_lidar s) (NIS_radar s).

Definition set_z_pred_ (v : Vec) (s : UKF) : UKF :=
  mkUKF (is_initialized_ s) (use_laser_ s) (use_radar_ s) (n_x_ s) (n_aug_ s)
    (n_sigma_pts_ s) (n_z s) (lambda_ s) (std_a_ s) (std_yawdd_ s)
    (std_laspx_ s) (std_laspy_ s) (std_radr_ s) (std_radphi_ s)
    (std_radrd_ s) (previous_timestamp_ s) (x_ s) (P_ s) (x_aug_ s)
    (P_aug_ s) (Xsig_pred_ s) (Xsig_aug_ s) (weights_ s) (R_radar_ s)
    (R_lidar_ s) (Zsig_ s) v (S_ s) (NIS_lidar s) (NIS_radar s).

Definition set_S_ (m : Mat) (s : UKF) : UKF :=
  mkUKF (is_initialized_ s) (use_laser_ s) (use_radar_ s) (n_x_ s) (n_aug_ s)
    (n_sigma_pts_ s) (n_z s) (lambda_ s) (std_a_ s) (std_yawdd_ s)
    (std_laspx_ s) (std_laspy_ s) (std_radr_ s) (std_radphi_ s)
    (std_radrd_ s) (previous_timestamp_ s) (x_ s) (P_ s) (x_aug_ s)
    (P_aug_ s) (Xsig_pred_ s) (Xsig_aug_ s) (weights_ s) (R_radar_ s)
    (R_lidar_ s) (Zsig_ s) (z_pred_ s) m (NIS_lidar s) (NIS_radar s).

Definition set_NIS_lidar (a : R) (s : UKF) : UKF :=
  mkUKF (is_initialized_ s) (use_laser_ s) (use_radar_ s) (n_x_ s) (n_aug_ s)
    (n_sigma_pts_ s) (n_z s) (lambda_ s) (std_a_ s) (std_yawdd_ s)
    (std_laspx_ s) (std_laspy_ s) (std_radr_ s) (std_radphi_ s)
    (std_radrd_ s) (previous_timestamp_ s) (x_ s) (P_ s) (x_aug_ s)
    (P_aug_ s) (Xsig_pred_ s) (Xsig_aug_ s) (weights_ s) (R_radar_ s)
    (R_lidar_ s) (Zsig_ s) (z_pred_ s) (S_ s) a (NIS_radar s).

Definition set_NIS_radar (a : R) (s : UKF) : UKF :=
  mkUKF (is_initialized_ s) (use_laser_ s) (use_radar_ s) (n_x_ s) (n_aug_ s)
    (n_sigma_pts_ s) (n_z s) (lambda_ s) (std_a_ s) (std_yawdd_ s)
    (std_laspx_ s) (std_laspy_ s) (std_radr_ s) (std_radphi_ s)
    (std_radrd_ s) (previous_timestamp_ s) (x_ s) (P_ s) (x_aug_ s)
    (P_aug_ s) (Xsig_pred_ s) (Xsig_aug_ s) (weights_ s) (R_radar_ s)
    (R_lidar_ s) (Zsig_ s) (z_pred_ s) (S_ s) (NIS_lidar s) a.

(** The range of [for (int i = a; i < b; i++)]. *)
Definition range (a b : Z) : list nat :=
  seq (Z.to_nat a) (Z.to_nat b - Z.to_nat a).

(** [for (i ...) body]: the body is run on the state for each index. *)
Definition for_each (idx : list nat) (body : nat -> UKF -> UKF) (s : UKF) : UKF :=
  fold_left (fun s i => body i s) idx s.

(** ** The constructor, [UKF::UKF()]

    [use_laser_] and [use_radar_] are the two configuration flags; the
    constructor of the source sets both to [true].  They are arguments here
    so that the configurations the comments of the source describe ("if
    this is false, laser measurements will be ignored (except during
    init)") can be stated.  Members the constructor does not assign
    ([is_initialized_], [previous_timestamp_], [n_z], [Zsig_], [z_pred_],
    [S_], the two NIS values) start from the default of their type. *)
Definition UKF_config (use_laser use_radar : bool) : UKF :=
  let n_x := 5%Z in
  let n_aug := 7%Z in
  let std_a := 6 in
  let std_yawdd := PI / 6 in
  let std_laspx := 0.15 in
  let std_laspy := 0.15 in
  let std_radr := 0.3 in
  let std_radphi := 0.03 in
  let std_radrd := 0.3 in
  let lambda := IZR (3 - n_x) in
  let n_sigma_pts := (2 * n_aug + 1)%Z in
  let s :=
    mkUKF false use_laser use_radar n_x n_aug n_sigma_pts 0 lambda
      std_a std_yawdd std_laspx std_laspy std_radr std_radphi std_radrd
      0%Z
      [0; 0; PI / 4; 0.30; 0.18]
      [[0.3; 0; 0; 0; 0];
       [0; 0.2; 0; 0; 0];
       [0; 0; 0.3; 0; 0];
       [0; 0; 0; 1; 0];
       [0; 0; 0; 0; 1]]
      (vzero 7)
      (mzero (Z.to_nat n_aug) (Z.to_nat n_aug))
      (mzero (Z.to_nat n_x) (Z.to_nat n_sigma_pts))
      (mzero (Z.to_nat n_aug) (Z.to_nat n_sigma_pts))
      (vzero (Z.to_nat n_sigma_pts))
      [[std_radr * std_radr; 0; 0];
       [0; std_radphi * std_radphi; 0];
       [0; 0; std_radrd * std_radrd]]
      [[std_laspx * std_laspx; 0];
       [0; std_laspy * std_laspy]]
      [] [] [] 0 0 in
  (* set weights *)
  let weights_0 := lambda_ s / (lambda_ s + IZR (n_aug_ s)) in
  let s := set_weights_ (vset (weights_ s) 0 weights_0) s in
  for_each (range 1 (2 * n_aug_ s + 1))
    (fun i s =>
       let weight := 0.5 / (IZR (n_aug_ s) + lambda_ s) in
       set_weights_ (vset (weights_ s) i weight) s)
    s.

Definition UKF_new : UKF := UKF_config true true.

(** ** [UKF::generateSigmaPoints] *)
Definition generateSigmaPoints (s : UKF) : UKF :=
  let L := LLT.matrixL (P_aug_ s) in
  let s := set_Xsig_aug_ (set_col (Xsig_aug_ s) 0 (x_aug_ s)) s in
  for_each (range 0 (n_aug_ s))
    (fun i s =>
       let s :=
         set_Xsig_aug_
           (set_col (Xsig_aug_ s) (i + 1)
              (vadd (x_aug_ s)
                 (vscale (sqrt (lambda_ s + IZR (n_aug_ s))) (col L i)))) s in
       set_Xsig_aug_
         (set_col (Xsig_aug_ s) (i + 1 + Z.to_nat (n_aug_ s))
            (vsub (x_aug_ s)
               (vscale (sqrt (lambda_ s + IZR (n_aug_ s))) (col L i)))) s)
    s.

(** ** [UKF::predictSigmaPoints] *)
Definition predictSigmaPoints_body (delta_t : R) (i : nat) (s : UKF) : UKF :=
  let p_x := mget (Xsig_aug_ s) 0 i in
  let p_y := mget (Xsig_aug_ s) 1 i in
  let v := mget (Xsig_aug_ s) 2 i in
  let yaw := mget (Xsig_aug_ s) 3 i in
  let yawd := mget (Xsig_aug_ s) 4 i in
  let nu_a := mget (Xsig_aug_ s) 5 i in
  let nu_yawdd := mget (Xsig_aug_ s) 6 i in
  (* avoid division by zero *)
  let px_p :=
    if Rgt_dec (Rabs yawd) 0.001
    then p_x + v / yawd * (sin (yaw + yawd * delta_t) - sin yaw)
    else p_x + v * delta_t * cos yaw in
  let py_p :=
    if Rgt_dec (Rabs yawd) 0.001
    then p_y + v / yawd * (cos yaw - cos (yaw + yawd * delta_t))
    else p_y + v * delta_t * sin yaw in
  let v_p := v in
  let yaw_p := yaw + yawd * delta_t in
  let yawd_p := yawd in
  (* add noise *)
  let px_p := px_p + 0.5 * nu_a * delta_t * delta_t * cos yaw in
  let py_p := py_p + 0.5 * nu_a * delta_t * delta_t * sin yaw in
  let v_p := v_p + nu_a * delta_t in
  let yaw_p := yaw_p + 0.5 * nu_yawdd * delta_t * delta_t in
  let yawd_p := yawd_p + nu_yawdd * delta_t in
  (* write predicted sigma point into right column *)
  let s := set_Xsig_pred_ (mset (Xsig_pred_ s) 0 i px_p) s in
  let s := set_Xsig_pred_ (mset (Xsig_pred_ s) 1 i py_p) s in
  let s := set_Xsig_pred_ (mset (Xsig_pred_ s) 2 i v_p) s in
  let s := set_Xsig_pred_ (mset (Xsig_pred_ s) 3 i yaw_p) s in
  set_Xsig_pred_ (mset (Xsig_pred_ s) 4 i yawd_p) s.

Definition predictSigmaPoints (delta_t : R) (s : UKF) : UKF :=
  for_each (range 0 (2 * n_aug_ s + 1)) (predictSigmaPoints_body delta_t) s.

(** ** [UKF::Prediction]

    The body of [Prediction] is written in its four parts: the reset of
    the augmented mean and covariance ([augment]), the two calls, and the
    two recombination loops ([recombine]). *)

(** Reset augmented mean state and augmented covariance matrix. *)
Definition augment (s : UKF) : UKF :=
  let s := set_x_aug_ (set_head 5 (x_ s) (x_aug_ s)) s in
  let s := set_x_aug_ (vset (x_aug_ s) 5 0) s in
  let s := set_x_aug_ (vset (x_aug_ s) 6 0) s in
  let s := set_P_aug_ (mfill 0 (P_aug_ s)) s in
  let s := set_P_aug_ (set_topLeft (Z.to_nat (n_x_ s)) (P_ s) (P_aug_ s)) s in
  let s := set_P_aug_ (mset (P_aug_ s) 5 5 (std_a_ s * std_a_ s)) s in
  set_P_aug_ (mset (P_aug_ s) 6 6 (std_yawdd_ s * std_yawdd_ s)) s.

(** Predict new state and covariance. *)
Definition recombine (s : UKF) : UKF :=
  (* predicted state mean *)
  let s := set_x_ (vfill 0 (x_ s)) s in
  let s :=
    for_each (range 0 (2 * n_aug_ s + 1))
      (fun i s =>
         set_x_ (vadd (x_ s)
                   (vscale (vget (weights_ s) i) (col (Xsig_pred_ s) i))) s)
      s in
  (* predicted state covariance matrix *)
  let s := set_P_ (mfill 0 (P_ s)) s in
  for_each (range 0 (2 * n_aug_ s + 1))
    (fun i s =>
       let x_diff := vsub (col (Xsig_pred_ s) i) (x_ s) in
       let x_diff := normalize_at 3 x_diff in
       set_P_ (madd (P_ s)
                 (outer (vscale (vget (weights_ s) i) x_diff) x_diff)) s)
    s.

Definition Prediction (delta_t : R) (s : UKF) : UKF :=
  let s := augment s in
  let s := generateSigmaPoints s in
  let s := predictSigmaPoints delta_t s in
  recombine s.

(** ** [UKF::predictMeasurment] *)
Definition predictMeasurment (R : Mat) (s : UKF) : UKF :=
  (* mean predicted measurement *)
  let s := set_z_pred_ (vfill 0 (z_pred_ s)) s in
  let s :=
    for_each (range 0 (2 * n_aug_ s + 1))
      (fun i s =>
         set_z_pred_ (vadd (z_pred_ s)
                        (vscale (vget (weights_ s) i) (col (Zsig_ s) i))) s)
      s in
  (* measurement covariance matrix S *)
  let s := set_S_ (mfill 0 (S_ s)) s in
  let s :=
    for_each (range 0 (2 * n_aug_ s + 1))
      (fun i s =>
         let z_diff := vsub (col (Zsig_ s) i) (z_pred_ s) in
         let z_diff := normalize_at 1 z_diff in
         set_S_ (madd (S_ s)
                   (outer (vscale (vget (weights_ s) i) z_diff) z_diff)) s)
      s in
  (* add measurement noise covariance matrix *)
  set_S_ (madd (S_ s) R) s.

(** ** [UKF::UpdateMeasurment]

    The pieces of the correction are named so that they can be referred to:
    the cross correlation [Tc], the gain [K] and the residual [z_diff]. *)
Definition cross_correlation (s : UKF) : Mat :=
  fold_left
    (fun Tc i =>
       let z_diff := vsub (col (Zsig_ s) i) (z_pred_ s) in
       let z_diff := normalize_at 1 z_diff in
       let x_diff := vsub (col (Xsig_pred_ s) i) (x_ s) in
       let x_diff := normalize_at 3 x_diff in
       madd Tc (outer (vscale (vget (weights_ s) i) x_diff) z_diff))
    (range 0 (2 * n_aug_ s + 1))
    (mfill 0 (mzero (Z.to_nat (n_x_ s)) (Z.to_nat (n_z s)))).

Definition kalman_gain (s : UKF) : Mat :=
  mmul (cross_correlation s) (Inverse.inverse (S_ s)).

Definition residual (meas_package : MeasurementPackage) (s : UKF) : Vec :=
  let z := raw_measurements_ meas_package in
  let z_diff := vsub z (z_pred_ s) in
  normalize_at 1 z_diff.

Definition UpdateMeasurment (meas_package : MeasurementPackage) (s : UKF) : UKF :=
  let K := kalman_gain s in
  let z_diff := residual meas_package s in
  (* update state mean and covariance matrix *)
  let s := set_x_ (vadd (x_ s) (mvmul K z_diff)) s in
  let s := set_P_ (msub (P_ s) (mmul (mmul K (S_ s)) (transpose K))) s in
  let nis := dot z_diff (mvmul (Inverse.inverse (S_ s)) z_diff) in
  match sensor_type_ meas_package with
  | LASER => set_NIS_lidar nis s
  | RADAR => set_NIS_radar nis s
  end.

(** ** [UKF::UpdateLidar]

    [lidar_space] is the first part of the body: the measurement
    dimension, the sigma points in measurement space, and the storage for
    the predicted measurement and its covariance. *)
Definition lidar_space (s : UKF) : UKF :=
  let s := set_n_z 2 s in
  let s :=
    set_Zsig_ (block00 (Z.to_nat (n_z s)) (Z.to_nat (2 * n_aug_ s + 1))
                 (Xsig_pred_ s)) s in
  let s := set_z_pred_ (vzero (Z.to_nat (n_z s))) s in
  set_S_ (mzero (Z.to_nat (n_z s)) (Z.to_nat (n_z s))) s.

Definition UpdateLidar (meas_package : MeasurementPackage) (s : UKF) : UKF :=
  let s := lidar_space s in
  let s := predictMeasurment (R_lidar_ s) s in
  UpdateMeasurment meas_package s.

(** ** [UKF::UpdateRadar]

    [radar_space] is the first part of the body: it transforms the sigma
    points into radar measurement space. *)
Definition UpdateRadar_body (i : nat) (s : UKF) : UKF :=
  let p_x := mget (Xsig_pred_ s) 0 i in
  let p_y := mget (Xsig_pred_ s) 1 i in
  let v := mget (Xsig_pred_ s) 2 i in
  let yaw := mget (Xsig_pred_ s) 3 i in
  let v1 := cos yaw * v in
  let v2 := sin yaw * v in
  (* measurement model *)
  let s := set_Zsig_ (mset (Zsig_ s) 0 i (sqrt (p_x * p_x + p_y * p_y))) s in
  let s := set_Zsig_ (mset (Zsig_ s) 1 i (atan2 p_y p_x)) s in
  set_Zsig_
    (mset (Zsig_ s) 2 i
       ((p_x * v1 + p_y * v2) / sqrt (p_x * p_x + p_y * p_y))) s.

Definition radar_space (s : UKF) : UKF :=
  let s := set_n_z 3 s in
  let s :=
    set_Zsig_ (mzero (Z.to_nat (n_z s)) (Z.to_nat (2 * n_aug_ s + 1))) s in
  let s := for_each (range 0 (2 * n_aug_ s + 1)) UpdateRadar_body s in
  let s := set_z_pred_ (vzero (Z.to_nat (n_z s))) s in
  set_S_ (mzero (Z.to_nat (n_z s)) (Z.to_nat (n_z s))) s.

Definition UpdateRadar (meas_package : MeasurementPackage) (s : UKF) : UKF :=
  let s := radar_space s in
  let s := predictMeasurment (R_radar_ s) s in
  UpdateMeasurment meas_package s.

(** ** [UKF::ProcessMeasurement] *)
Definition ProcessMeasurement (meas_package : MeasurementPackage) (s : UKF) : UKF :=
  if negb (is_initialized_ s) then
    let s :=
      match sensor_type_ meas_package with
      | RADAR =>
          let rawMeasurment := raw_measurements_ meas_package in
          let rho := vget rawMeasurment 0 in
          let phi := vget rawMeasurment 1 in
          let rhodot := vget rawMeasurment 2 in
          let px := rho * cos phi in
          let py := rho * sin phi in
          let vx := rhodot * cos phi in
          let vy := rhodot * sin phi in
          let vel := sqrt (vx * vx + vy * vy) in
          set_x_ [px; py; vel; 0; 0] s
      | LASER =>
          let rawMeasurment := raw_measurements_ meas_package in
          let px := vget rawMeasurment 0 in
          let py := vget rawMeasurment 1 in
          let px := if Rlt_dec (Rabs px) 0.001 then 0.001 else px in
          let py := if Rlt_dec (Rabs py) 0.001 then 0.001 else py in
          set_x_ [px; py; 0; 0; 0] s
      end in
    let s := set_previous_timestamp_ (timestamp_ meas_package) s in
    set_is_initialized_ true s
  else
    (* dt - expressed in seconds *)
    let delta_t :=
      IZR (timestamp_ meas_package - previous_timestamp_ s) / 1000000.0 in
    let s := set_previous_timestamp_ (timestamp_ meas_package) s in
    let s := Prediction delta_t s in
    match sensor_type_ meas_package with
    | RADAR => UpdateRadar meas_package s
    | LASER => UpdateLidar meas_package s
    end.

(** A run of the filter: the measurements are processed in order. *)
Definition run (ms : list MeasurementPackage) (s : UKF) : UKF :=
  fold_left (fun s m => ProcessMeasurement m s) ms s.

(** The sizes the constructor allocates. *)
Definition shaped (r c : nat) (M : Mat) : Prop :=
  length M = c /\ Forall (fun v => length v = r) M.

Record sized (s : UKF) : Prop := mkSized {
  sized_n_x : n_x_ s = 5%Z;
  sized_n_aug : n_aug_ s = 7%Z;
  sized_x : length (x_ s) = 5%nat;
  sized_P : shaped 5 5 (P_ s);
  sized_x_aug : length (x_aug_ s) = 7%nat;
  sized_P_aug : shaped 7 7 (P_aug_ s);
  sized_Xsig_pred : shaped 5 15 (Xsig_pred_ s);
  sized_Xsig_aug : shaped 7 15 (Xsig_aug_ s);
  sized_weights : length (weights_ s) = 15%nat
}.

(** ** Names for the stages of the filter

    The definitions below do not add behaviour: they name parts of the
    functions above so that statements can refer to them. *)

(** The coefficient the augmented covariance is expected to have at
    [(r,c)]: the belief covariance in the top left block, the two process
    noise variances on the rest of the diagonal, zero elsewhere. *)
Definition augmented_entry (s : UKF) (r c : nat) : R :=
  if (r <? 5)%nat && (c <? 5)%nat then mget (P_ s) r c
  else if (r =? 5)%nat && (c =? 5)%nat then std_a_ s * std_a_ s
  else if (r =? 6)%nat && (c =? 6)%nat then std_yawdd_ s * std_yawdd_ s
  else 0.

(** Weighted recombination of the columns of [X] with the weights [W]:
    the sum of [W(i) * X.col(i)] over the indices [idx], added to [acc]. *)
Definition weighted_mean (W : Vec) (X : Mat) (idx : list nat) (acc : Vec) : Vec :=
  fold_left (fun acc i => vadd acc (vscale (vget W i) (col X i))) idx acc.

(** The sum of [W(i) * d_i * d_i^T] where [d_i] is [X.col(i) - mean] with
    its coefficient [k] angle-normalised. *)
Definition weighted_cov (W : Vec) (X : Mat) (mean : Vec) (k : nat)
    (idx : list nat) (acc : Mat) : Mat :=
  fold_left
    (fun acc i =>
       let d := normalize_at k (vsub (col X i) mean) in
       madd acc (outer (vscale (vget W i) d) d))
    idx acc.

(** The sum of [W(i) * dx_i * dz_i^T]. *)
Definition weighted_cross (W : Vec) (X : Mat) (x : Vec) (Z : Mat) (z : Vec)
    (idx : list nat) (acc : Mat) : Mat :=
  fold_left
    (fun acc i =>
       let dz := normalize_at 1 (vsub (col Z i) z) in
       let dx := normalize_at 3 (vsub (col X i) x) in
       madd acc (outer (vscale (vget W i) dx) dz))
    idx acc.

(** A member [f] is not touched by the assignment [set]. *)
Definition ignores {A B : Type} (f : UKF -> A) (set : B -> UKF -> UKF) : Prop :=
  forall b s, f (set b s) = f s.

(** A member that only the constructor assigns. *)
Definition configuration {A : Type} (f : UKF -> A) : Prop :=
  ignores f set_is_initialized_ /\ ignores f set_previous_timestamp_ /\
  ignores f set_n_z /\ ignores f set_Zsig_ /\
  ignores f set_z_pred_ /\ ignores f set_S_ /\
  ignores f set_x_ /\ ignores f set_P_ /\
  ignores f set_x_aug_ /\ ignores f set_P_aug_ /\
  ignores f set_Xsig_aug_ /\ ignores f set_Xsig_pred_ /\
  ignores f set_NIS_lidar /\ ignores f set_NIS_radar.

(** The weights the constructor computes. *)
Definition sigma_weights : Vec :=
  [-2 / 5; 1 / 10; 1 / 10; 1 / 10; 1 / 10; 1 / 10; 1 / 10; 1 / 10;
   1 / 10; 1 / 10; 1 / 10; 1 / 10; 1 / 10; 1 / 10; 1 / 10].

(** The indices of the 15 sigma points. *)
Definition sigma_indices : list nat := seq 0 15.

(** The motion model of [predictSigmaPoints] on one augmented sigma point
    [p], as the column it writes. *)
Definition motion (delta_t : R) (p : Vec) : Vec :=
  let p_x := vget p 0 in
  let p_y := vget p 1 in
  let v := vget p 2 in
  let yaw := vget p 3 in
  let yawd := vget p 4 in
  let nu_a := vget p 5 in
  let nu_yawdd := vget p 6 in
  let px_p :=
    if Rgt_dec (Rabs yawd) 0.001
    then p_x + v / yawd * (sin (yaw + yawd * delta_t) - sin yaw)
    else p_x + v * delta_t * cos yaw in
  let py_p :=
    if Rgt_dec (Rabs yawd) 0.001
    then p_y + v / yawd * (cos yaw - cos (yaw + yawd * delta_t))
    else p_y + v * delta_t * sin yaw in
  [px_p + 0.5 * nu_a * delta_t * delta_t * cos yaw;
   py_p + 0.5 * nu_a * delta_t * delta_t * sin yaw;
   v + nu_a * delta_t;
   yaw + yawd * delta_t + 0.5 * nu_yawdd * delta_t * delta_t;
   yawd + nu_yawdd * delta_t].

(** *** A belief at rest with a diagonal factor

    The values the filter goes through when the belief mean is
    [(px, py, 0, 0, 0)] and the factor of the augmented covariance is the
    diagonal matrix of [l0 .. l6]; [c] stands for [sqrt (lambda + 7)]. *)
Section DiagonalValues.

Variables (px py c dt l0 l1 l2 l3 l4 l5 l6 : R).

Definition diag7 : Mat :=
  [[l0; 0; 0; 0; 0; 0; 0];
   [0; l1; 0; 0; 0; 0; 0];
   [0; 0; l2; 0; 0; 0; 0];
   [0; 0; 0; l3; 0; 0; 0];
   [0; 0; 0; 0; l4; 0; 0];
   [0; 0; 0; 0; 0; l5; 0];
   [0; 0; 0; 0; 0; 0; l6]].

Definition diag_aug : Mat :=
  [[px; py; 0; 0; 0; 0; 0];
   [px + c * l0; py; 0; 0; 0; 0; 0];
   [px; py + c * l1; 0; 0; 0; 0; 0];
   [px; py; c * l2; 0; 0; 0; 0];
   [px; py; 0; c * l3; 0; 0; 0];
   [px; py; 0; 0; c * l4; 0; 0];
   [px; py; 0; 0; 0; c * l5; 0];
   [px; py; 0; 0; 0; 0; c * l6];
   [px - c * l0; py; 0; 0; 0; 0; 0];
   [px; py - c * l1; 0; 0; 0; 0; 0];
   [px; py; - (c * l2); 0; 0; 0; 0];
   [px; py; 0; - (c * l3); 0; 0; 0];
   [px; py; 0; 0; - (c * l4); 0; 0];
   [px; py; 0; 0; 0; - (c * l5); 0];
   [px; py; 0; 0; 0; 0; - (c * l6)]].

Definition diag_pred : Mat :=
  [[px; py; 0; 0; 0];
   [px + c * l0; py; 0; 0; 0];
   [px; py + c * l1; 0; 0; 0];
   [px + c * l2 * dt; py; c * l2; 0; 0];
   [px; py; 0; c * l3; 0];
   [px; py; 0; c * l4 * dt; c * l4];
   [px + 0.5 * (c * l5) * dt * dt; py; c * l5 * dt; 0; 0];
   [px; py; 0; 0.5 * (c * l6) * dt * dt; c * l6 * dt];
   [px - c * l0; py; 0; 0; 0];
   [px; py - c * l1; 0; 0; 0];
   [px - c * l2 * dt; py; - (c * l2); 0; 0];
   [px; py; 0; - (c * l3); 0];
   [px; py; 0; - (c * l4 * dt); - (c * l4)];
   [px - 0.5 * (c * l5) * dt * dt; py; - (c * l5 * dt); 0; 0];
   [px; py; 0; - (0.5 * (c * l6) * dt * dt); - (c * l6 * dt)]].

Definition diag_Z : Mat := block00 2 15 diag_pred.

(** Variance of the predicted x position, and of the predicted y
    position, with the measurement noises [r0] and [r1] added. *)
Definition diag_S00 (r0 : R) : R :=
  c * c / 5 * (l0 * l0 + l2 * l2 * (dt * dt)
               + 0.25 * (l5 * l5) * (dt * dt * dt * dt)) + r0.

Definition diag_S11 (r1 : R) : R :=
  1 / 10 * normalize_angle (c * l1) * normalize_angle (c * l1) +
  1 / 10 * normalize_angle (- (c * l1)) * normalize_angle (- (c * l1)) + r1.

(** Covariance of the speed with the predicted x position. *)
Definition diag_T20 : R :=
  c * c / 5 * (l2 * l2 * dt + 0.5 * (l5 * l5) * (dt * dt * dt)).

End DiagonalValues.

(** The radar measurement model of [UpdateRadar] on one predicted sigma
    point [p], as the column it writes. *)
Definition radar_point (p : Vec) : Vec :=
  let p_x := vget p 0 in
  let p_y := vget p 1 in
  let v := vget p 2 in
  let yaw := vget p 3 in
  let v1 := cos yaw * v in
  let v2 := sin yaw * v in
  [sqrt (p_x * p_x + p_y * p_y);
   atan2 p_y p_x;
   (p_x * v1 + p_y * v2) / sqrt (p_x * p_x + p_y * p_y)].

(** Covariance of the predicted y position with itself before the noise
    is added, when the factor is diagonal. *)
Definition diag_T11 (c l1 : R) : R :=
  1 / 10 * (c * l1) * (normalize_angle (c * l1) - normalize_angle (- (c * l1))).

Definition diag_T00 (c dt l0 l2 l5 : R) : R :=
  c * c / 5 * (l0 * l0 + l2 * l2 * (dt * dt)
               + 0.25 * (l5 * l5) * (dt * dt * dt * dt)).

(** ** Readings and the notions the statements use *)

Definition laser (t : Z) (x y : R) : MeasurementPackage :=
  mkMeas t LASER [x; y].

Definition radar (t : Z) (rho phi rhodot : R) : MeasurementPackage :=
  mkMeas t RADAR [rho; phi; rhodot].

(** The elapsed time [ProcessMeasurement] computes, in seconds. *)
Definition elapsed (m : MeasurementPackage) (s : UKF) : R :=
  IZR (timestamp_ m - previous_timestamp_ s) / 1000000.0.

(** What [ProcessMeasurement] does with a reading when the elapsed time
    handed to [Prediction] is [delta_t]. *)
Definition process_with (delta_t : R) (m : MeasurementPackage) (s : UKF) : UKF :=
  let s := set_previous_timestamp_ (timestamp_ m) s in
  let s := Prediction delta_t s in
  match sensor_type_ m with
  | RADAR => UpdateRadar m s
  | LASER => UpdateLidar m s
  end.

(** A reading is rejected when it leaves the belief as it was. *)
Definition rejected (m : MeasurementPackage) (s : UKF) : Prop :=
  x_ (ProcessMeasurement m s) = x_ s /\ P_ (ProcessMeasurement m s) = P_ s.

(** The elapsed time is clamped when the reading is processed as if no
    time had passed. *)
Definition clamped (m : MeasurementPackage) (s : UKF) : Prop :=
  ProcessMeasurement m s = process_with 0 m s.

(** The sensor of a reading is switched off by the configuration. *)
Definition disabled (m : MeasurementPackage) (s : UKF) : Prop :=
  match sensor_type_ m with
  | LASER => use_laser_ s = false
  | RADAR => use_radar_ s = false
  end.

(** [M] is positive definite: [v^T M v > 0] for every non-zero [v]. *)
Definition positive_definite (M : Mat) : Prop :=
  forall v : Vec,
    length v = rows M -> (exists i, vget v i <> 0) -> 0 < dot v (mvmul M v).

(** The state before the correction: prediction over [delta_t], then the
    predicted measurement of the sensor of [m]. *)
Definition predicted (delta_t : R) (m : MeasurementPackage) (s : UKF) : UKF :=
  let s := set_previous_timestamp_ (timestamp_ m) s in
  let s := Prediction delta_t s in
  match sensor_type_ m with
  | RADAR =>
      let s := radar_space s in predictMeasurment (R_radar_ s) s
  | LASER =>
      let s := lidar_space s in predictMeasurment (R_lidar_ s) s
  end.

(** The filter after a first LASER reading at (1, 1) taken at time [t]. *)
Definition started (use_laser use_radar : bool) (t : Z) : UKF :=
  set_is_initialized_ true
    (set_previous_timestamp_ t
       (set_x_ [1; 1; 0; 0; 0] (UKF_config use_laser use_radar))).

(** The same with a belief covariance of zero, which is positive
    semidefinite but not positive definite. *)
Definition degenerate (t : Z) : UKF :=
  set_P_ (mzero 5 5) (started true true t).

(** The filter after a first RADAR reading of range 0 taken at time [t]. *)
Definition at_origin (t : Z) : UKF :=
  set_is_initialized_ true
    (set_previous_timestamp_ t (set_x_ [0; 0; 0; 0; 0] UKF_new)).

(** A filter whose belief couples the two coordinates of the position: the
    covariance has 4 and 5 on the diagonal and 2 beside it. *)
Definition correlated : UKF :=
  set_P_ [[4; 2; 0; 0; 0]; [2; 5; 0; 0; 0]; [0; 0; 1; 0; 0]; [0; 0; 0; 1; 0];
          [0; 0; 0; 0; 1]] UKF_new.

(** The lower triangular matrix with the diagonal [2, 2, 1, 1, 1, 6, pi/6]
    and a 1 below the first coefficient. *)
Definition correlated_factor : Mat :=
  [[2; 1; 0; 0; 0; 0; 0]; [0; 2; 0; 0; 0; 0; 0]; [0; 0; 1; 0; 0; 0; 0];
   [0; 0; 0; 1; 0; 0; 0]; [0; 0; 0; 0; 1; 0; 0]; [0; 0; 0; 0; 0; 6; 0];
   [0; 0; 0; 0; 0; 0; PI / 6]].

(** A 7x7 matrix that is diagonal apart from its leading 2x2 block, which
    has [a] and [c] on the diagonal, [b] below it and [u] above it. *)
Definition block7 (a u b c d2 d3 d4 d5 d6 : R) : Mat :=
  [[a; b; 0; 0; 0; 0; 0]; [u; c; 0; 0; 0; 0; 0]; [0; 0; d2; 0; 0; 0; 0];
   [0; 0; 0; d3; 0; 0; 0]; [0; 0; 0; 0; d4; 0; 0]; [0; 0; 0; 0; 0; d5; 0];
   [0; 0; 0; 0; 0; 0; d6]].

(** ** Assignments a caller can make to the two flags *)

(** [use_laser_ = b] and [use_radar_ = b]: the members are public, and the
    filter itself never assigns them after the constructor. *)
Definition set_use_laser_ (b : bool) (s : UKF) : UKF :=
  mkUKF (is_initialized_ s) b (use_radar_ s) (n_x_ s) (n_aug_ s)
    (n_sigma_pts_ s) (n_z s) (lambda_ s) (std_a_ s) (std_yawdd_ s)
    (std_laspx_ s) (std_laspy_ s) (std_radr_ s) (std_radphi_ s)
    (std_radrd_ s) (previous_timestamp_ s) (x_ s) (P_ s) (x_aug_ s)
    (P_aug_ s) (Xsig_pred_ s) (Xsig_aug_ s) (weights_ s) (R_radar_ s)
    (R_lidar_ s) (Zsig_ s) (z_pred_ s) (S_ s) (NIS_lidar s) (NIS_radar s).

Definition set_use_radar_ (b : bool) (s : UKF) : UKF :=
  mkUKF (is_initialized_ s) (use_laser_ s) b (n_x_ s) (n_aug_ s)
    (n_sigma_pts_ s) (n_z s) (lambda_ s) (std_a_ s) (std_yawdd_ s)
    (std_laspx_ s) (std_laspy_ s) (std_radr_ s) (std_radphi_ s)
    (std_radrd_ s) (previous_timestamp_ s) (x_ s) (P_ s) (x_aug_ s)
    (P_aug_ s) (Xsig_pred_ s) (Xsig_aug_ s) (weights_ s) (R_radar_ s)
    (R_lidar_ s) (Zsig_ s) (z_pred_ s) (S_ s) (NIS_lidar s) (NIS_radar s).

Definition set_flags (use_laser use_radar : bool) (s : UKF) : UKF :=
  set_use_radar_ use_radar (set_use_laser_ use_laser s).

(** The normalised innovation squared [UpdateMeasurment] computes. *)
Definition nis (m : MeasurementPackage) (s : UKF) : R :=
  let z_diff := residual m s in
  dot z_diff (mvmul (Inverse.inverse (S_ s)) z_diff).

(** The sizes of all the members that have one, the two noise matrices
    included. *)
Definition well_sized (s : UKF) : Prop :=
  sized s /\ shaped 2 2 (R_lidar_ s) /\ shaped 3 3 (R_radar_ s).

(** The 15 columns [generateSigmaPoints] writes for the mean [x], the
    spread [c] and the factor [L]: the mean, then the mean plus and the
    mean minus [c] times each of the 7 columns of [L]. *)
Definition sigma_points (x : Vec) (c : R) (L : Mat) : Mat :=
  x :: map (fun i => vadd x (vscale c (col L i))) (seq 0 7) ++
       map (fun i => vsub x (vscale c (col L i))) (seq 0 7).

(** [M] is symmetric: it is its own transpose. *)
Definition symmetric (M : Mat) : Prop := transpose M = M.

(** Two filters hold the same belief under the same configuration: they
    agree on the mean, the covariance, the initialisation flag, the time
    stamp and the constants the constructor sets.  The other members (the
    augmented mean and covariance, the sigma point matrices, the members
    in measurement space and the two NIS values) are left free. *)
Definition same_belief (s s' : UKF) : Prop :=
  is_initialized_ s = is_initialized_ s' /\
  previous_timestamp_ s = previous_timestamp_ s' /\
  x_ s = x_ s' /\ P_ s = P_ s' /\
  lambda_ s = lambda_ s' /\ std_a_ s = std_a_ s' /\
  std_yawdd_ s = std_yawdd_ s' /\ weights_ s = weights_ s' /\
  R_lidar_ s = R_lidar_ s' /\ R_radar_ s = R_radar_ s'.

(** * Properties *)

(** ** Proof tools *)

(** A list of known length is turned into its coefficients. *)
Ltac list_of_length H :=
  repeat match type of H with
  | length ?l = S _ =>
      let a := fresh "a" in
      destruct l as [|a l]; [discriminate H|];
      simpl in H; apply eq_add_S in H
  | length ?l = O => destruct l; [clear H|discriminate H]
  end.

(** A matrix of known size is turned into its columns of coefficients. *)
Ltac mat_of_shape H :=
  let H1 := fresh "Hlen" in
  let H2 := fresh "Hall" in
  destruct H as [H1 H2]; list_of_length H1;
  repeat match goal with
  | H : Forall _ (_ :: _) |- _ =>
      let Ha := fresh "Hc" in
      let Hb := fresh "Hr" in
      apply Forall_cons_iff in H; destruct H as [Ha Hb]; list_of_length Ha
  | H : Forall _ [] |- _ => clear H
  end.

(** Only the columns of a matrix of known size. *)
Ltac cols_of_shape H :=
  let H1 := fresh "Hlen" in
  let H2 := fresh "Hall" in
  destruct H as [H1 H2]; list_of_length H1.

(** Runs the control structure of the filter (loops over index ranges,
    member assignments, coefficient writes) and leaves the arithmetic. *)
Ltac ukf_cbv :=
  cbv beta iota zeta delta
   [ProcessMeasurement Prediction augment recombine generateSigmaPoints predictSigmaPoints
    predictSigmaPoints_body UpdateLidar UpdateRadar UpdateRadar_body
    lidar_space radar_space
    predictMeasurment UpdateMeasurment residual kalman_gain
    cross_correlation run UKF_new UKF_config
    for_each range fold_left seq negb
    set_is_initialized_ set_n_z set_previous_timestamp_ set_x_ set_P_
    set_x_aug_ set_P_aug_ set_Xsig_pred_ set_Xsig_aug_ set_weights_
    set_Zsig_ set_z_pred_ set_S_ set_NIS_lidar set_NIS_radar
    is_initialized_ use_laser_ use_radar_ n_x_ n_aug_ n_sigma_pts_ n_z
    lambda_ std_a_ std_yawdd_ std_laspx_ std_laspy_ std_radr_ std_radphi_
    std_radrd_ previous_timestamp_ x_ P_ x_aug_ P_aug_ Xsig_pred_ Xsig_aug_
    weights_ R_radar_ R_lidar_ Zsig_ z_pred_ S_ NIS_lidar NIS_radar
    timestamp_ sensor_type_ raw_measurements_
    Z.to_nat Z.mul Z.add Z.sub Z.opp Z.pos_sub Pos.mul Pos.add Pos.succ
    Pos.to_nat Pos.iter_op Pos.pred_double Z.succ_double Z.pred_double
    Z.double Nat.add Nat.sub Nat.min Pos.add_carry
    set_col mset col vset nth vzero mzero repeat].

(** The same, and the vector and matrix operations as well. *)
Ltac eigen_cbv :=
  cbv beta iota zeta delta
   [vget vset col mget set_col mset rows cols vzero mzero vfill mfill
    vzip vadd vsub vscale mzip madd msub outer dot row transpose mvmul
    mmul set_head set_topLeft block00 normalize_at
    map seq firstn skipn app hd length repeat nth fold_left fold_right
    Nat.add Nat.sub Nat.min Nat.even].

(** Splits an equation between explicit vectors or matrices into the
    equations between their coefficients. *)
Ltac list_split :=
  repeat match goal with
  | |- _ :: _ = _ :: _ => apply f_equal2
  end;
  try reflexivity.

(** Decimal constants as fractions, which [ring] and [field] compute with. *)
Ltac halves :=
  replace 0.5 with (/ 2) by lra;
  replace 0.25 with (/ 4) by lra.

Ltac range_cbv :=
  cbv beta iota zeta delta
    [range Z.to_nat Z.mul Z.add Pos.mul Pos.add Pos.succ Pos.to_nat
     Pos.iter_op Nat.add Nat.sub].

Ltac inverse_cbv :=
  cbv beta iota zeta delta
   [Inverse.inverse Inverse.det Inverse.det_n Inverse.minor Inverse.sign
    Inverse.sum_over Inverse.drop_nth
    vget vset col mget set_col mset rows cols vzero mzero vfill mfill
    vzip vadd vsub vscale mzip madd msub outer dot row transpose mvmul
    mmul set_head set_topLeft block00 normalize_at
    map seq firstn skipn app hd length repeat nth fold_left fold_right
    Nat.add Nat.sub Nat.min Nat.even].

Ltac llt_cbv :=
  cbv beta iota zeta delta
   [LLT.step LLT.pivot LLT.below LLT.lower LLT.lower_from LLT.lower_col
    vget vset col mget set_col mset rows cols vzero mzero vfill mfill
    vzip vadd vsub vscale mzip madd msub outer dot row transpose mvmul
    mmul set_head set_topLeft block00
    map seq firstn skipn app hd length repeat nth fold_left fold_right
    Nat.add Nat.sub Nat.min Nat.even].

Ltac frame_tac := intros ? ?; reflexivity.
Section AngleLoops.

Lemma PI_pos : 0 < PI.
Proof. exact PI_RGT_0. Qed.

Lemma wrap_down_enough (n : nat) :
  forall a, a <= PI + 2 * PI * INR n ->
  exists b, wrap_down (S n) a = Some b /\ b <= PI /\
            (a <= PI -> b = a) /\ (b = a \/ - PI < b).
Proof.
  induction n as [|n IH]; intros a Ha.
  - cbn [INR] in Ha. exists a. simpl.
    destruct (Rgt_dec a PI) as [H|H]; [lra|].
    repeat split; auto; lra.
  - rewrite S_INR in Ha.
    change (wrap_down (S (S n)) a)
      with (if Rgt_dec a PI then wrap_down (S n) (a - 2 * PI) else Some a).
    destruct (Rgt_dec a PI) as [H|H].
    + destruct (IH (a - 2 * PI)) as (b & Hb & Hle & Hid & Hlow); [lra|].
      exists b. repeat split; auto; [lra|].
      right. destruct Hlow as [->|Hlow]; lra.
    + exists a. repeat split; auto; lra.
Qed.

Lemma wrap_up_enough (n : nat) :
  forall a, - a <= PI + 2 * PI * INR n ->
  exists b, wrap_up (S n) a = Some b /\ - PI <= b /\
            (- PI <= a -> b = a) /\ (b = a \/ b < PI).
Proof.
  induction n as [|n IH]; intros a Ha.
  - cbn [INR] in Ha. exists a. simpl.
    destruct (Rlt_dec a (- PI)) as [H|H]; [lra|].
    repeat split; auto; lra.
  - rewrite S_INR in Ha.
    change (wrap_up (S (S n)) a)
      with (if Rlt_dec a (- PI) then wrap_up (S n) (a + 2 * PI) else Some a).
    destruct (Rlt_dec a (- PI)) as [H|H].
    + destruct (IH (a + 2 * PI)) as (b & Hb & Hle & Hid & Hlow); [lra|].
      exists b. repeat split; auto; [lra|].
      right. destruct Hlow as [->|Hlow]; lra.
    + exists a. repeat split; auto; lra.
Qed.

(** More fuel never changes the outcome of a loop that has finished. *)
Lemma wrap_down_mono (n : nat) :
  forall a b m, wrap_down n a = Some b -> (n <= m)%nat -> wrap_down m a = Some b.
Proof.
  induction n as [|n IH]; intros a b m H Hm; [discriminate|].
  destruct m as [|m]; [lia|]. simpl in *.
  destruct (Rgt_dec a PI); auto. apply IH; auto; lia.
Qed.

Lemma wrap_up_mono (n : nat) :
  forall a b m, wrap_up n a = Some b -> (n <= m)%nat -> wrap_up m a = Some b.
Proof.
  induction n as [|n IH]; intros a b m H Hm; [discriminate|].
  destruct m as [|m]; [lia|]. simpl in *.
  destruct (Rlt_dec a (- PI)); auto. apply IH; auto; lia.
Qed.

Lemma angle_fuel_bound (a : R) :
  Rabs a <= 2 * PI * INR (Z.to_nat (up (Rabs a / (2 * PI)))).
Proof.
  pose proof PI_pos as Hpi.
  set (q := Rabs a / (2 * PI)).
  assert (Hq : 0 <= q).
  { unfold q. apply Rmult_le_pos; [apply Rabs_pos|].
    left. apply Rinv_0_lt_compat. lra. }
  destruct (archimed q) as [Hup _].
  assert (Hz : (0 <= up q)%Z).
  { apply le_IZR. lra. }
  rewrite INR_IZR_INZ, Z2Nat.id by exact Hz.
  assert (Rabs a = q * (2 * PI)) as ->.
  { unfold q. field. lra. }
  nra.
Qed.

Lemma normalize_fuel_enough (a : R) :
  exists b, normalize_fuel (angle_fuel a) a = Some b /\ - PI <= b <= PI.
Proof.
  pose proof PI_pos as Hpi.
  pose proof (angle_fuel_bound a) as Hb.
  pose proof (Rle_abs a) as Ha1.
  pose proof (Rle_abs (- a)) as Ha2. rewrite Rabs_Ropp in Ha2.
  unfold normalize_fuel, angle_fuel.
  set (n := Z.to_nat _) in *.
  assert (Hn : 0 <= INR n) by apply pos_INR.
  destruct (wrap_down_enough (S n) a) as (b & -> & Hle & Hid & Hlow).
  { rewrite S_INR. nra. }
  destruct (wrap_up_enough (S n) b) as (c & -> & Hge & Hid' & Hup).
  { rewrite S_INR. destruct Hlow as [->|Hlow]; nra. }
  exists c. split; [reflexivity|]. destruct Hup as [->|Hup]; lra.
Qed.

Lemma normalize_angle_range (a : R) : - PI <= normalize_angle a <= PI.
Proof.
  unfold normalize_angle.
  destruct (normalize_fuel_enough a) as (b & -> & Hb). exact Hb.
Qed.

Lemma normalize_fuel_mono (n m : nat) (a b : R) :
  normalize_fuel n a = Some b -> (n <= m)%nat -> normalize_fuel m a = Some b.
Proof.
  unfold normalize_fuel. intros H Hm.
  destruct (wrap_down n a) as [c|] eqn:E; [|discriminate].
  rewrite (wrap_down_mono n a c m E Hm).
  eapply wrap_up_mono; eauto.
Qed.

Lemma normalize_angle_fixed (a : R) :
  - PI <= a <= PI -> normalize_angle a = a.
Proof.
  intros [Hlo Hhi]. unfold normalize_angle, normalize_fuel, angle_fuel.
  simpl.
  destruct (Rgt_dec a PI); [lra|].
  destruct (Rlt_dec a (- PI)); [lra|]. reflexivity.
Qed.

End AngleLoops.









(** ** Initialisation from the first measurement *)

Lemma UKF_new_sized (use_laser use_radar : bool) :
  sized (UKF_config use_laser use_radar).
Proof.
  constructor; try reflexivity; split; try reflexivity;
    repeat (apply Forall_cons; [reflexivity|]); apply Forall_nil.
Qed.

(** C4: on the first call, that is while [is_initialized_] is false, the
    mean is set from the measurement alone, the time stamp is stored and
    the filter is marked initialised; every other member, the covariance
    included, keeps its value, so nothing is propagated or corrected.  A
    RADAR reading (r, phi, rdot) gives the mean
    (r cos phi, r sin phi, sqrt((rdot cos phi)^2 + (rdot sin phi)^2), 0, 0),
    which is (5, 0, 0, 0, 0) for (5, 0, 0); a LASER reading (x, y) gives
    (x, y, 0, 0, 0) with a component of magnitude below 0.001 replaced by
    0.001, which makes the position (0.001, 0.001) for (0, 0). *)
Theorem ProcessMeasurement_first_call (m : MeasurementPackage) (s : UKF) :
  is_initialized_ s = false ->
  let r := vget (raw_measurements_ m) 0 in
  let phi := vget (raw_measurements_ m) 1 in
  let rdot := vget (raw_measurements_ m) 2 in
  let clamp a := if Rlt_dec (Rabs a) 0.001 then 0.001 else a in
  let mean :=
    match sensor_type_ m with
    | RADAR =>
        [r * cos phi; r * sin phi;
         sqrt ((rdot * cos phi) * (rdot * cos phi) +
               (rdot * sin phi) * (rdot * sin phi)); 0; 0]
    | LASER =>
        [clamp (vget (raw_measurements_ m) 0);
         clamp (vget (raw_measurements_ m) 1); 0; 0; 0]
    end in
  ProcessMeasurement m s =
    set_is_initialized_ true
      (set_previous_timestamp_ (timestamp_ m) (set_x_ mean s)) /\
  P_ (ProcessMeasurement m s) = P_ s /\
  (sensor_type_ m = RADAR -> raw_measurements_ m = [5; 0; 0] ->
   x_ (ProcessMeasurement m s) = [5; 0; 0; 0; 0]) /\
  (sensor_type_ m = LASER -> raw_measurements_ m = [0; 0] ->
   x_ (ProcessMeasurement m s) = [0.001; 0.001; 0; 0; 0]).
Proof.
  intros Hinit r phi rdot clamp mean.
  assert (E : ProcessMeasurement m s =
              set_is_initialized_ true
                (set_previous_timestamp_ (timestamp_ m) (set_x_ mean s))).
  { unfold ProcessMeasurement. rewrite Hinit. simpl negb. cbv iota.
    subst mean. destruct (sensor_type_ m); reflexivity. }
  split; [exact E|]. rewrite E. split; [reflexivity|]. split.
  - intros Ht Hraw. subst mean r phi rdot. rewrite Ht, Hraw. simpl.
    unfold vget; simpl.
    rewrite cos_0, sin_0.
    replace (0 * 1 * (0 * 1) + 0 * 0 * (0 * 0)) with 0 by ring.
    rewrite sqrt_0. repeat (f_equal; try ring).
  - intros Ht Hraw. subst mean clamp. rewrite Ht, Hraw. simpl.
    unfold vget; simpl.
    destruct (Rlt_dec (Rabs 0) 0.001) as [_|H]; [reflexivity|].
    exfalso. apply H. rewrite Rabs_R0. lra.
Qed.

Lemma ProcessMeasurement_first_call_witness :
  ProcessMeasurement (mkMeas 0 RADAR [5; 0; 0]) UKF_new =
    set_is_initialized_ true
      (set_previous_timestamp_ 0
         (set_x_ [5 * cos 0; 5 * sin 0;
                  sqrt ((0 * cos 0) * (0 * cos 0) +
                        (0 * sin 0) * (0 * sin 0)); 0; 0] UKF_new)).
Proof.
  exact (proj1 (ProcessMeasurement_first_call
                  (mkMeas 0 RADAR [5; 0; 0]) UKF_new eq_refl)).
Defined.

(** ** The motion model *)

(** C5: every one of the 15 augmented sigma points
    (px, py, v, yaw, yawd, nu_a, nu_yawdd) is propagated over [delta_t] to
    the column of the same index: the position follows the curved path
    when |yawd| > 0.001 and the straight line otherwise, speed and turn
    rate are kept, the heading advances by yawd * delta_t, and the noise
    terms are added on top. *)
Theorem predictSigmaPoints_motion_model (delta_t : R) (s : UKF) (i : nat) :
  sized s -> (i < 15)%nat ->
  let px := mget (Xsig_aug_ s) 0 i in
  let py := mget (Xsig_aug_ s) 1 i in
  let v := mget (Xsig_aug_ s) 2 i in
  let yaw := mget (Xsig_aug_ s) 3 i in
  let yawd := mget (Xsig_aug_ s) 4 i in
  let nu_a := mget (Xsig_aug_ s) 5 i in
  let nu_yawdd := mget (Xsig_aug_ s) 6 i in
  let dt := delta_t in
  col (Xsig_pred_ (predictSigmaPoints delta_t s)) i =
    [ (if Rgt_dec (Rabs yawd) 0.001
       then px + (v / yawd) * (sin (yaw + yawd * dt) - sin yaw)
       else px + v * dt * cos yaw)
      + 0.5 * (dt * dt) * nu_a * cos yaw;
      (if Rgt_dec (Rabs yawd) 0.001
       then py + (v / yawd) * (cos yaw - cos (yaw + yawd * dt))
       else py + v * dt * sin yaw)
      + 0.5 * (dt * dt) * nu_a * sin yaw;
      v + dt * nu_a;
      (yaw + yawd * dt) + 0.5 * (dt * dt) * nu_yawdd;
      yawd + dt * nu_yawdd ].
Proof.
  intros Hs Hi.
  destruct Hs as [Hnx Hna _ _ _ _ HXp _ _].
  destruct s; simpl in *. subst.
  mat_of_shape HXp.
  ukf_cbv.
  do 15 (destruct i as [|i];
         [cbv beta iota zeta; repeat (f_equal; try ring)|]).
  lia.
Qed.

Lemma predictSigmaPoints_motion_model_witness :
  col (Xsig_pred_ (predictSigmaPoints 1 UKF_new)) 0 =
    let z := mget (Xsig_aug_ UKF_new) 0 0%nat in
    [ (if Rgt_dec (Rabs z) 0.001
       then z + (z / z) * (sin (z + z * 1) - sin z)
       else z + z * 1 * cos z) + 0.5 * (1 * 1) * z * cos z;
      (if Rgt_dec (Rabs z) 0.001
       then z + (z / z) * (cos z - cos (z + z * 1))
       else z + z * 1 * sin z) + 0.5 * (1 * 1) * z * sin z;
      z + 1 * z; (z + z * 1) + 0.5 * (1 * 1) * z; z + 1 * z ].
Proof.
  apply (predictSigmaPoints_motion_model 1 UKF_new 0
           (UKF_new_sized true true)).
  apply Nat.lt_0_succ.
Defined.

(** ** Which members each function assigns *)

Lemma Prediction_stages (delta_t : R) (s : UKF) :
  Prediction delta_t s =
    recombine (predictSigmaPoints delta_t (generateSigmaPoints (augment s))).
Proof. reflexivity. Qed.

Lemma for_each_frame {A : Type} (f : UKF -> A) (idx : list nat)
    (body : nat -> UKF -> UKF) :
  (forall i s, f (body i s) = f s) ->
  forall s, f (for_each idx body s) = f s.
Proof.
  intros Hb. unfold for_each.
  induction idx as [|i idx IH]; intros s; [reflexivity|].
  simpl. rewrite IH. apply Hb.
Qed.

Section Frames.

Context {A : Type} (f : UKF -> A).

Lemma augment_frame (s : UKF) :
  ignores f set_x_aug_ -> ignores f set_P_aug_ -> f (augment s) = f s.
Proof.
  intros Hx HP. unfold augment. cbv zeta. rewrite !HP, !Hx. reflexivity.
Qed.

Lemma generateSigmaPoints_frame (s : UKF) :
  ignores f set_Xsig_aug_ -> f (generateSigmaPoints s) = f s.
Proof.
  intros H. unfold generateSigmaPoints. cbv zeta. rewrite for_each_frame.
  - apply H.
  - intros i t. rewrite !H. reflexivity.
Qed.

Lemma predictSigmaPoints_frame (delta_t : R) (s : UKF) :
  ignores f set_Xsig_pred_ -> f (predictSigmaPoints delta_t s) = f s.
Proof.
  intros H. unfold predictSigmaPoints. apply for_each_frame.
  intros i t. unfold predictSigmaPoints_body. cbv zeta.
  rewrite !H. reflexivity.
Qed.

Lemma recombine_frame (s : UKF) :
  ignores f set_x_ -> ignores f set_P_ -> f (recombine s) = f s.
Proof.
  intros Hx HP. unfold recombine. cbv zeta.
  rewrite for_each_frame by (intros; apply HP). rewrite HP.
  rewrite for_each_frame by (intros; apply Hx). apply Hx.
Qed.

Lemma Prediction_frame (delta_t : R) (s : UKF) :
  ignores f set_x_aug_ -> ignores f set_P_aug_ ->
  ignores f set_Xsig_aug_ -> ignores f set_Xsig_pred_ ->
  ignores f set_x_ -> ignores f set_P_ ->
  f (Prediction delta_t s) = f s.
Proof.
  intros. rewrite Prediction_stages.
  rewrite recombine_frame, predictSigmaPoints_frame,
    generateSigmaPoints_frame, augment_frame; auto.
Qed.

Lemma predictMeasurment_frame (Rn : Mat) (s : UKF) :
  ignores f set_z_pred_ -> ignores f set_S_ ->
  f (predictMeasurment Rn s) = f s.
Proof.
  intros Hz HS. unfold predictMeasurment. cbv zeta. rewrite HS.
  rewrite for_each_frame by (intros; apply HS). rewrite HS.
  rewrite for_each_frame by (intros; apply Hz). apply Hz.
Qed.

Lemma UpdateMeasurment_frame (m : MeasurementPackage) (s : UKF) :
  ignores f set_x_ -> ignores f set_P_ ->
  ignores f set_NIS_lidar -> ignores f set_NIS_radar ->
  f (UpdateMeasurment m s) = f s.
Proof.
  intros Hx HP Hl Hr. unfold UpdateMeasurment. cbv zeta.
  destruct (sensor_type_ m); rewrite ?Hl, ?Hr, HP, Hx; reflexivity.
Qed.

Lemma lidar_space_frame (s : UKF) :
  ignores f set_n_z -> ignores f set_Zsig_ ->
  ignores f set_z_pred_ -> ignores f set_S_ ->
  f (lidar_space s) = f s.
Proof.
  intros Hn HZ Hz HS. unfold lidar_space. cbv zeta.
  rewrite HS, Hz, HZ, Hn. reflexivity.
Qed.

Lemma radar_space_frame (s : UKF) :
  ignores f set_n_z -> ignores f set_Zsig_ ->
  ignores f set_z_pred_ -> ignores f set_S_ ->
  f (radar_space s) = f s.
Proof.
  intros Hn HZ Hz HS. unfold radar_space. cbv zeta.
  rewrite HS, Hz.
  rewrite for_each_frame.
  - rewrite HZ, Hn. reflexivity.
  - intros i t. unfold UpdateRadar_body. cbv zeta. rewrite !HZ. reflexivity.
Qed.

Lemma UpdateLidar_frame (m : MeasurementPackage) (s : UKF) :
  ignores f set_n_z -> ignores f set_Zsig_ ->
  ignores f set_z_pred_ -> ignores f set_S_ ->
  ignores f set_x_ -> ignores f set_P_ ->
  ignores f set_NIS_lidar -> ignores f set_NIS_radar ->
  f (UpdateLidar m s) = f s.
Proof.
  intros Hn HZ Hz HS Hx HP Hl Hr. unfold UpdateLidar. cbv zeta.
  rewrite UpdateMeasurment_frame, predictMeasurment_frame by assumption.
  apply lidar_space_frame; assumption.
Qed.

Lemma UpdateRadar_frame (m : MeasurementPackage) (s : UKF) :
  ignores f set_n_z -> ignores f set_Zsig_ ->
  ignores f set_z_pred_ -> ignores f set_S_ ->
  ignores f set_x_ -> ignores f set_P_ ->
  ignores f set_NIS_lidar -> ignores f set_NIS_radar ->
  f (UpdateRadar m s) = f s.
Proof.
  intros Hn HZ Hz HS Hx HP Hl Hr. unfold UpdateRadar. cbv zeta.
  rewrite UpdateMeasurment_frame, predictMeasurment_frame by assumption.
  apply radar_space_frame; assumption.
Qed.

Lemma ProcessMeasurement_frame (m : MeasurementPackage) (s : UKF) :
  configuration f -> f (ProcessMeasurement m s) = f s.
Proof.
  intros (Hi & Ht & Hn & HZ & Hz & HS & Hx & HP & Hxa & HPa & HXa & HXp
          & Hl & Hr).
  unfold ProcessMeasurement.
  destruct (negb (is_initialized_ s)).
  - cbv zeta. rewrite Hi, Ht. destruct (sensor_type_ m); apply Hx.
  - cbv zeta.
    destruct (sensor_type_ m);
      rewrite ?UpdateLidar_frame, ?UpdateRadar_frame by assumption;
      rewrite Prediction_frame by assumption; apply Ht.
Qed.

Lemma run_frame (ms : list MeasurementPackage) :
  configuration f -> forall s, f (run ms s) = f s.
Proof.
  intros Hc. unfold run.
  induction ms as [|m ms IH]; intros s; [reflexivity|].
  simpl. rewrite IH. apply ProcessMeasurement_frame, Hc.
Qed.

End Frames.

Ltac configuration_tac := repeat split; intros ? ?; reflexivity.

(** ** The recombination loops *)

Lemma for_each_mean (idx : list nat) :
  forall s,
  for_each idx
    (fun i s =>
       set_x_ (vadd (x_ s)
                 (vscale (vget (weights_ s) i) (col (Xsig_pred_ s) i))) s) s
  = set_x_ (weighted_mean (weights_ s) (Xsig_pred_ s) idx (x_ s)) s.
Proof.
  unfold for_each. induction idx as [|i idx IH]; intros s.
  - destruct s; reflexivity.
  - simpl. rewrite IH. reflexivity.
Qed.

Lemma for_each_cov (idx : list nat) :
  forall s,
  for_each idx
    (fun i s =>
       let x_diff := vsub (col (Xsig_pred_ s) i) (x_ s) in
       let x_diff := normalize_at 3 x_diff in
       set_P_ (madd (P_ s)
                 (outer (vscale (vget (weights_ s) i) x_diff) x_diff)) s) s
  = set_P_ (weighted_cov (weights_ s) (Xsig_pred_ s) (x_ s) 3 idx (P_ s)) s.
Proof.
  unfold for_each. induction idx as [|i idx IH]; intros s.
  - destruct s; reflexivity.
  - simpl. rewrite IH. reflexivity.
Qed.

Lemma for_each_zmean (idx : list nat) :
  forall s,
  for_each idx
    (fun i s =>
       set_z_pred_ (vadd (z_pred_ s)
                      (vscale (vget (weights_ s) i) (col (Zsig_ s) i))) s) s
  = set_z_pred_ (weighted_mean (weights_ s) (Zsig_ s) idx (z_pred_ s)) s.
Proof.
  unfold for_each. induction idx as [|i idx IH]; intros s.
  - destruct s; reflexivity.
  - simpl. rewrite IH. reflexivity.
Qed.

Lemma for_each_zcov (idx : list nat) :
  forall s,
  for_each idx
    (fun i s =>
       let z_diff := vsub (col (Zsig_ s) i) (z_pred_ s) in
       let z_diff := normalize_at 1 z_diff in
       set_S_ (madd (S_ s)
                 (outer (vscale (vget (weights_ s) i) z_diff) z_diff)) s) s
  = set_S_ (weighted_cov (weights_ s) (Zsig_ s) (z_pred_ s) 1 idx (S_ s)) s.
Proof.
  unfold for_each. induction idx as [|i idx IH]; intros s.
  - destruct s; reflexivity.
  - simpl. rewrite IH. reflexivity.
Qed.

Lemma range_sigma (s : UKF) :
  n_aug_ s = 7%Z -> range 0 (2 * n_aug_ s + 1) = sigma_indices.
Proof. intros ->. reflexivity. Qed.

(** The predicted mean and covariance as weighted sums. *)
Lemma recombine_mean (s : UKF) :
  x_ (recombine s) =
    weighted_mean (weights_ s) (Xsig_pred_ s) (range 0 (2 * n_aug_ s + 1))
      (vfill 0 (x_ s)).
Proof.
  unfold recombine. cbv zeta.
  rewrite for_each_frame by (intros; reflexivity).
  simpl. rewrite for_each_mean. reflexivity.
Qed.

Lemma recombine_cov (s : UKF) :
  P_ (recombine s) =
    weighted_cov (weights_ s) (Xsig_pred_ s) (x_ (recombine s)) 3
      (range 0 (2 * n_aug_ s + 1)) (mfill 0 (P_ s)).
Proof.
  rewrite recombine_mean.
  unfold recombine. cbv zeta.
  rewrite for_each_cov. simpl. rewrite for_each_mean. reflexivity.
Qed.

Lemma predictMeasurment_mean (Rn : Mat) (s : UKF) :
  z_pred_ (predictMeasurment Rn s) =
    weighted_mean (weights_ s) (Zsig_ s) (range 0 (2 * n_aug_ s + 1))
      (vfill 0 (z_pred_ s)).
Proof.
  unfold predictMeasurment. cbv zeta. simpl.
  rewrite for_each_frame by (intros; reflexivity).
  simpl. rewrite for_each_zmean. reflexivity.
Qed.

Lemma predictMeasurment_cov (Rn : Mat) (s : UKF) :
  S_ (predictMeasurment Rn s) =
    madd (weighted_cov (weights_ s) (Zsig_ s)
            (z_pred_ (predictMeasurment Rn s)) 1
            (range 0 (2 * n_aug_ s + 1)) (mfill 0 (S_ s))) Rn.
Proof.
  rewrite predictMeasurment_mean.
  unfold predictMeasurment. cbv zeta. simpl.
  rewrite for_each_zcov. simpl. rewrite for_each_zmean. reflexivity.
Qed.

Lemma cross_correlation_sum (s : UKF) :
  cross_correlation s =
    weighted_cross (weights_ s) (Xsig_pred_ s) (x_ s) (Zsig_ s) (z_pred_ s)
      (range 0 (2 * n_aug_ s + 1))
      (mfill 0 (mzero (Z.to_nat (n_x_ s)) (Z.to_nat (n_z s)))).
Proof. reflexivity. Qed.

(** ** Sigma points *)

Lemma lower_col_above (c : nat) (v : Vec) (r : nat) :
  (r < c)%nat -> vget (LLT.lower_col c v) r = 0.
Proof.
  intros Hr. unfold LLT.lower_col, vget, vzero.
  destruct (Nat.lt_ge_cases r (Nat.min c (length v))) as [H|H].
  - rewrite app_nth1 by (rewrite repeat_length; exact H).
    apply nth_repeat.
  - apply nth_overflow.
    rewrite length_app, repeat_length, length_skipn. lia.
Qed.

Lemma lower_from_above (M : Mat) :
  forall c0 r c, (r < c0 + c)%nat -> mget (LLT.lower_from c0 M) r c = 0.
Proof.
  induction M as [|v M IH]; intros c0 r c Hr.
  - unfold mget, col, vget. simpl. destruct c; destruct r; reflexivity.
  - destruct c as [|c].
    + unfold mget, col. simpl. apply lower_col_above. lia.
    + change (mget (LLT.lower_from c0 (v :: M)) r (S c))
        with (mget (LLT.lower_from (S c0) M) r c).
      apply IH. lia.
Qed.

(** What [matrixL()] returns is lower triangular. *)
Lemma matrixL_lower (M : Mat) (r c : nat) :
  (r < c)%nat -> mget (LLT.matrixL M) r c = 0.
Proof. intros H. apply lower_from_above. exact H. Qed.

(** The 15 columns [generateSigmaPoints] writes. *)
Lemma generateSigmaPoints_columns (s : UKF) :
  n_aug_ s = 7%Z -> length (Xsig_aug_ s) = 15%nat ->
  let L := LLT.matrixL (P_aug_ s) in
  let c := sqrt (lambda_ s + 7) in
  Xsig_aug_ (generateSigmaPoints s) =
    x_aug_ s ::
    map (fun i => vadd (x_aug_ s) (vscale c (col L i))) (seq 0 7) ++
    map (fun i => vsub (x_aug_ s) (vscale c (col L i))) (seq 0 7).
Proof.
  intros Hn Hl. destruct s; simpl in *. subst. list_of_length Hl.
  unfold generateSigmaPoints.
  cbv beta iota zeta delta
   [for_each range fold_left seq set_Xsig_aug_ Xsig_aug_ n_aug_ x_aug_
    P_aug_ lambda_ Z.to_nat Z.mul Z.add Pos.mul Pos.add Pos.succ
    Pos.to_nat Pos.iter_op Nat.add Nat.sub set_col map app].
  reflexivity.
Qed.

(** The augmented mean and covariance [Prediction] builds. *)
Lemma augment_mean (s : UKF) :
  length (x_ s) = 5%nat -> length (x_aug_ s) = 7%nat ->
  x_aug_ (augment s) = x_ s ++ [0; 0].
Proof.
  intros Hx Hxa. destruct s; simpl in *.
  list_of_length Hx. list_of_length Hxa. reflexivity.
Qed.

Lemma augment_cov (s : UKF) :
  n_x_ s = 5%Z -> shaped 5 5 (P_ s) -> shaped 7 7 (P_aug_ s) ->
  P_aug_ (augment s) =
    map (fun c => map (fun r => augmented_entry s r c) (seq 0 7)) (seq 0 7).
Proof.
  intros Hn HP HPa. destruct s; simpl in *. subst.
  mat_of_shape HP. mat_of_shape HPa. reflexivity.
Qed.

Lemma Prediction_aug (delta_t : R) (s : UKF) :
  x_aug_ (Prediction delta_t s) = x_aug_ (augment s) /\
  P_aug_ (Prediction delta_t s) = P_aug_ (augment s) /\
  Xsig_aug_ (Prediction delta_t s) =
    Xsig_aug_ (generateSigmaPoints (augment s)).
Proof.
  rewrite Prediction_stages. repeat split.
  - rewrite recombine_frame, predictSigmaPoints_frame,
      generateSigmaPoints_frame; auto; intros ? ?; reflexivity.
  - rewrite recombine_frame, predictSigmaPoints_frame,
      generateSigmaPoints_frame; auto; intros ? ?; reflexivity.
  - rewrite recombine_frame, predictSigmaPoints_frame;
      auto; intros ? ?; reflexivity.
Qed.

(** ** The factor of a factorisation that runs to its end *)

(** One step of a factorisation that succeeds: the pivot is positive and
    the new diagonal coefficient [x] is its square root. *)
Lemma llt_round (k : nat) (ks : list nat) (A : Mat) :
  LLT.complete (k :: ks) A = true ->
  exists x, 0 < x /\ x * x = LLT.pivot A k /\
    let A' :=
      set_col A k
        (firstn k (col A k) ++
         x :: map (LLT.below A k x) (seq (S k) (rows A - S k))) in
    LLT.loop (k :: ks) A = LLT.loop ks A' /\ LLT.complete ks A' = true.
Proof.
  cbn [LLT.complete LLT.loop]. unfold LLT.step. cbv zeta.
  destruct (Rle_dec (LLT.pivot A k) 0) as [H|H]; [discriminate|].
  intros Hok. exists (sqrt (LLT.pivot A k)).
  split; [apply sqrt_lt_R0; lra|].
  split; [apply sqrt_sqrt; lra|].
  split; [reflexivity | exact Hok].
Qed.

Lemma llt_below (A : Mat) (k : nat) (x : R) (i : nat) :
  0 < x ->
  LLT.below A k x i * x =
    mget A i k - dot (firstn k (row A i)) (firstn k (row A k)).
Proof. intros Hx. unfold LLT.below. field. lra. Qed.

Ltac entry_cbv_in H :=
  cbv beta iota zeta delta
    [LLT.pivot mget vget col row dot firstn nth map] in H.

(** Names the coefficients a step writes below the diagonal, each with
    the equation that defines it. *)
Ltac name_below Hx :=
  repeat match goal with
  | |- context [LLT.below ?A ?k ?x ?i] =>
      let l := fresh "l" in
      let Hl := fresh "Hl" in
      pose proof (llt_below A k x i Hx) as Hl;
      set (l := LLT.below A k x i) in *;
      clearbody l;
      entry_cbv_in Hl
  end.

Ltac solve_for_entry H :=
  match type of H with
  | ?lhs = ?a - ?D =>
      let E := fresh "E" in
      assert (E : a = lhs + D) by (rewrite H; ring);
      clear H; subst a
  end.

Ltac llt_next H :=
  let x := fresh "x" in
  let Hx := fresh "Hx" in
  let Hxx := fresh "Hxx" in
  let Hl := fresh "Hloop" in
  let H' := fresh "Hok" in
  destruct (llt_round _ _ _ H) as (x & Hx & Hxx & Hl & H');
  rewrite Hl; clear Hl H;
  cbv beta iota zeta delta
    [set_col firstn col nth app map seq rows hd length Nat.sub] in H' |- *;
  entry_cbv_in Hxx;
  name_below Hx.

(** A factorisation of a symmetric 7x7 matrix that runs to its end returns
    its Cholesky factor: [L * L^T] is the matrix, and the diagonal of [L]
    is positive. *)
Lemma matrixL_factor (M : Mat) :
  shaped 7 7 M -> symmetric M -> LLT.success M = true ->
  mmul (LLT.matrixL M) (transpose (LLT.matrixL M)) = M /\
  forall i, (i < 7)%nat -> 0 < mget (LLT.matrixL M) i i.
Proof.
  intros HM HS Hok. mat_of_shape HM.
  unfold symmetric in HS.
  cbv beta iota zeta delta
    [transpose rows row col vget nth map seq hd length] in HS.
  injection HS; intros; subst. clear HS.
  repeat match goal with H : ?a = ?a |- _ => clear H end.
  unfold LLT.matrixL, LLT.success in *.
  cbv beta iota zeta delta [rows hd length seq] in Hok |- *.
  llt_next Hok. llt_next Hok0. llt_next Hok. llt_next Hok0.
  llt_next Hok. llt_next Hok0. llt_next Hok.
  clear Hok0.
  repeat match goal with
  | H : _ = _ - _ |- _ => solve_for_entry H
  end.
  cbv beta iota zeta delta
    [LLT.loop LLT.lower LLT.lower_from LLT.lower_col
     mmul mvmul transpose rows row col dot mget vget vzero
     map seq hd length repeat nth app skipn Nat.min].
  split; [list_split; ring|].
  intros i Hi.
  do 7 (destruct i as [|i]; [assumption|]). lia.
Qed.

Lemma augment_symmetric (s : UKF) :
  sized s -> symmetric (P_ s) -> symmetric (P_aug_ (augment s)).
Proof.
  intros Hs HS. pose proof (sized_P s Hs) as HP.
  rewrite augment_cov by apply Hs.
  unfold augmented_entry.
  generalize dependent (P_ s). intros P HS HP.
  mat_of_shape HP. unfold symmetric in *.
  cbv beta iota zeta delta
    [transpose rows row col mget vget nth map seq hd length] in HS.
  injection HS; intros; subst.
  cbv beta iota zeta delta
    [transpose rows row col mget vget nth map seq hd length
     Nat.ltb Nat.leb Nat.eqb andb].
  reflexivity.
Qed.

(** *** A covariance that is not diagonal *)

Section LLTBlock.

Variables a u b c d2 d3 d4 d5 d6 : R.

Ltac block_step p :=
  unfold block7; llt_cbv;
  match goal with
  | |- context [Rle_dec ?x 0] =>
      replace x with p by ring;
      destruct (Rle_dec p 0) as [Hle|_]; [exfalso; lra|]
  end;
  apply f_equal; list_split; unfold Rdiv; ring.

Lemma block_step0 :
  0 < a ->
  LLT.step (block7 a u b c d2 d3 d4 d5 d6) 0 =
    Some (block7 (sqrt a) u (b / sqrt a) c d2 d3 d4 d5 d6).
Proof. intros H. block_step a. Qed.

Lemma block_step1 :
  0 < c - b * b ->
  LLT.step (block7 a u b c d2 d3 d4 d5 d6) 1 =
    Some (block7 a u b (sqrt (c - b * b)) d2 d3 d4 d5 d6).
Proof. intros H. block_step (c - b * b). Qed.

Lemma block_step2 :
  0 < d2 ->
  LLT.step (block7 a u b c d2 d3 d4 d5 d6) 2 =
    Some (block7 a u b c (sqrt d2) d3 d4 d5 d6).
Proof. intros H. block_step d2. Qed.

Lemma block_step3 :
  0 < d3 ->
  LLT.step (block7 a u b c d2 d3 d4 d5 d6) 3 =
    Some (block7 a u b c d2 (sqrt d3) d4 d5 d6).
Proof. intros H. block_step d3. Qed.

Lemma block_step4 :
  0 < d4 ->
  LLT.step (block7 a u b c d2 d3 d4 d5 d6) 4 =
    Some (block7 a u b c d2 d3 (sqrt d4) d5 d6).
Proof. intros H. block_step d4. Qed.

Lemma block_step5 :
  0 < d5 ->
  LLT.step (block7 a u b c d2 d3 d4 d5 d6) 5 =
    Some (block7 a u b c d2 d3 d4 (sqrt d5) d6).
Proof. intros H. block_step d5. Qed.

Lemma block_step6 :
  0 < d6 ->
  LLT.step (block7 a u b c d2 d3 d4 d5 d6) 6 =
    Some (block7 a u b c d2 d3 d4 d5 (sqrt d6)).
Proof. intros H. block_step d6. Qed.

End LLTBlock.

(** The factorisation of such a matrix succeeds when [a], the pivot
    [c - (b / sqrt a)^2] and the rest of the diagonal are positive, and
    this is its factor. *)
Lemma matrixL_block7 (a u b c d2 d3 d4 d5 d6 : R) :
  0 < a -> 0 < c - b / sqrt a * (b / sqrt a) ->
  0 < d2 -> 0 < d3 -> 0 < d4 -> 0 < d5 -> 0 < d6 ->
  LLT.success (block7 a u b c d2 d3 d4 d5 d6) = true /\
  LLT.matrixL (block7 a u b c d2 d3 d4 d5 d6) =
    block7 (sqrt a) 0 (b / sqrt a) (sqrt (c - b / sqrt a * (b / sqrt a)))
      (sqrt d2) (sqrt d3) (sqrt d4) (sqrt d5) (sqrt d6).
Proof.
  intros Ha Hc H2 H3 H4 H5 H6.
  unfold LLT.success, LLT.matrixL.
  change (rows (block7 a u b c d2 d3 d4 d5 d6)) with 7%nat.
  change (seq 0 7) with [0; 1; 2; 3; 4; 5; 6]%nat.
  unfold LLT.complete, LLT.loop.
  rewrite block_step0 by exact Ha.
  rewrite block_step1 by exact Hc.
  rewrite block_step2 by exact H2.
  rewrite block_step3 by exact H3.
  rewrite block_step4 by exact H4.
  rewrite block_step5 by exact H5.
  rewrite block_step6 by exact H6.
  unfold block7, LLT.lower.
  cbv beta iota zeta delta
    [LLT.lower_from LLT.lower_col vzero repeat Nat.min length skipn app].
  split; reflexivity.
Qed.

Lemma correlated_sized : sized correlated.
Proof.
  constructor; try reflexivity; split; try reflexivity;
    repeat (apply Forall_cons; [reflexivity|]); apply Forall_nil.
Qed.

Lemma correlated_symmetric : symmetric (P_ correlated).
Proof. reflexivity. Qed.

Lemma correlated_aug (delta_t : R) :
  P_aug_ (Prediction delta_t correlated) =
    block7 4 2 2 5 1 1 1 (6 * 6) (PI / 6 * (PI / 6)).
Proof.
  destruct (Prediction_aug delta_t correlated) as (_ & -> & _).
  rewrite augment_cov; try reflexivity; split; try reflexivity;
    repeat (apply Forall_cons; [reflexivity|]); apply Forall_nil.
Qed.

Lemma sqrt_4 : sqrt 4 = 2.
Proof. replace 4 with (2 * 2) by ring. apply sqrt_square. lra. Qed.

(** The factorisation of the augmented covariance of [correlated] runs to
    its end, and its result is not diagonal. *)
Lemma correlated_factored (delta_t : R) :
  LLT.success (P_aug_ (Prediction delta_t correlated)) = true /\
  LLT.matrixL (P_aug_ (Prediction delta_t correlated)) = correlated_factor.
Proof.
  pose proof PI_RGT_0 as Hpi.
  rewrite correlated_aug.
  destruct (matrixL_block7 4 2 2 5 1 1 1 (6 * 6) (PI / 6 * (PI / 6)))
    as [Hs HL]; try lra; try nra.
  { rewrite sqrt_4. lra. }
  split; [exact Hs|].
  rewrite HL, sqrt_4, sqrt_1, !sqrt_square by lra.
  unfold block7, correlated_factor.
  replace (5 - 2 / 2 * (2 / 2)) with 4 by field.
  rewrite sqrt_4. list_split; field.
Qed.

(** C6 (as amended): on every propagation step the augmented mean is the
    belief mean followed by two zeros, the 7x7 augmented covariance has
    the belief covariance in its top left block, the two process noise
    variances on the rest of the diagonal and zeros elsewhere, and exactly
    15 sigma points are produced from the lower triangular matrix [L] that
    [llt().matrixL()] returns for it: point 0 is the augmented mean, point
    [i] for [1 <= i <= 7] is mean + sqrt(lambda + 7) * column [i - 1] of
    [L], and point [i] for [8 <= i <= 14] is mean - sqrt(lambda + 7) *
    column [i - 8] of [L].  [L] is the Cholesky factor of the augmented
    covariance, that is [L * L^T] is that matrix and the diagonal of [L]
    is positive, when the belief covariance is symmetric and the
    factorisation runs to its end; the code does not check that it
    does. *)
Theorem Prediction_sigma_points (delta_t : R) (s : UKF) :
  sized s ->
  let s' := Prediction delta_t s in
  let x_aug := x_ s ++ [0; 0] in
  let L := LLT.matrixL (P_aug_ s') in
  let c := sqrt (lambda_ s + 7) in
  x_aug_ s' = x_aug /\
  P_aug_ s' =
    map (fun c => map (fun r => augmented_entry s r c) (seq 0 7)) (seq 0 7) /\
  (forall r c, (r < c)%nat -> mget L r c = 0) /\
  (symmetric (P_ s) -> LLT.success (P_aug_ s') = true ->
   mmul L (transpose L) = P_aug_ s' /\
   forall i, (i < 7)%nat -> 0 < mget L i i) /\
  length (Xsig_aug_ s') = 15%nat /\
  col (Xsig_aug_ s') 0 = x_aug /\
  (forall i, (1 <= i <= 7)%nat ->
     col (Xsig_aug_ s') i = vadd x_aug (vscale c (col L (i - 1)))) /\
  (forall i, (8 <= i <= 14)%nat ->
     col (Xsig_aug_ s') i = vsub x_aug (vscale c (col L (i - 8)))).
Proof.
  intros Hs.
  assert (Hsym : symmetric (P_ s) -> symmetric (P_aug_ (augment s)))
    by (apply augment_symmetric; exact Hs).
  destruct Hs as [Hnx Hna Hx HP Hxa HPa HXp HXa Hw].
  assert (Hsh : shaped 7 7 (P_aug_ (augment s))).
  { rewrite augment_cov by assumption. split; [reflexivity|].
    apply Forall_map, Forall_forall. intros j _. reflexivity. }
  cbv zeta.
  destruct (Prediction_aug delta_t s) as (-> & -> & ->).
  rewrite generateSigmaPoints_columns.
  2:{ rewrite augment_frame; auto; intros ? ?; reflexivity. }
  2:{ rewrite augment_frame; [apply HXa| |]; intros ? ?; reflexivity. }
  cbv zeta.
  rewrite (augment_frame lambda_) by (intros ? ?; reflexivity).
  rewrite augment_mean by assumption.
  split; [reflexivity|].
  split; [apply augment_cov; assumption|].
  split; [intros r c Hrc; apply matrixL_lower; exact Hrc|].
  split; [intros HS Hok; apply matrixL_factor; auto|].
  split; [reflexivity|].
  split; [reflexivity|].
  split; intros i Hi.
  - destruct i as [|i]; [lia|].
    do 7 (destruct i as [|i]; [reflexivity|]). lia.
  - do 8 (destruct i as [|i]; [lia|]).
    do 7 (destruct i as [|i]; [reflexivity|]). lia.
Qed.

Lemma Prediction_sigma_points_witness :
  let s' := Prediction 1 correlated in
  let L := LLT.matrixL (P_aug_ s') in
  x_aug_ s' = x_ correlated ++ [0; 0] /\
  length (Xsig_aug_ s') = 15%nat /\
  mmul L (transpose L) = P_aug_ s' /\
  L = correlated_factor.
Proof.
  cbv zeta.
  pose proof (Prediction_sigma_points 1 correlated correlated_sized) as H.
  cbv zeta in H. destruct H as (H1 & _ & _ & H4 & H5 & _).
  destruct (correlated_factored 1) as [Hok HL].
  split; [exact H1|]. split; [exact H5|].
  split; [apply (H4 correlated_symmetric Hok) | exact HL].
Defined.


(** ** The stages of a measurement update *)

Lemma predictSigmaPoints_columns (delta_t : R) (s : UKF) :
  n_aug_ s = 7%Z -> shaped 5 15 (Xsig_pred_ s) ->
  Xsig_pred_ (predictSigmaPoints delta_t s) =
    map (fun i => motion delta_t (col (Xsig_aug_ s) i)) (seq 0 15).
Proof.
  intros Hn HXp. destruct s; simpl in *. subst. mat_of_shape HXp.
  ukf_cbv. reflexivity.
Qed.

Lemma UpdateLidar_stages (m : MeasurementPackage) (s : UKF) :
  UpdateLidar m s =
    UpdateMeasurment m
      (predictMeasurment (R_lidar_ (lidar_space s)) (lidar_space s)).
Proof. reflexivity. Qed.

Lemma UpdateRadar_stages (m : MeasurementPackage) (s : UKF) :
  UpdateRadar m s =
    UpdateMeasurment m
      (predictMeasurment (R_radar_ (radar_space s)) (radar_space s)).
Proof. reflexivity. Qed.

Lemma UpdateMeasurment_mean (m : MeasurementPackage) (s : UKF) :
  x_ (UpdateMeasurment m s) =
    vadd (x_ s) (mvmul (kalman_gain s) (residual m s)).
Proof.
  unfold UpdateMeasurment. cbv zeta. destruct (sensor_type_ m); reflexivity.
Qed.

Lemma UpdateMeasurment_cov (m : MeasurementPackage) (s : UKF) :
  P_ (UpdateMeasurment m s) =
    msub (P_ s)
      (mmul (mmul (kalman_gain s) (S_ s)) (transpose (kalman_gain s))).
Proof.
  unfold UpdateMeasurment. cbv zeta. destruct (sensor_type_ m); reflexivity.
Qed.

Lemma ProcessMeasurement_uninitialized (m : MeasurementPackage) (s : UKF) :
  is_initialized_ s = false ->
  ProcessMeasurement m s =
    set_is_initialized_ true
      (set_previous_timestamp_ (timestamp_ m)
         (match sensor_type_ m with
          | RADAR =>
              let rho := vget (raw_measurements_ m) 0 in
              let phi := vget (raw_measurements_ m) 1 in
              let rhodot := vget (raw_measurements_ m) 2 in
              set_x_ [rho * cos phi; rho * sin phi;
                      sqrt (rhodot * cos phi * (rhodot * cos phi) +
                            rhodot * sin phi * (rhodot * sin phi)); 0; 0] s
          | LASER =>
              let px := vget (raw_measurements_ m) 0 in
              let py := vget (raw_measurements_ m) 1 in
              set_x_ [if Rlt_dec (Rabs px) 0.001 then 0.001 else px;
                      if Rlt_dec (Rabs py) 0.001 then 0.001 else py;
                      0; 0; 0] s
          end)).
Proof.
  intros H. unfold ProcessMeasurement. rewrite H.
  destruct (sensor_type_ m); reflexivity.
Qed.

Lemma ProcessMeasurement_initialized (m : MeasurementPackage) (s : UKF) :
  is_initialized_ s = true ->
  ProcessMeasurement m s =
    let delta_t :=
      IZR (timestamp_ m - previous_timestamp_ s) / 1000000.0 in
    let s := Prediction delta_t (set_previous_timestamp_ (timestamp_ m) s) in
    match sensor_type_ m with
    | RADAR => UpdateRadar m s
    | LASER => UpdateLidar m s
    end.
Proof.
  intros H. unfold ProcessMeasurement. rewrite H. reflexivity.
Qed.

Lemma normalize_angle_0 : normalize_angle 0 = 0.
Proof. apply normalize_angle_fixed. pose proof PI_pos. lra. Qed.

Lemma PI_gt_3 : 3 < PI.
Proof. pose proof PI2_3_2. lra. Qed.

(** One turn of the first loop. *)
Lemma normalize_angle_down (a : R) :
  PI < a -> - PI <= a - 2 * PI <= PI -> normalize_angle a = a - 2 * PI.
Proof.
  intros Ha [Hlo Hhi].
  assert (E : normalize_fuel 2 a = Some (a - 2 * PI)).
  { unfold normalize_fuel. simpl.
    destruct (Rgt_dec a PI) as [_|H]; [|exfalso; apply H; exact Ha].
    destruct (Rgt_dec (a - 2 * PI) PI) as [H|_]; [exfalso; lra|].
    destruct (Rlt_dec (a - 2 * PI) (- PI)) as [H|_]; [exfalso; lra|].
    reflexivity. }
  unfold normalize_angle.
  rewrite (normalize_fuel_mono 2 (angle_fuel a) a _ E); [reflexivity|].
  unfold angle_fuel. lia.
Qed.

(** ** Cholesky factor of a diagonal matrix *)

Section LLTDiagonal.

Variables d0 d1 d2 d3 d4 d5 d6 : R.
Hypothesis H0 : 0 < d0.
Hypothesis H1 : 0 < d1.
Hypothesis H2 : 0 < d2.
Hypothesis H3 : 0 < d3.
Hypothesis H4 : 0 < d4.
Hypothesis H5 : 0 < d5.
Hypothesis H6 : 0 < d6.

Ltac step_tac d :=
  unfold diag7; llt_cbv;
  match goal with
  | |- context [Rle_dec ?x 0] =>
      replace x with d by ring;
      destruct (Rle_dec d 0) as [Hle|_]; [exfalso; lra|]
  end;
  apply f_equal; list_split; unfold Rdiv; ring.

Lemma llt_step0 :
  LLT.step (diag7 d0 d1 d2 d3 d4 d5 d6) 0 =
    Some (diag7 (sqrt d0) d1 d2 d3 d4 d5 d6).
Proof. step_tac d0. Qed.

Lemma llt_step1 :
  LLT.step (diag7 (sqrt d0) d1 d2 d3 d4 d5 d6) 1 =
    Some (diag7 (sqrt d0) (sqrt d1) d2 d3 d4 d5 d6).
Proof. step_tac d1. Qed.

Lemma llt_step2 :
  LLT.step (diag7 (sqrt d0) (sqrt d1) d2 d3 d4 d5 d6) 2 =
    Some (diag7 (sqrt d0) (sqrt d1) (sqrt d2) d3 d4 d5 d6).
Proof. step_tac d2. Qed.

Lemma llt_step3 :
  LLT.step (diag7 (sqrt d0) (sqrt d1) (sqrt d2) d3 d4 d5 d6) 3 =
    Some (diag7 (sqrt d0) (sqrt d1) (sqrt d2) (sqrt d3) d4 d5 d6).
Proof. step_tac d3. Qed.

Lemma llt_step4 :
  LLT.step (diag7 (sqrt d0) (sqrt d1) (sqrt d2) (sqrt d3) d4 d5 d6) 4 =
    Some (diag7 (sqrt d0) (sqrt d1) (sqrt d2) (sqrt d3) (sqrt d4) d5 d6).
Proof. step_tac d4. Qed.

Lemma llt_step5 :
  LLT.step (diag7 (sqrt d0) (sqrt d1) (sqrt d2) (sqrt d3) (sqrt d4) d5 d6) 5 =
    Some (diag7 (sqrt d0) (sqrt d1) (sqrt d2) (sqrt d3) (sqrt d4) (sqrt d5) d6).
Proof. step_tac d5. Qed.

Lemma llt_step6 :
  LLT.step
    (diag7 (sqrt d0) (sqrt d1) (sqrt d2) (sqrt d3) (sqrt d4) (sqrt d5) d6) 6 =
    Some (diag7 (sqrt d0) (sqrt d1) (sqrt d2) (sqrt d3) (sqrt d4) (sqrt d5)
            (sqrt d6)).
Proof. step_tac d6. Qed.

(** A positive diagonal matrix is factored into the square roots of its
    diagonal. *)
Lemma matrixL_diag7 :
  LLT.matrixL (diag7 d0 d1 d2 d3 d4 d5 d6) =
    diag7 (sqrt d0) (sqrt d1) (sqrt d2) (sqrt d3) (sqrt d4) (sqrt d5)
      (sqrt d6).
Proof.
  unfold LLT.matrixL.
  change (rows (diag7 d0 d1 d2 d3 d4 d5 d6)) with 7%nat.
  change (seq 0 7) with [0; 1; 2; 3; 4; 5; 6]%nat.
  unfold LLT.loop.
  rewrite llt_step0, llt_step1, llt_step2, llt_step3, llt_step4, llt_step5,
    llt_step6.
  reflexivity.
Qed.

End LLTDiagonal.

(** With a zero in the first place the factorisation stops at once, and
    [matrixL()] is the lower part of the matrix itself. *)
Lemma llt_step_stop (d1 d2 d3 d4 d5 d6 : R) :
  LLT.step (diag7 0 d1 d2 d3 d4 d5 d6) 0 = None.
Proof.
  unfold diag7. llt_cbv.
  destruct (Rle_dec (0 - 0) 0) as [_|H]; [reflexivity|]. exfalso; lra.
Qed.

Lemma matrixL_stop (d1 d2 d3 d4 d5 d6 : R) :
  LLT.matrixL (diag7 0 d1 d2 d3 d4 d5 d6) = diag7 0 d1 d2 d3 d4 d5 d6.
Proof.
  unfold LLT.matrixL.
  change (rows (diag7 0 d1 d2 d3 d4 d5 d6)) with 7%nat.
  change (seq 0 7) with [0; 1; 2; 3; 4; 5; 6]%nat.
  unfold LLT.loop. rewrite llt_step_stop. reflexivity.
Qed.

(** ** A belief at rest with a diagonal factor *)

Section DiagonalComputations.

Variables (px py c dt l0 l1 l2 l3 l4 l5 l6 : R).

Let Xa := diag_aug px py c l0 l1 l2 l3 l4 l5 l6.
Let Xp := diag_pred px py c dt l0 l1 l2 l3 l4 l5 l6.
Let Zs := diag_Z px py c dt l0 l1 l2 l3 l4 l5 l6.

Ltac clean_residuals :=
  try replace (px - px) with 0 by ring;
  try replace (py - py) with 0 by ring;
  try replace (py + c * l1 - py) with (c * l1) by ring;
  try replace (py - c * l1 - py) with (- (c * l1)) by ring;
  rewrite ?Rminus_0_r;
  rewrite ?normalize_angle_0.

Lemma diag_points :
  [px; py; 0; 0; 0; 0; 0] ::
  map (fun i => vadd [px; py; 0; 0; 0; 0; 0]
                  (vscale c (col (diag7 l0 l1 l2 l3 l4 l5 l6) i))) (seq 0 7) ++
  map (fun i => vsub [px; py; 0; 0; 0; 0; 0]
                  (vscale c (col (diag7 l0 l1 l2 l3 l4 l5 l6) i))) (seq 0 7)
  = Xa.
Proof.
  unfold Xa, diag_aug, diag7. eigen_cbv. list_split; ring.
Qed.

Lemma if_abs0 {A : Type} (a b : A) :
  (if Rgt_dec (Rabs 0) 0.001 then a else b) = b.
Proof.
  destruct (Rgt_dec (Rabs 0) 0.001) as [H|H]; [|reflexivity].
  rewrite Rabs_R0 in H. lra.
Qed.

Lemma diag_motion :
  map (fun i => motion dt (col Xa i)) (seq 0 15) = Xp.
Proof.
  unfold Xa, Xp, diag_aug, diag_pred.
  cbv beta iota zeta delta [map seq col nth motion vget].
  rewrite !if_abs0.
  rewrite ?Rmult_0_l, ?Rplus_0_r, ?Rplus_0_l, ?sin_0, ?cos_0.
  list_split; repeat destruct (Rgt_dec _ _); unfold Rdiv; ring.
Qed.

Lemma diag_mean_x :
  weighted_mean sigma_weights Xp sigma_indices (vfill 0 [px; py; 0; 0; 0]) =
    [px; py; 0; 0; 0].
Proof.
  unfold Xp, diag_pred, sigma_weights, weighted_mean, sigma_indices.
  eigen_cbv. halves. list_split; field.
Qed.

Lemma diag_mean_z :
  weighted_mean sigma_weights Zs sigma_indices (vfill 0 (vzero 2)) = [px; py].
Proof.
  unfold Zs, diag_Z, diag_pred, sigma_weights, weighted_mean, sigma_indices.
  eigen_cbv. halves. list_split; field.
Qed.

Lemma diag_cov_z (r0 r1 : R) :
  madd (weighted_cov sigma_weights Zs [px; py] 1 sigma_indices
          (mfill 0 (mzero 2 2))) [[r0; 0]; [0; r1]] =
  [[diag_S00 c dt l0 l2 l5 r0; 0]; [0; diag_S11 c l1 r1]].
Proof.
  unfold Zs, diag_Z, diag_pred, sigma_weights, weighted_cov, sigma_indices.
  eigen_cbv. clean_residuals. unfold diag_S00, diag_S11.
  halves. list_split; field.
Qed.

Lemma diag_gain (s00 s11 d0 d1 : R) :
  s00 <> 0 -> s11 <> 0 ->
  vadd [px; py; 0; 0; 0]
    (mvmul
       (mmul
          (weighted_cross sigma_weights Xp [px; py; 0; 0; 0]
             Zs [px; py] sigma_indices (mfill 0 (mzero 5 2)))
          (Inverse.inverse [[s00; 0]; [0; s11]]))
       [d0; d1]) =
  [px + diag_T00 c dt l0 l2 l5 / s00 * d0;
   py + diag_T11 c l1 / s11 * d1;
   diag_T20 c dt l2 l5 / s00 * d0;
   0; 0].
Proof.
  intros H0 H1.
  unfold Xp, Zs, diag_Z, diag_pred, sigma_weights, weighted_cross,
    sigma_indices.
  inverse_cbv. clean_residuals. unfold diag_T00, diag_T11, diag_T20.
  halves. list_split; field; auto.
Qed.

End DiagonalComputations.

Lemma diag_S00_pos (c dt l0 l2 l5 r0 : R) :
  0 < r0 -> 0 < diag_S00 c dt l0 l2 l5 r0.
Proof.
  intros Hr. unfold diag_S00.
  assert (0 <= c * c) by nra.
  assert (0 <= l0 * l0) by nra.
  assert (0 <= l2 * l2 * (dt * dt)) by (apply Rmult_le_pos; nra).
  assert (0 <= 0.25 * (l5 * l5) * (dt * dt * dt * dt)).
  { replace (dt * dt * dt * dt) with ((dt * dt) * (dt * dt)) by ring.
    apply Rmult_le_pos; [|nra]. apply Rmult_le_pos; [lra|nra]. }
  assert (0 <= c * c / 5 * (l0 * l0 + l2 * l2 * (dt * dt) +
                            0.25 * (l5 * l5) * (dt * dt * dt * dt))).
  { apply Rmult_le_pos; lra. }
  lra.
Qed.

Lemma diag_S11_pos (c l1 r1 : R) : 0 < r1 -> 0 < diag_S11 c l1 r1.
Proof.
  intros Hr. unfold diag_S11.
  set (a := normalize_angle (c * l1)).
  set (b := normalize_angle (- (c * l1))).
  nra.
Qed.

Lemma lidar_space_Zsig (s : UKF) :
  Zsig_ (lidar_space s) =
    block00 2 (Z.to_nat (2 * n_aug_ s + 1)) (Xsig_pred_ s).
Proof. reflexivity. Qed.

Lemma lidar_space_n_z (s : UKF) : n_z (lidar_space s) = 2%Z.
Proof. reflexivity. Qed.

(** The second LASER reading on a belief [(px, py, 0, 0, 0)] whose
    augmented covariance has the diagonal factor [diag7 l0 .. l6]. *)
Section DiagonalBelief.

Variables (px py c dt l0 l1 l2 l3 l4 l5 l6 r0 r1 : R).
Variable s : UKF.
Variable m : MeasurementPackage.

Hypothesis Hs : sized s.
Hypothesis Hx : x_ s = [px; py; 0; 0; 0].
Hypothesis Hw : weights_ s = sigma_weights.
Hypothesis Hc : sqrt (lambda_ s + 7) = c.
Hypothesis HL :
  LLT.matrixL (P_aug_ (augment s)) = diag7 l0 l1 l2 l3 l4 l5 l6.
Hypothesis HR : R_lidar_ s = [[r0; 0]; [0; r1]].
Hypothesis Hr0 : 0 < r0.
Hypothesis Hr1 : 0 < r1.

Let Xp := diag_pred px py c dt l0 l1 l2 l3 l4 l5 l6.
Let Zs := diag_Z px py c dt l0 l1 l2 l3 l4 l5 l6.
Let u := Prediction dt s.
Let v := predictMeasurment (R_lidar_ (lidar_space u)) (lidar_space u).

Lemma rest_Xsig_aug :
  Xsig_aug_ (generateSigmaPoints (augment s)) =
    diag_aug px py c l0 l1 l2 l3 l4 l5 l6.
Proof.
  destruct Hs as [Hnx Hna Hlx HP Hxa HPa HXp HXa Hlw].
  rewrite generateSigmaPoints_columns.
  2:{ rewrite augment_frame; auto; frame_tac. }
  2:{ rewrite augment_frame; [apply HXa| |]; frame_tac. }
  cbv zeta. rewrite HL.
  rewrite (augment_frame lambda_) by frame_tac.
  rewrite Hc, augment_mean by assumption. rewrite Hx.
  apply diag_points.
Qed.

Lemma rest_Xsig_pred : Xsig_pred_ u = Xp.
Proof.
  destruct Hs as [Hnx Hna Hlx HP Hxa HPa HXp HXa Hlw].
  unfold u. rewrite Prediction_stages.
  rewrite recombine_frame by frame_tac.
  rewrite predictSigmaPoints_columns.
  2:{ rewrite generateSigmaPoints_frame, augment_frame; auto; frame_tac. }
  2:{ rewrite generateSigmaPoints_frame, augment_frame; auto; frame_tac. }
  rewrite rest_Xsig_aug. apply diag_motion.
Qed.

Lemma rest_u :
  n_aug_ u = 7%Z /\ n_x_ u = 5%Z /\ weights_ u = sigma_weights /\
  R_lidar_ u = [[r0; 0]; [0; r1]].
Proof.
  unfold u. rewrite !Prediction_frame by frame_tac.
  destruct Hs. auto.
Qed.

Lemma rest_x_pred : x_ u = [px; py; 0; 0; 0].
Proof.
  pose proof rest_Xsig_pred as HX.
  destruct Hs as [Hnx Hna Hlx HP Hxa HPa HXp HXa Hlw].
  unfold u in *. rewrite Prediction_stages in *.
  rewrite recombine_frame in HX by frame_tac.
  rewrite recombine_mean, HX.
  rewrite !predictSigmaPoints_frame, !generateSigmaPoints_frame,
    !augment_frame by frame_tac.
  rewrite Hw, Hx, range_sigma by assumption.
  apply diag_mean_x.
Qed.

Lemma rest_w :
  n_aug_ (lidar_space u) = 7%Z /\ n_x_ (lidar_space u) = 5%Z /\
  weights_ (lidar_space u) = sigma_weights /\
  R_lidar_ (lidar_space u) = [[r0; 0]; [0; r1]] /\
  x_ (lidar_space u) = [px; py; 0; 0; 0] /\
  Xsig_pred_ (lidar_space u) = Xp.
Proof.
  destruct rest_u as (Hn & Hnx & Hw' & HR').
  rewrite (lidar_space_frame n_aug_), (lidar_space_frame n_x_),
    (lidar_space_frame weights_), (lidar_space_frame R_lidar_),
    (lidar_space_frame x_), (lidar_space_frame Xsig_pred_) by frame_tac.
  rewrite rest_x_pred, rest_Xsig_pred.
  repeat split; assumption.
Qed.

Lemma rest_Zsig : Zsig_ v = Zs.
Proof.
  destruct rest_u as (Hn & _).
  unfold v. rewrite (predictMeasurment_frame Zsig_) by frame_tac.
  rewrite lidar_space_Zsig, Hn, rest_Xsig_pred. reflexivity.
Qed.

Lemma rest_z_pred : z_pred_ v = [px; py].
Proof.
  pose proof rest_Zsig as HZ.
  destruct rest_w as (Hn & Hnx & Hw' & HR' & _).
  unfold v in *. rewrite (predictMeasurment_frame Zsig_) in HZ by frame_tac.
  rewrite predictMeasurment_mean, HZ, Hw', range_sigma by assumption.
  apply diag_mean_z.
Qed.

Lemma rest_S :
  S_ v = [[diag_S00 c dt l0 l2 l5 r0; 0]; [0; diag_S11 c l1 r1]].
Proof.
  pose proof rest_Zsig as HZ. pose proof rest_z_pred as Hz.
  destruct rest_w as (Hn & Hnx & Hw' & HR' & _).
  unfold v in *. rewrite (predictMeasurment_frame Zsig_) in HZ by frame_tac.
  rewrite predictMeasurment_cov, Hz, HZ, Hw', HR', range_sigma by assumption.
  apply diag_cov_z.
Qed.

(** The corrected mean for a residual [(d0, d1)]. *)
Lemma rest_gain (d0 d1 : R) :
  vadd (x_ v) (mvmul (kalman_gain v) [d0; d1]) =
    [px + diag_T00 c dt l0 l2 l5 / diag_S00 c dt l0 l2 l5 r0 * d0;
     py + diag_T11 c l1 / diag_S11 c l1 r1 * d1;
     diag_T20 c dt l2 l5 / diag_S00 c dt l0 l2 l5 r0 * d0;
     0; 0].
Proof.
  pose proof rest_Zsig as HZ. pose proof rest_z_pred as Hz.
  pose proof rest_S as HS.
  destruct rest_w as (Hn & Hnx & Hw' & HR' & Hx' & HX').
  unfold kalman_gain. rewrite cross_correlation_sum.
  rewrite HS, Hz, HZ.
  unfold v.
  rewrite (predictMeasurment_frame x_), (predictMeasurment_frame Xsig_pred_),
    (predictMeasurment_frame weights_), (predictMeasurment_frame n_x_),
    (predictMeasurment_frame n_z), (predictMeasurment_frame n_aug_)
    by frame_tac.
  rewrite lidar_space_n_z, Hx', HX', Hw', Hnx, range_sigma by assumption.
  change (Z.to_nat 5) with 5%nat. change (Z.to_nat 2) with 2%nat.
  apply diag_gain.
  - apply Rgt_not_eq, diag_S00_pos, Hr0.
  - apply Rgt_not_eq, diag_S11_pos, Hr1.
Qed.

Lemma rest_residual (z0 z1 : R) :
  raw_measurements_ m = [z0; z1] ->
  residual m v = [z0 - px; normalize_angle (z1 - py)].
Proof.
  intros Hraw. unfold residual. rewrite rest_z_pred, Hraw. reflexivity.
Qed.

Lemma rest_innovation (z0 z1 : R) :
  raw_measurements_ m = [z0; z1] ->
  vsub (raw_measurements_ m) (z_pred_ v) = [z0 - px; z1 - py].
Proof. intros Hraw. rewrite rest_z_pred, Hraw. reflexivity. Qed.

Lemma rest_update_mean (z0 z1 : R) :
  raw_measurements_ m = [z0; z1] ->
  x_ (UpdateLidar m (Prediction dt s)) =
    [px + diag_T00 c dt l0 l2 l5 / diag_S00 c dt l0 l2 l5 r0 * (z0 - px);
     py + diag_T11 c l1 / diag_S11 c l1 r1 * normalize_angle (z1 - py);
     diag_T20 c dt l2 l5 / diag_S00 c dt l0 l2 l5 r0 * (z0 - px);
     0; 0].
Proof.
  intros Hraw.
  fold u. rewrite UpdateLidar_stages, UpdateMeasurment_mean.
  fold v. rewrite (rest_residual z0 z1 Hraw). apply rest_gain.
Qed.

End DiagonalBelief.

(** ** The filter after its first reading *)

Lemma ProcessMeasurement_process_with (m : MeasurementPackage) (s : UKF) :
  is_initialized_ s = true ->
  ProcessMeasurement m s = process_with (elapsed m s) m s.
Proof.
  intros H. unfold ProcessMeasurement. rewrite H. reflexivity.
Qed.

Lemma process_with_mean (delta_t : R) (m : MeasurementPackage) (s : UKF) :
  let v := predicted delta_t m s in
  x_ (process_with delta_t m s) =
    vadd (x_ v) (mvmul (kalman_gain v) (residual m v)).
Proof.
  unfold process_with, predicted. cbv zeta.
  destruct (sensor_type_ m).
  - rewrite UpdateLidar_stages. apply UpdateMeasurment_mean.
  - rewrite UpdateRadar_stages. apply UpdateMeasurment_mean.
Qed.

Lemma process_with_cov (delta_t : R) (m : MeasurementPackage) (s : UKF) :
  let v := predicted delta_t m s in
  P_ (process_with delta_t m s) =
    msub (P_ v)
      (mmul (mmul (kalman_gain v) (S_ v)) (transpose (kalman_gain v))).
Proof.
  unfold process_with, predicted. cbv zeta.
  destruct (sensor_type_ m).
  - rewrite UpdateLidar_stages. apply UpdateMeasurment_cov.
  - rewrite UpdateRadar_stages. apply UpdateMeasurment_cov.
Qed.

Lemma if_abs1 {A : Type} (a b : A) :
  (if Rlt_dec (Rabs 1) 0.001 then a else b) = b.
Proof.
  destruct (Rlt_dec (Rabs 1) 0.001) as [H|H]; [|reflexivity].
  rewrite Rabs_R1 in H. lra.
Qed.

Lemma first_laser (ul ur : bool) (t : Z) :
  ProcessMeasurement (laser t 1 1) (UKF_config ul ur) = started ul ur t.
Proof.
  rewrite ProcessMeasurement_uninitialized by reflexivity.
  unfold laser. cbv [sensor_type_ raw_measurements_ timestamp_ vget nth].
  cbv zeta. rewrite !if_abs1. reflexivity.
Qed.

Lemma first_radar (t : Z) (phi : R) :
  ProcessMeasurement (radar t 0 phi 0) UKF_new = at_origin t.
Proof.
  rewrite ProcessMeasurement_uninitialized by reflexivity.
  unfold radar. cbv [sensor_type_ raw_measurements_ timestamp_ vget nth].
  cbv zeta. rewrite !Rmult_0_l, Rplus_0_l, sqrt_0. reflexivity.
Qed.

Lemma shaped_intro (r c : nat) (M : Mat) :
  length M = c -> Forall (fun v => length v = r) M -> shaped r c M.
Proof. split; assumption. Qed.

Ltac shaped_tac :=
  apply shaped_intro;
  [reflexivity | repeat (apply Forall_cons; [reflexivity|]); apply Forall_nil].

Ltac sized_tac := constructor; try reflexivity; shaped_tac.

Ltac decimals :=
  try replace 0.3 with (3 / 10) by lra;
  try replace 0.2 with (2 / 10) by lra;
  try replace 0.5 with (/ 2) by lra;
  try replace 0.25 with (/ 4) by lra;
  try replace 0.15 with (15 / 100) by lra;
  try replace 0.0225 with (225 / 10000) by lra;
  try replace 0.2225 with (2225 / 10000) by lra.

Lemma sqrt5_sqrt02 : sqrt 5 * sqrt 0.2 = 1.
Proof.
  rewrite <- sqrt_mult by lra.
  replace (5 * 0.2) with 1 by lra. apply sqrt_1.
Qed.

Lemma started_sized (ul ur : bool) (t t' : Z) :
  sized (set_previous_timestamp_ t' (started ul ur t)).
Proof. sized_tac. Qed.

Lemma started_x (ul ur : bool) (t t' : Z) :
  x_ (set_previous_timestamp_ t' (started ul ur t)) = [1; 1; 0; 0; 0].
Proof. unfold started. ukf_cbv. reflexivity. Qed.

Lemma started_R (ul ur : bool) (t t' : Z) :
  R_lidar_ (set_previous_timestamp_ t' (started ul ur t)) =
    [[0.15 * 0.15; 0]; [0; 0.15 * 0.15]].
Proof. unfold started. ukf_cbv. reflexivity. Qed.

Lemma started_weights (ul ur : bool) (t t' : Z) :
  weights_ (set_previous_timestamp_ t' (started ul ur t)) = sigma_weights.
Proof. unfold started. ukf_cbv. unfold sigma_weights. list_split; lra. Qed.

Lemma started_spread (ul ur : bool) (t t' : Z) :
  sqrt (lambda_ (set_previous_timestamp_ t' (started ul ur t)) + 7) = sqrt 5.
Proof. f_equal. unfold started. ukf_cbv. lra. Qed.

Lemma started_factor (ul ur : bool) (t t' : Z) :
  LLT.matrixL
    (P_aug_ (augment (set_previous_timestamp_ t' (started ul ur t)))) =
  diag7 (sqrt 0.3) (sqrt 0.2) (sqrt 0.3) (sqrt 1) (sqrt 1) (sqrt (6 * 6))
    (sqrt (PI / 6 * (PI / 6))).
Proof.
  assert (E : P_aug_ (augment (set_previous_timestamp_ t' (started ul ur t)))
              = diag7 0.3 0.2 0.3 1 1 (6 * 6) (PI / 6 * (PI / 6))).
  { rewrite augment_cov; try reflexivity; shaped_tac. }
  rewrite E. apply matrixL_diag7; try lra.
  pose proof PI_gt_3. nra.
Qed.

Lemma started_flags (ul ur : bool) (t : Z) :
  is_initialized_ (started ul ur t) = true /\
  use_laser_ (started ul ur t) = ul /\
  use_radar_ (started ul ur t) = ur /\
  previous_timestamp_ (started ul ur t) = t /\
  x_ (started ul ur t) = [1; 1; 0; 0; 0].
Proof. unfold started. ukf_cbv. repeat split. Qed.

Section Started.

Variables (ul ur : bool) (t : Z) (delta_t : R).
Variable m : MeasurementPackage.
Variables z0 z1 : R.
Hypothesis Hm : sensor_type_ m = LASER.
Hypothesis Hraw : raw_measurements_ m = [z0; z1].

Let s := started ul ur t.
Let dt := delta_t.
Let v := predicted dt m s.

Lemma started_predicted :
  v = let u := Prediction dt (set_previous_timestamp_ (timestamp_ m) s) in
      predictMeasurment (R_lidar_ (lidar_space u)) (lidar_space u).
Proof. unfold v, predicted. rewrite Hm. reflexivity. Qed.

(** The corrected mean for a residual [(d0, d1)]. *)
Lemma started_gain (d0 d1 : R) :
  vadd (x_ v) (mvmul (kalman_gain v) [d0; d1]) =
    [1 + (0.3 + 0.3 * (dt * dt) + 9 * (dt * dt * dt * dt)) /
         (0.3 + 0.3 * (dt * dt) + 9 * (dt * dt * dt * dt) + 0.0225) * d0;
     1 + 0.2 / 0.2225 * d1;
     (0.3 * dt + 18 * (dt * dt * dt)) /
       (0.3 + 0.3 * (dt * dt) + 9 * (dt * dt * dt * dt) + 0.0225) * d0;
     0; 0].
Proof.
  rewrite started_predicted. cbv zeta.
  rewrite (rest_gain 1 1 (sqrt 5) dt
             (sqrt 0.3) (sqrt 0.2) (sqrt 0.3) (sqrt 1) (sqrt 1)
             (sqrt (6 * 6)) (sqrt (PI / 6 * (PI / 6)))
             (0.15 * 0.15) (0.15 * 0.15) _
             (started_sized ul ur t _) (started_x ul ur t _)
             (started_weights ul ur t _)
             (started_spread ul ur t _) (started_factor ul ur t _)
             (started_R ul ur t _)); [|lra|lra].
  unfold diag_T00, diag_T20, diag_T11, diag_S00, diag_S11.
  rewrite sqrt5_sqrt02.
  rewrite !normalize_angle_fixed by (pose proof PI_gt_3; lra).
  rewrite !sqrt_sqrt by lra.
  assert (Hpos : 0 <= 0.3 + 0.3 * (dt * dt) + 9 * (dt * dt * dt * dt)).
  { replace (dt * dt * dt * dt) with ((dt * dt) * (dt * dt)) by ring. nra. }
  decimals.
  list_split; field; lra.
Qed.

Lemma started_innovation :
  vsub (raw_measurements_ m) (z_pred_ v) = [z0 - 1; z1 - 1].
Proof.
  rewrite started_predicted. cbv zeta.
  apply (rest_innovation 1 1 (sqrt 5) dt
           (sqrt 0.3) (sqrt 0.2) (sqrt 0.3) (sqrt 1) (sqrt 1)
           (sqrt (6 * 6)) (sqrt (PI / 6 * (PI / 6)))
           (0.15 * 0.15) (0.15 * 0.15) _ m
           (started_sized ul ur t _) (started_x ul ur t _)
           (started_weights ul ur t _)
           (started_spread ul ur t _) (started_factor ul ur t _)
           (started_R ul ur t _)).
  exact Hraw.
Qed.

Lemma started_residual :
  residual m v = [z0 - 1; normalize_angle (z1 - 1)].
Proof.
  rewrite started_predicted. cbv zeta.
  apply (rest_residual 1 1 (sqrt 5) dt
           (sqrt 0.3) (sqrt 0.2) (sqrt 0.3) (sqrt 1) (sqrt 1)
           (sqrt (6 * 6)) (sqrt (PI / 6 * (PI / 6)))
           (0.15 * 0.15) (0.15 * 0.15) _ m
           (started_sized ul ur t _) (started_x ul ur t _)
           (started_weights ul ur t _)
           (started_spread ul ur t _) (started_factor ul ur t _)
           (started_R ul ur t _)).
  exact Hraw.
Qed.

(** The belief mean after the second LASER reading [(z0, z1)], processed
    with the elapsed time [dt]. *)
Lemma started_mean :
  x_ (process_with dt m s) =
    [1 + (0.3 + 0.3 * (dt * dt) + 9 * (dt * dt * dt * dt)) /
         (0.3 + 0.3 * (dt * dt) + 9 * (dt * dt * dt * dt) + 0.0225)
         * (z0 - 1);
     1 + 0.2 / 0.2225 * normalize_angle (z1 - 1);
     (0.3 * dt + 18 * (dt * dt * dt)) /
       (0.3 + 0.3 * (dt * dt) + 9 * (dt * dt * dt * dt) + 0.0225)
       * (z0 - 1);
     0; 0].
Proof.
  rewrite process_with_mean. cbv zeta. fold v.
  rewrite started_residual. apply started_gain.
Qed.

End Started.

Lemma elapsed_started (ul ur : bool) (t t' : Z) (x y : R) :
  elapsed (laser t' x y) (started ul ur t) = IZR (t' - t) / 1000000.0.
Proof.
  unfold elapsed. destruct (started_flags ul ur t) as (_ & _ & _ & -> & _).
  reflexivity.
Qed.

(** The mean after a second LASER reading [(x, y)]. *)
Lemma second_laser (ul ur : bool) (t t' : Z) (x y : R) :
  let dt := IZR (t' - t) / 1000000.0 in
  x_ (ProcessMeasurement (laser t' x y) (started ul ur t)) =
    [1 + (0.3 + 0.3 * (dt * dt) + 9 * (dt * dt * dt * dt)) /
         (0.3 + 0.3 * (dt * dt) + 9 * (dt * dt * dt * dt) + 0.0225)
         * (x - 1);
     1 + 0.2 / 0.2225 * normalize_angle (y - 1);
     (0.3 * dt + 18 * (dt * dt * dt)) /
       (0.3 + 0.3 * (dt * dt) + 9 * (dt * dt * dt * dt) + 0.0225)
       * (x - 1);
     0; 0].
Proof.
  intros dt.
  rewrite ProcessMeasurement_process_with by apply started_flags.
  rewrite elapsed_started. fold dt.
  apply started_mean; reflexivity.
Qed.

(** Members of the state after a reading has been processed. *)
Lemma process_with_P_aug (delta_t : R) (m : MeasurementPackage) (s : UKF) :
  P_aug_ (process_with delta_t m s) =
    P_aug_ (augment (set_previous_timestamp_ (timestamp_ m) s)).
Proof.
  unfold process_with. cbv zeta.
  destruct (sensor_type_ m);
    rewrite ?UpdateLidar_frame, ?UpdateRadar_frame by frame_tac;
    apply Prediction_aug.
Qed.

Lemma process_with_Xsig_pred (delta_t : R) (m : MeasurementPackage) (s : UKF) :
  Xsig_pred_ (process_with delta_t m s) =
    Xsig_pred_ (Prediction delta_t
                  (set_previous_timestamp_ (timestamp_ m) s)).
Proof.
  unfold process_with. cbv zeta.
  destruct (sensor_type_ m);
    rewrite ?UpdateLidar_frame, ?UpdateRadar_frame by frame_tac;
    reflexivity.
Qed.

Lemma process_with_Zsig_radar (delta_t : R) (m : MeasurementPackage) (s : UKF) :
  sensor_type_ m = RADAR ->
  Zsig_ (process_with delta_t m s) =
    Zsig_ (radar_space
             (Prediction delta_t
                (set_previous_timestamp_ (timestamp_ m) s))).
Proof.
  intros Hm. unfold process_with. cbv zeta. rewrite Hm.
  rewrite UpdateRadar_stages.
  rewrite UpdateMeasurment_frame, predictMeasurment_frame by frame_tac.
  reflexivity.
Qed.

(** The columns [UpdateRadar] writes. *)
Lemma radar_space_columns (s : UKF) :
  n_aug_ s = 7%Z ->
  Zsig_ (radar_space s) =
    map (fun i => radar_point (col (Xsig_pred_ s) i)) (seq 0 15).
Proof.
  intros Hn. destruct s; simpl in *. subst.
  ukf_cbv. reflexivity.
Qed.

(** Sigma point 0 is the belief mean, propagated without noise. *)
Lemma Prediction_point0 (delta_t : R) (s : UKF) :
  sized s ->
  col (Xsig_pred_ (Prediction delta_t s)) 0 = motion delta_t (x_ s ++ [0; 0]).
Proof.
  intros Hs. destruct Hs as [Hnx Hna Hlx HP Hxa HPa HXp HXa Hlw].
  rewrite Prediction_stages.
  rewrite recombine_frame by frame_tac.
  rewrite predictSigmaPoints_columns.
  2:{ rewrite generateSigmaPoints_frame, augment_frame; auto; frame_tac. }
  2:{ rewrite generateSigmaPoints_frame, augment_frame; auto; frame_tac. }
  rewrite generateSigmaPoints_columns.
  2:{ rewrite augment_frame; auto; frame_tac. }
  2:{ rewrite augment_frame; [apply HXa| |]; frame_tac. }
  cbv zeta. rewrite augment_mean by assumption. reflexivity.
Qed.

Lemma motion_origin (delta_t : R) :
  motion delta_t [0; 0; 0; 0; 0; 0; 0] = [0; 0; 0; 0; 0].
Proof.
  unfold motion. cbv beta iota zeta delta [vget nth].
  rewrite !if_abs0. list_split; ring.
Qed.

Lemma at_origin_facts (t t' : Z) :
  is_initialized_ (at_origin t) = true /\
  previous_timestamp_ (at_origin t) = t /\
  x_ (set_previous_timestamp_ t' (at_origin t)) = [0; 0; 0; 0; 0] /\
  n_aug_ (set_previous_timestamp_ t' (at_origin t)) = 7%Z.
Proof. unfold at_origin. ukf_cbv. repeat split. Qed.

Lemma at_origin_sized (t t' : Z) :
  sized (set_previous_timestamp_ t' (at_origin t)).
Proof. sized_tac. Qed.

(** The degenerate belief. *)
Lemma degenerate_sized (t t' : Z) :
  sized (set_previous_timestamp_ t' (degenerate t)).
Proof. sized_tac. Qed.

Lemma degenerate_facts (t t' : Z) :
  is_initialized_ (degenerate t) = true /\
  previous_timestamp_ (degenerate t) = t /\
  x_ (degenerate t) = [1; 1; 0; 0; 0] /\
  x_ (set_previous_timestamp_ t' (degenerate t)) = [1; 1; 0; 0; 0] /\
  R_lidar_ (set_previous_timestamp_ t' (degenerate t)) =
    [[0.15 * 0.15; 0]; [0; 0.15 * 0.15]].
Proof. unfold degenerate, started. ukf_cbv. repeat split. Qed.

Lemma degenerate_weights (t t' : Z) :
  weights_ (set_previous_timestamp_ t' (degenerate t)) = sigma_weights.
Proof.
  unfold degenerate, started. ukf_cbv. unfold sigma_weights.
  list_split; lra.
Qed.

Lemma degenerate_spread (t t' : Z) :
  sqrt (lambda_ (set_previous_timestamp_ t' (degenerate t)) + 7) = sqrt 5.
Proof. f_equal. unfold degenerate, started. ukf_cbv. lra. Qed.

Lemma degenerate_aug (t t' : Z) :
  P_aug_ (augment (set_previous_timestamp_ t' (degenerate t))) =
    diag7 0 0 0 0 0 (6 * 6) (PI / 6 * (PI / 6)).
Proof. rewrite augment_cov; try reflexivity; shaped_tac. Qed.

Lemma degenerate_factor (t t' : Z) :
  LLT.matrixL (P_aug_ (augment (set_previous_timestamp_ t' (degenerate t)))) =
    diag7 0 0 0 0 0 (6 * 6) (PI / 6 * (PI / 6)).
Proof. rewrite degenerate_aug. apply matrixL_stop. Qed.

(** The speed estimate after a LASER reading [(x, y)] on the degenerate
    belief, processed with the elapsed time 1. *)
Lemma degenerate_speed (t t' : Z) (x y : R) :
  vget (x_ (process_with 1 (laser t' x y) (degenerate t))) 2 =
    648 / 324.0225 * (x - 1).
Proof.
  unfold process_with.
  change (sensor_type_ (laser t' x y)) with LASER.
  change (timestamp_ (laser t' x y)) with t'. cbv zeta.
  destruct (degenerate_facts t t') as (_ & _ & _ & Hx & HR).
  rewrite (rest_update_mean 1 1 (sqrt 5) 1 0 0 0 0 0
             (6 * 6) (PI / 6 * (PI / 6))
             (0.15 * 0.15) (0.15 * 0.15) _ (laser t' x y)
             (degenerate_sized t _) Hx (degenerate_weights t _)
             (degenerate_spread t _) (degenerate_factor t _) HR)
    with (z0 := x) (z1 := y); [|lra|lra|reflexivity].
  unfold vget. cbv [nth].
  unfold diag_T20, diag_S00.
  rewrite !sqrt_sqrt by lra.
  replace 324.0225 with (3240225 / 10000) by lra.
  decimals. field.
Qed.

(** ** A factorisation that stops *)

Lemma degenerate_aug_covariance (delta_t : R) (t : Z) :
  P_aug_ (Prediction delta_t (degenerate t)) =
    diag7 0 0 0 0 0 (6 * 6) (PI / 6 * (PI / 6)).
Proof.
  destruct (Prediction_aug delta_t (degenerate t)) as (_ & -> & _).
  rewrite augment_cov; try reflexivity; shaped_tac.
Qed.

Lemma success_stop (d1 d2 d3 d4 d5 d6 : R) :
  LLT.success (diag7 0 d1 d2 d3 d4 d5 d6) = false.
Proof.
  unfold LLT.success.
  change (rows (diag7 0 d1 d2 d3 d4 d5 d6)) with 7%nat.
  change (seq 0 7) with [0; 1; 2; 3; 4; 5; 6]%nat.
  unfold LLT.complete. rewrite llt_step_stop. reflexivity.
Qed.

(** C6 (as stated) fails when the factorisation stops.  With a belief
    covariance of zero the augmented covariance is
    diag (0, 0, 0, 0, 0, 36, (pi/6)^2), which is symmetric and is the
    product [F * F^T] for [F] = diag (0, 0, 0, 0, 0, 6, pi/6).  Its first
    pivot is 0, so the factorisation stops at once, and the matrix [L]
    from which the sigma points are built is the covariance itself:
    [L * L^T] is not the covariance, [L] is not a factor of it. *)
Lemma stopped_factorisation_is_not_a_factor :
  let s := degenerate 0 in
  let s' := Prediction 1 s in
  let L := LLT.matrixL (P_aug_ s') in
  let F := diag7 0 0 0 0 0 6 (PI / 6) in
  sized s /\ symmetric (P_ s) /\
  LLT.success (P_aug_ s') = false /\
  mmul F (transpose F) = P_aug_ s' /\
  mmul L (transpose L) <> P_aug_ s'.
Proof.
  cbv zeta. rewrite degenerate_aug_covariance.
  split; [sized_tac|]. split; [reflexivity|].
  split; [apply success_stop|].
  split.
  - unfold diag7. eigen_cbv. list_split; field.
  - rewrite matrixL_stop. unfold diag7. eigen_cbv. intros E.
    injection E; intros; lra.
Qed.

(** ** The sensor flags *)

(** C1 (evaluation at the failing input): the filter is configured with
    [use_laser_ = false] and initialised by a first reading at (1, 1); the
    LASER reading (2, 1) that arrives one second later is for a disabled
    sensor, and yet it is propagated and corrected: the mean moves from
    (1, 1, 0, 0, 0) to (1 + 9.6/9.6225, 1, 18.3/9.6225, 0, 0). *)
Theorem disabled_laser_reading_is_processed :
  let s := ProcessMeasurement (laser 0 1 1) (UKF_config false true) in
  let m := laser 1000000 2 1 in
  is_initialized_ s = true /\ disabled m s /\
  x_ s = [1; 1; 0; 0; 0] /\
  x_ (ProcessMeasurement m s) = [1 + 9.6 / 9.6225; 1; 18.3 / 9.6225; 0; 0] /\
  x_ (ProcessMeasurement m s) <> x_ s.
Proof.
  cbv zeta. rewrite first_laser.
  destruct (started_flags false true 0) as (Hi & Hl & _ & _ & Hx).
  assert (E : x_ (ProcessMeasurement (laser 1000000 2 1)
                    (started false true 0))
              = [1 + 9.6 / 9.6225; 1; 18.3 / 9.6225; 0; 0]).
  { rewrite second_laser.
    replace (IZR (1000000 - 0) / 1000000.0) with 1 by (simpl; lra).
    replace (1 - 1) with 0 by lra. rewrite normalize_angle_0.
    list_split; lra. }
  repeat split; try assumption.
  rewrite E, Hx. intros H. injection H as H1 H2. lra.
Qed.

(** ** Time stamps that go backwards *)

(** C9 (as amended): after initialisation [ProcessMeasurement] neither
    rejects a reading nor clamps the elapsed time: it hands [Prediction]
    the value (timestamp - previous timestamp) / 10^6 as computed, and that
    value is negative exactly when the time stamp is less than the stored
    one. *)
Theorem ProcessMeasurement_elapsed_time_unchecked
    (m : MeasurementPackage) (s : UKF) :
  is_initialized_ s = true ->
  ProcessMeasurement m s = process_with (elapsed m s) m s /\
  (elapsed m s < 0 <-> (timestamp_ m < previous_timestamp_ s)%Z).
Proof.
  intros Hi. split; [apply ProcessMeasurement_process_with, Hi|].
  unfold elapsed.
  assert (Hpos : 0 < 1000000.0) by lra.
  split; intros H.
  - assert (Hz : IZR (timestamp_ m - previous_timestamp_ s) < 0).
    { apply Rmult_lt_reg_r with (/ 1000000.0).
      - apply Rinv_0_lt_compat, Hpos.
      - rewrite Rmult_0_l. exact H. }
    apply lt_IZR in Hz. lia.
  - assert (Hz : IZR (timestamp_ m - previous_timestamp_ s) < 0).
    { apply IZR_lt. lia. }
    unfold Rdiv. apply Rmult_neg_pos; [exact Hz|].
    apply Rinv_0_lt_compat, Hpos.
Qed.

Lemma ProcessMeasurement_elapsed_time_unchecked_witness :
  ProcessMeasurement (laser 0 2 1) (started true true 1000000) =
    process_with (elapsed (laser 0 2 1) (started true true 1000000))
      (laser 0 2 1) (started true true 1000000).
Proof.
  exact (proj1 (ProcessMeasurement_elapsed_time_unchecked (laser 0 2 1)
                  (started true true 1000000) eq_refl)).
Defined.

(** C9 (as stated) fails: the filter is initialised at time 1000000 by a
    reading at (1, 1) and then receives the reading (2, 1) stamped 0.  The
    reading is neither rejected nor processed with an elapsed time of
    zero: the propagation runs over -1 second and the speed estimate
    becomes -18.3/9.6225. *)
Lemma out_of_order_reading_is_propagated :
  let s := ProcessMeasurement (laser 1000000 1 1) UKF_new in
  let m := laser 0 2 1 in
  is_initialized_ s = true /\
  (timestamp_ m < previous_timestamp_ s)%Z /\
  ~ (rejected m s \/ clamped m s).
Proof.
  cbv zeta. unfold UKF_new. rewrite first_laser.
  destruct (started_flags true true 1000000) as (Hi & _ & _ & Ht & Hx).
  split; [exact Hi|]. split; [rewrite Ht; reflexivity|].
  assert (E : x_ (ProcessMeasurement (laser 0 2 1)
                    (started true true 1000000))
              = [1 + 9.6 / 9.6225; 1; - (18.3 / 9.6225); 0; 0]).
  { rewrite second_laser.
    replace (IZR (0 - 1000000) / 1000000.0) with (-1) by (simpl; lra).
    replace (1 - 1) with 0 by lra. rewrite normalize_angle_0.
    list_split; lra. }
  intros [[H _]|H].
  - rewrite E, Hx in H. injection H as H1 H2. lra.
  - unfold clamped in H. rewrite H in E.
    rewrite (started_mean true true 1000000 0 (laser 0 2 1) 2 1
               eq_refl eq_refl) in E.
    injection E as H1 H2 H3. lra.
Qed.

(** ** Degenerate covariances *)

(** C3 (as amended): no update is rejected.  For every reading after
    initialisation, whatever the augmented covariance and the predicted
    measurement covariance are, the belief mean becomes
    predicted mean + K * residual and the belief covariance becomes
    predicted covariance - K * S * K^T, with the gain K computed from
    what the factorisation and the inverse have returned. *)
Theorem ProcessMeasurement_always_corrects
    (m : MeasurementPackage) (s : UKF) :
  is_initialized_ s = true ->
  let v := predicted (elapsed m s) m s in
  let K := mmul (cross_correlation v) (Inverse.inverse (S_ v)) in
  x_ (ProcessMeasurement m s) = vadd (x_ v) (mvmul K (residual m v)) /\
  P_ (ProcessMeasurement m s) =
    msub (P_ v) (mmul (mmul K (S_ v)) (transpose K)).
Proof.
  intros Hi v K.
  rewrite ProcessMeasurement_process_with by exact Hi.
  split; [apply process_with_mean | apply process_with_cov].
Qed.

Lemma ProcessMeasurement_always_corrects_witness :
  let m := laser 1000000 2 1 in
  let s := degenerate 0 in
  let v := predicted (elapsed m s) m s in
  let K := mmul (cross_correlation v) (Inverse.inverse (S_ v)) in
  x_ (ProcessMeasurement m s) = vadd (x_ v) (mvmul K (residual m v)).
Proof.
  exact (proj1 (ProcessMeasurement_always_corrects (laser 1000000 2 1)
                  (degenerate 0) eq_refl)).
Defined.

(** C3 (as stated) fails: with a belief covariance of zero the augmented
    covariance is not positive definite and the factorisation stops at
    its first pivot, but the LASER reading (2, 1) is not rejected: the
    speed estimate moves from 0 to 648/324.0225. *)
Lemma degenerate_covariance_update_not_rejected :
  let s := degenerate 0 in
  let m := laser 1000000 2 1 in
  is_initialized_ s = true /\
  ~ positive_definite (P_aug_ (ProcessMeasurement m s)) /\
  LLT.step (P_aug_ (ProcessMeasurement m s)) 0 = None /\
  ~ rejected m s.
Proof.
  cbv zeta.
  destruct (degenerate_facts 0 0) as (Hi & Ht & Hx & _).
  assert (E : ProcessMeasurement (laser 1000000 2 1) (degenerate 0) =
              process_with 1 (laser 1000000 2 1) (degenerate 0)).
  { rewrite ProcessMeasurement_process_with by exact Hi.
    f_equal. unfold elapsed. rewrite Ht. simpl. lra. }
  rewrite E, process_with_P_aug, degenerate_aug.
  split; [exact Hi|]. split; [|split].
  - intros Hpd.
    specialize (Hpd [1; 0; 0; 0; 0; 0; 0] eq_refl).
    assert (Hz : dot [1; 0; 0; 0; 0; 0; 0]
                   (mvmul (diag7 0 0 0 0 0 (6 * 6) (PI / 6 * (PI / 6)))
                      [1; 0; 0; 0; 0; 0; 0]) = 0).
    { unfold diag7. eigen_cbv. ring. }
    rewrite Hz in Hpd. apply (Rlt_irrefl 0), Hpd.
    exists 0%nat. unfold vget; simpl. lra.
  - apply llt_step_stop.
  - intros [H _]. rewrite E in H.
    assert (H2 : vget (x_ (process_with 1 (laser 1000000 2 1)
                             (degenerate 0))) 2 = vget (x_ (degenerate 0)) 2)
      by (rewrite H; reflexivity).
    rewrite degenerate_speed, Hx in H2.
    unfold vget in H2; simpl in H2. lra.
Qed.

(** ** The residual of a LASER reading *)

Lemma wrap_example : normalize_angle (6 - 1) = 5 - 2 * PI.
Proof.
  pose proof PI_gt_3. pose proof PI_4.
  replace (6 - 1) with 5 by lra. apply normalize_angle_down; lra.
Qed.


(** C7 (evaluation at the failing input): the filter is initialised by a
    reading at (1, 1) and receives the LASER reading (1, 6) one second
    later.  The innovation, the reading minus the predicted measurement,
    is (0, 5); the corrector does not use it as it is but wraps its second
    coefficient, a length, like an angle, into (0, 5 - 2 PI), so that the
    new mean is not predicted mean + K * innovation. *)
Theorem lidar_innovation_is_angle_wrapped :
  let s := ProcessMeasurement (laser 0 1 1) UKF_new in
  let m := laser 1000000 1 6 in
  let v := predicted (elapsed m s) m s in
  let K := kalman_gain v in
  let innovation := vsub (raw_measurements_ m) (z_pred_ v) in
  innovation = [0; 5] /\
  residual m v = [0; 5 - 2 * PI] /\
  x_ (ProcessMeasurement m s) =
    [1; 1 + 0.2 / 0.2225 * (5 - 2 * PI); 0; 0; 0] /\
  vadd (x_ v) (mvmul K innovation) = [1; 1 + 0.2 / 0.2225 * 5; 0; 0; 0] /\
  x_ (ProcessMeasurement m s) <> vadd (x_ v) (mvmul K innovation).
Proof.
  cbv zeta. unfold UKF_new. rewrite first_laser.
  pose proof PI_gt_3 as Hpi3. pose proof PI_4 as Hpi4.
  rewrite (started_innovation true true 0 _ (laser 1000000 1 6) 1 6
             eq_refl eq_refl).
  rewrite (started_residual true true 0 _ (laser 1000000 1 6) 1 6
             eq_refl eq_refl).
  rewrite second_laser.
  rewrite (started_gain true true 0 _ (laser 1000000 1 6) eq_refl).
  rewrite wrap_example, elapsed_started.
  replace (IZR (1000000 - 0) / 1000000.0) with 1 by (simpl; lra).
  split; [list_split; lra|].
  split; [list_split; lra|].
  split; [list_split; lra|].
  split; [list_split; lra|].
  intros H. injection H as H. lra.
Qed.

(** ** The radar model at the origin *)

(** C2 (evaluation at the failing input): the filter is initialised by a
    RADAR reading of range 0, which puts the mean at the origin, and
    receives a second RADAR reading one second later.  Predicted sigma
    point 0 is then at px = py = 0, the range of its observation is
    sqrt (0 * 0 + 0 * 0) = 0, and its range rate is computed by dividing
    by that range: nothing floors the divisor. *)
Theorem radar_range_rate_divides_by_zero (phi rho' phi' rhodot' : R) :
  let s := ProcessMeasurement (radar 0 0 phi 0) UKF_new in
  let s' := ProcessMeasurement (radar 1000000 rho' phi' rhodot') s in
  col (Xsig_pred_ s') 0 = [0; 0; 0; 0; 0] /\
  col (Zsig_ s') 0 =
    [sqrt (0 * 0 + 0 * 0); atan2 0 0;
     (0 * (cos 0 * 0) + 0 * (sin 0 * 0)) / sqrt (0 * 0 + 0 * 0)] /\
  sqrt (0 * 0 + 0 * 0) = 0.
Proof.
  cbv zeta. rewrite first_radar.
  destruct (at_origin_facts 0 1000000) as (Hi & Ht & Hx & Hn).
  rewrite ProcessMeasurement_process_with by exact Hi.
  set (m := radar 1000000 rho' phi' rhodot').
  assert (Hp : col (Xsig_pred_
                      (Prediction (elapsed m (at_origin 0))
                         (set_previous_timestamp_ 1000000 (at_origin 0)))) 0
               = [0; 0; 0; 0; 0]).
  { rewrite Prediction_point0 by apply at_origin_sized.
    rewrite Hx. apply motion_origin. }
  split; [|split].
  - rewrite process_with_Xsig_pred. exact Hp.
  - rewrite process_with_Zsig_radar by reflexivity.
    rewrite radar_space_columns.
    2:{ rewrite Prediction_frame by frame_tac. exact Hn. }
    change (timestamp_ m) with 1000000%Z.
    change (col (map (fun i => radar_point
                       (col (Xsig_pred_
                               (Prediction (elapsed m (at_origin 0))
                                  (set_previous_timestamp_ 1000000
                                     (at_origin 0)))) i))
                   (seq 0 15)) 0)
      with (radar_point
              (col (Xsig_pred_
                      (Prediction (elapsed m (at_origin 0))
                         (set_previous_timestamp_ 1000000 (at_origin 0))))
                 0)).
    rewrite Hp. reflexivity.
  - replace (0 * 0 + 0 * 0) with 0 by ring. apply sqrt_0.
Qed.

(** ** The weights *)

Lemma config_weights (ul ur : bool) :
  weights_ (UKF_config ul ur) = sigma_weights.
Proof.
  unfold UKF_config. ukf_cbv. unfold sigma_weights. list_split; lra.
Qed.

Lemma config_dims (ul ur : bool) :
  n_aug_ (UKF_config ul ur) = 7%Z /\ n_x_ (UKF_config ul ur) = 5%Z /\
  lambda_ (UKF_config ul ur) = -2.
Proof. unfold UKF_config. ukf_cbv. repeat split. Qed.

Lemma propagated_members (delta_t : R) (s : UKF) :
  let t := predictSigmaPoints delta_t (generateSigmaPoints (augment s)) in
  weights_ t = weights_ s /\ n_aug_ t = n_aug_ s /\
  x_ t = x_ s /\ P_ t = P_ s.
Proof.
  cbv zeta.
  rewrite (predictSigmaPoints_frame weights_),
    (predictSigmaPoints_frame n_aug_), (predictSigmaPoints_frame x_),
    (predictSigmaPoints_frame P_) by frame_tac.
  rewrite (generateSigmaPoints_frame weights_),
    (generateSigmaPoints_frame n_aug_), (generateSigmaPoints_frame x_),
    (generateSigmaPoints_frame P_) by frame_tac.
  rewrite (augment_frame weights_), (augment_frame n_aug_),
    (augment_frame x_), (augment_frame P_) by frame_tac.
  repeat split.
Qed.

Lemma Prediction_mean (delta_t : R) (s : UKF) :
  x_ (Prediction delta_t s) =
    weighted_mean (weights_ s) (Xsig_pred_ (Prediction delta_t s))
      (range 0 (2 * n_aug_ s + 1)) (vfill 0 (x_ s)).
Proof.
  destruct (propagated_members delta_t s) as (Hw & Hn & Hx & HP).
  rewrite Prediction_stages, recombine_mean.
  rewrite (recombine_frame Xsig_pred_) by frame_tac.
  rewrite Hw, Hn, Hx. reflexivity.
Qed.

Lemma Prediction_cov (delta_t : R) (s : UKF) :
  P_ (Prediction delta_t s) =
    weighted_cov (weights_ s) (Xsig_pred_ (Prediction delta_t s))
      (x_ (Prediction delta_t s)) 3
      (range 0 (2 * n_aug_ s + 1)) (mfill 0 (P_ s)).
Proof.
  destruct (propagated_members delta_t s) as (Hw & Hn & Hx & HP).
  rewrite Prediction_stages, recombine_cov.
  rewrite (recombine_frame Xsig_pred_) by frame_tac.
  rewrite Hw, Hn, HP. reflexivity.
Qed.

(** C10: the constructor sets weight 0 to lambda / (lambda + 7) = -2/5 and
    each of the weights 1 to 14 to 1 / (2 (lambda + 7)) = 1/10; they sum
    to 1; no run of the filter changes them; and it is this vector that
    weighs the sigma points in each of the five recombinations: predicted
    state mean and covariance, predicted measurement mean and covariance,
    and cross correlation. *)
Theorem weights_are_fixed (use_laser use_radar : bool)
    (ms : list MeasurementPackage) (delta_t : R) (Rn : Mat) :
  let s := run ms (UKF_config use_laser use_radar) in
  let lambda := lambda_ s in
  lambda = -2 /\
  weights_ s = sigma_weights /\
  sigma_weights = lambda / (lambda + 7) :: repeat (1 / (2 * (lambda + 7))) 14 /\
  sigma_weights = -2 / 5 :: repeat (1 / 10) 14 /\
  fold_right Rplus 0 sigma_weights = 1 /\
  x_ (Prediction delta_t s) =
    weighted_mean sigma_weights (Xsig_pred_ (Prediction delta_t s))
      sigma_indices (vfill 0 (x_ s)) /\
  P_ (Prediction delta_t s) =
    weighted_cov sigma_weights (Xsig_pred_ (Prediction delta_t s))
      (x_ (Prediction delta_t s)) 3 sigma_indices (mfill 0 (P_ s)) /\
  z_pred_ (predictMeasurment Rn s) =
    weighted_mean sigma_weights (Zsig_ s) sigma_indices
      (vfill 0 (z_pred_ s)) /\
  S_ (predictMeasurment Rn s) =
    madd (weighted_cov sigma_weights (Zsig_ s)
            (z_pred_ (predictMeasurment Rn s)) 1 sigma_indices
            (mfill 0 (S_ s))) Rn /\
  cross_correlation s =
    weighted_cross sigma_weights (Xsig_pred_ s) (x_ s) (Zsig_ s) (z_pred_ s)
      sigma_indices (mfill 0 (mzero 5 (Z.to_nat (n_z s)))).
Proof.
  cbv zeta.
  set (s := run ms (UKF_config use_laser use_radar)).
  destruct (config_dims use_laser use_radar) as (Hna0 & Hnx0 & Hl0).
  assert (Hw : weights_ s = sigma_weights).
  { unfold s. rewrite (run_frame weights_) by configuration_tac.
    apply config_weights. }
  assert (Hna : n_aug_ s = 7%Z).
  { unfold s. rewrite (run_frame n_aug_) by configuration_tac. exact Hna0. }
  assert (Hnx : n_x_ s = 5%Z).
  { unfold s. rewrite (run_frame n_x_) by configuration_tac. exact Hnx0. }
  assert (Hl : lambda_ s = -2).
  { unfold s. rewrite (run_frame lambda_) by configuration_tac. exact Hl0. }
  rewrite Hl.
  split; [reflexivity|]. split; [exact Hw|].
  split; [unfold sigma_weights; simpl; list_split; field|].
  split; [reflexivity|].
  split; [unfold sigma_weights; simpl; field|].
  split; [rewrite Prediction_mean, Hw, range_sigma by exact Hna; reflexivity|].
  split; [rewrite Prediction_cov, Hw, range_sigma by exact Hna; reflexivity|].
  split; [rewrite predictMeasurment_mean, Hw, range_sigma by exact Hna;
          reflexivity|].
  split; [rewrite predictMeasurment_cov, Hw, range_sigma by exact Hna;
          reflexivity|].
  rewrite cross_correlation_sum, Hw, Hnx, range_sigma by exact Hna.
  reflexivity.
Qed.

(** * Further properties of the filter *)

(** ** The first reading *)

(** X2: a first RADAR reading (rho, phi, rhodot) is converted from polar
    coordinates: the initial position is at distance rho from the origin
    in the sense that px^2 + py^2 = rho^2, the initial speed is the
    magnitude |rhodot| of the range rate, whose sign is lost, and heading
    and turn rate start at 0. *)
Theorem first_radar_reading_polar (m : MeasurementPackage) (s : UKF)
    (rho phi rhodot : R) :
  is_initialized_ s = false ->
  sensor_type_ m = RADAR ->
  raw_measurements_ m = [rho; phi; rhodot] ->
  let x := x_ (ProcessMeasurement m s) in
  length x = 5%nat /\
  vget x 0 * vget x 0 + vget x 1 * vget x 1 = rho * rho /\
  vget x 2 = Rabs rhodot /\
  vget x 3 = 0 /\ vget x 4 = 0.
Proof.
  intros Hi Hm Hraw. cbv zeta.
  rewrite ProcessMeasurement_uninitialized by exact Hi.
  rewrite Hm, Hraw.
  cbv beta iota zeta delta
    [x_ set_is_initialized_ set_previous_timestamp_ set_x_ vget nth].
  pose proof (sin2_cos2 phi) as Hsc. unfold Rsqr in Hsc.
  split; [reflexivity|]. split; [|split; [|split; reflexivity]].
  - replace (rho * cos phi * (rho * cos phi) + rho * sin phi * (rho * sin phi))
      with (rho * rho * (sin phi * sin phi + cos phi * cos phi)) by ring.
    rewrite Hsc. ring.
  - replace (rhodot * cos phi * (rhodot * cos phi) +
             rhodot * sin phi * (rhodot * sin phi))
      with (Rsqr rhodot * (sin phi * sin phi + cos phi * cos phi))
      by (unfold Rsqr; ring).
    rewrite Hsc, Rmult_1_r. apply sqrt_Rsqr_abs.
Qed.

Lemma first_radar_reading_polar_witness :
  vget (x_ (ProcessMeasurement (radar 0 5 0 (-3)) UKF_new)) 2 = Rabs (-3).
Proof.
  exact (proj1 (proj2 (proj2
           (first_radar_reading_polar (radar 0 5 0 (-3)) UKF_new 5 0 (-3)
              eq_refl eq_refl eq_refl)))).
Defined.

(** X3: a first LASER reading (x, y) is stored with each coordinate kept
    away from zero: a coordinate of magnitude at least 0.001 is stored as
    it is, a smaller one, whatever its sign, is stored as +0.001; in both
    cases the stored coordinate has magnitude at least 0.001. *)
Theorem first_laser_reading_clamped (m : MeasurementPackage) (s : UKF)
    (x y : R) :
  is_initialized_ s = false ->
  sensor_type_ m = LASER ->
  raw_measurements_ m = [x; y] ->
  let px := vget (x_ (ProcessMeasurement m s)) 0 in
  let py := vget (x_ (ProcessMeasurement m s)) 1 in
  0.001 <= Rabs px /\ 0.001 <= Rabs py /\
  (0.001 <= Rabs x -> px = x) /\ (Rabs x < 0.001 -> px = 0.001) /\
  (0.001 <= Rabs y -> py = y) /\ (Rabs y < 0.001 -> py = 0.001).
Proof.
  intros Hi Hm Hraw. cbv zeta.
  rewrite ProcessMeasurement_uninitialized by exact Hi.
  rewrite Hm, Hraw.
  cbv beta iota zeta delta
    [x_ set_is_initialized_ set_previous_timestamp_ set_x_ vget nth].
  assert (Habs : Rabs 0.001 = 0.001) by (apply Rabs_pos_eq; lra).
  destruct (Rlt_dec (Rabs x) 0.001) as [Hx|Hx];
    destruct (Rlt_dec (Rabs y) 0.001) as [Hy|Hy];
    rewrite ?Habs; repeat split; intros; try reflexivity; lra.
Qed.

Lemma first_laser_reading_clamped_witness :
  vget (x_ (ProcessMeasurement (laser 0 (-0.0005) 3) UKF_new)) 0 = 0.001.
Proof.
  refine (proj1 (proj2 (proj2 (proj2
            (first_laser_reading_clamped (laser 0 (-0.0005) 3) UKF_new
               (-0.0005) 3 eq_refl eq_refl eq_refl)))) _).
  apply Rabs_def1; lra.
Defined.

(** ** What a call leaves behind *)

(** X4: after any call of [ProcessMeasurement] the filter is initialised
    and remembers the time stamp of the reading, so that the next reading
    is always propagated and corrected, over the difference of the two
    time stamps in seconds. *)
Theorem ProcessMeasurement_then_next (m1 m2 : MeasurementPackage) (s : UKF) :
  let s1 := ProcessMeasurement m1 s in
  is_initialized_ s1 = true /\
  previous_timestamp_ s1 = timestamp_ m1 /\
  ProcessMeasurement m2 s1 =
    process_with (IZR (timestamp_ m2 - timestamp_ m1) / 1000000.0) m2 s1.
Proof.
  cbv zeta.
  assert (Hi : is_initialized_ (ProcessMeasurement m1 s) = true).
  { unfold ProcessMeasurement.
    destruct (is_initialized_ s) eqn:E; simpl negb; cbv iota.
    - cbv zeta.
      destruct (sensor_type_ m1);
        rewrite ?UpdateLidar_frame, ?UpdateRadar_frame by frame_tac;
        rewrite Prediction_frame by frame_tac; exact E.
    - reflexivity. }
  assert (Ht : previous_timestamp_ (ProcessMeasurement m1 s) = timestamp_ m1).
  { unfold ProcessMeasurement.
    destruct (is_initialized_ s) eqn:E; simpl negb; cbv iota.
    - cbv zeta.
      destruct (sensor_type_ m1);
        rewrite ?UpdateLidar_frame, ?UpdateRadar_frame by frame_tac;
        rewrite Prediction_frame by frame_tac; reflexivity.
    - reflexivity. }
  split; [exact Hi|]. split; [exact Ht|].
  rewrite ProcessMeasurement_process_with by exact Hi.
  unfold elapsed. rewrite Ht. reflexivity.
Qed.

(** X5: the configuration is immutable: whatever readings are processed,
    from whatever state, the two sensor flags, the dimensions, lambda,
    the seven noise standard deviations, the two measurement noise
    matrices and the weights keep their values. *)
Theorem run_keeps_configuration (ms : list MeasurementPackage) (s : UKF) :
  let s' := run ms s in
  use_laser_ s' = use_laser_ s /\ use_radar_ s' = use_radar_ s /\
  n_x_ s' = n_x_ s /\ n_aug_ s' = n_aug_ s /\
  n_sigma_pts_ s' = n_sigma_pts_ s /\ lambda_ s' = lambda_ s /\
  std_a_ s' = std_a_ s /\ std_yawdd_ s' = std_yawdd_ s /\
  std_laspx_ s' = std_laspx_ s /\ std_laspy_ s' = std_laspy_ s /\
  std_radr_ s' = std_radr_ s /\ std_radphi_ s' = std_radphi_ s /\
  std_radrd_ s' = std_radrd_ s /\
  R_radar_ s' = R_radar_ s /\ R_lidar_ s' = R_lidar_ s /\
  weights_ s' = weights_ s.
Proof.
  cbv zeta. repeat split; apply run_frame; configuration_tac.
Qed.
(** ** The flags are never read *)

Section FlagsCommute.

Variables a b : bool.

Lemma for_each_commute (idx : list nat) (body : nat -> UKF -> UKF) :
  (forall i s, body i (set_flags a b s) = set_flags a b (body i s)) ->
  forall s, for_each idx body (set_flags a b s) =
            set_flags a b (for_each idx body s).
Proof.
  intros Hb. unfold for_each.
  induction idx as [|i idx IH]; intros s; [reflexivity|].
  simpl. rewrite Hb. apply IH.
Qed.

Lemma flags_members (s : UKF) :
  n_aug_ (set_flags a b s) = n_aug_ s /\ n_x_ (set_flags a b s) = n_x_ s /\
  n_z (set_flags a b s) = n_z s /\
  x_ (set_flags a b s) = x_ s /\ P_ (set_flags a b s) = P_ s /\
  x_aug_ (set_flags a b s) = x_aug_ s /\ P_aug_ (set_flags a b s) = P_aug_ s /\
  Xsig_aug_ (set_flags a b s) = Xsig_aug_ s /\
  Xsig_pred_ (set_flags a b s) = Xsig_pred_ s /\
  R_lidar_ (set_flags a b s) = R_lidar_ s /\
  R_radar_ (set_flags a b s) = R_radar_ s /\
  is_initialized_ (set_flags a b s) = is_initialized_ s /\
  previous_timestamp_ (set_flags a b s) = previous_timestamp_ s /\
  S_ (set_flags a b s) = S_ s /\ z_pred_ (set_flags a b s) = z_pred_ s.
Proof. repeat split. Qed.

Lemma flags_setters (s : UKF) :
  (forall v, set_x_ v (set_flags a b s) = set_flags a b (set_x_ v s)) /\
  (forall v, set_P_ v (set_flags a b s) = set_flags a b (set_P_ v s)) /\
  (forall v, set_Xsig_aug_ v (set_flags a b s) = set_flags a b (set_Xsig_aug_ v s)) /\
  (forall v, set_n_z v (set_flags a b s) = set_flags a b (set_n_z v s)) /\
  (forall v, set_Zsig_ v (set_flags a b s) = set_flags a b (set_Zsig_ v s)) /\
  (forall v, set_z_pred_ v (set_flags a b s) = set_flags a b (set_z_pred_ v s)) /\
  (forall v, set_S_ v (set_flags a b s) = set_flags a b (set_S_ v s)) /\
  (forall v, set_NIS_lidar v (set_flags a b s) = set_flags a b (set_NIS_lidar v s)) /\
  (forall v, set_NIS_radar v (set_flags a b s) = set_flags a b (set_NIS_radar v s)) /\
  (forall v, set_previous_timestamp_ v (set_flags a b s) = set_flags a b (set_previous_timestamp_ v s)) /\
  (forall v, set_is_initialized_ v (set_flags a b s) = set_flags a b (set_is_initialized_ v s)).
Proof. repeat split. Qed.

Ltac push_flags :=
  repeat progress
    (repeat match goal with
       | |- context [n_aug_ (set_flags a b ?t)] => rewrite (proj1 (flags_members t))
       | |- context [n_x_ (set_flags a b ?t)] => rewrite (proj1 (proj2 (flags_members t)))
       | |- context [n_z (set_flags a b ?t)] => rewrite (proj1 (proj2 (proj2 (flags_members t))))
       | |- context [x_ (set_flags a b ?t)] => rewrite (proj1 (proj2 (proj2 (proj2 (flags_members t)))))
       | |- context [P_ (set_flags a b ?t)] => rewrite (proj1 (proj2 (proj2 (proj2 (proj2 (flags_members t))))))
       | |- context [x_aug_ (set_flags a b ?t)] => change (x_aug_ (set_flags a b t)) with (x_aug_ t)
       | |- context [P_aug_ (set_flags a b ?t)] => change (P_aug_ (set_flags a b t)) with (P_aug_ t)
       | |- context [Xsig_aug_ (set_flags a b ?t)] => change (Xsig_aug_ (set_flags a b t)) with (Xsig_aug_ t)
       | |- context [Xsig_pred_ (set_flags a b ?t)] => change (Xsig_pred_ (set_flags a b t)) with (Xsig_pred_ t)
       | |- context [R_lidar_ (set_flags a b ?t)] => change (R_lidar_ (set_flags a b t)) with (R_lidar_ t)
       | |- context [R_radar_ (set_flags a b ?t)] => change (R_radar_ (set_flags a b t)) with (R_radar_ t)
       | |- context [set_x_ ?v (set_flags a b ?t)] => change (set_x_ v (set_flags a b t)) with (set_flags a b (set_x_ v t))
       | |- context [set_P_ ?v (set_flags a b ?t)] => change (set_P_ v (set_flags a b t)) with (set_flags a b (set_P_ v t))
       | |- context [set_Xsig_aug_ ?v (set_flags a b ?t)] => change (set_Xsig_aug_ v (set_flags a b t)) with (set_flags a b (set_Xsig_aug_ v t))
       | |- context [set_n_z ?v (set_flags a b ?t)] => change (set_n_z v (set_flags a b t)) with (set_flags a b (set_n_z v t))
       | |- context [set_Zsig_ ?v (set_flags a b ?t)] => change (set_Zsig_ v (set_flags a b t)) with (set_flags a b (set_Zsig_ v t))
       | |- context [set_z_pred_ ?v (set_flags a b ?t)] => change (set_z_pred_ v (set_flags a b t)) with (set_flags a b (set_z_pred_ v t))
       | |- context [set_S_ ?v (set_flags a b ?t)] => change (set_S_ v (set_flags a b t)) with (set_flags a b (set_S_ v t))
       | |- context [for_each ?idx ?body (set_flags a b ?t)] =>
           rewrite (for_each_commute idx body (fun i s => eq_refl) t)
       end).

Lemma augment_commute s : augment (set_flags a b s) = set_flags a b (augment s).
Proof. reflexivity. Qed.

Lemma generateSigmaPoints_commute s :
  generateSigmaPoints (set_flags a b s) = set_flags a b (generateSigmaPoints s).
Proof. unfold generateSigmaPoints. cbv zeta. push_flags. reflexivity. Qed.

Lemma predictSigmaPoints_commute dt s :
  predictSigmaPoints dt (set_flags a b s) = set_flags a b (predictSigmaPoints dt s).
Proof. unfold predictSigmaPoints. push_flags. reflexivity. Qed.

Lemma recombine_commute s : recombine (set_flags a b s) = set_flags a b (recombine s).
Proof. unfold recombine. cbv zeta. push_flags. reflexivity. Qed.

Lemma Prediction_commute dt s : Prediction dt (set_flags a b s) = set_flags a b (Prediction dt s).
Proof.
  rewrite !Prediction_stages.
  rewrite augment_commute, generateSigmaPoints_commute, predictSigmaPoints_commute, recombine_commute.
  reflexivity.
Qed.

Lemma predictMeasurment_commute Rn s :
  predictMeasurment Rn (set_flags a b s) = set_flags a b (predictMeasurment Rn s).
Proof. unfold predictMeasurment. cbv zeta. push_flags. reflexivity. Qed.

Lemma UpdateMeasurment_commute m s :
  UpdateMeasurment m (set_flags a b s) = set_flags a b (UpdateMeasurment m s).
Proof. unfold UpdateMeasurment. cbv zeta. destruct (sensor_type_ m); reflexivity. Qed.

Lemma lidar_space_commute s : lidar_space (set_flags a b s) = set_flags a b (lidar_space s).
Proof. reflexivity. Qed.

Lemma radar_space_commute s : radar_space (set_flags a b s) = set_flags a b (radar_space s).
Proof. unfold radar_space. cbv zeta. push_flags. reflexivity. Qed.

Lemma UpdateLidar_commute m s : UpdateLidar m (set_flags a b s) = set_flags a b (UpdateLidar m s).
Proof.
  rewrite !UpdateLidar_stages, lidar_space_commute.
  change (R_lidar_ (set_flags a b (lidar_space s))) with (R_lidar_ (lidar_space s)).
  rewrite predictMeasurment_commute. apply UpdateMeasurment_commute.
Qed.

Lemma UpdateRadar_commute m s : UpdateRadar m (set_flags a b s) = set_flags a b (UpdateRadar m s).
Proof.
  rewrite !UpdateRadar_stages, radar_space_commute.
  change (R_radar_ (set_flags a b (radar_space s))) with (R_radar_ (radar_space s)).
  rewrite predictMeasurment_commute. apply UpdateMeasurment_commute.
Qed.

Lemma ProcessMeasurement_commute m s :
  ProcessMeasurement m (set_flags a b s) = set_flags a b (ProcessMeasurement m s).
Proof.
  destruct (is_initialized_ s) eqn:Hi.
  - rewrite !ProcessMeasurement_process_with by exact Hi.
    unfold process_with, elapsed. cbv zeta.
    change (previous_timestamp_ (set_flags a b s)) with (previous_timestamp_ s).
    change (set_previous_timestamp_ (timestamp_ m) (set_flags a b s))
      with (set_flags a b (set_previous_timestamp_ (timestamp_ m) s)).
    rewrite Prediction_commute.
    destruct (sensor_type_ m); [apply UpdateLidar_commute | apply UpdateRadar_commute].
  - rewrite !ProcessMeasurement_uninitialized by exact Hi.
    destruct (sensor_type_ m); reflexivity.
Qed.

Lemma run_commute ms : forall s, run ms (set_flags a b s) = set_flags a b (run ms s).
Proof.
  unfold run. induction ms as [|m ms IH]; intros s; [reflexivity|].
  simpl. rewrite ProcessMeasurement_commute. apply IH.
Qed.
End FlagsCommute.

Lemma config_flags (a b : bool) : UKF_config a b = set_flags a b UKF_new.
Proof. unfold UKF_new, UKF_config. ukf_cbv. reflexivity. Qed.

(** X6: the two sensor flags have no effect on anything the filter
    computes: assigning them before a run or after it gives the same
    state, and so the belief and both NIS values after any sequence of
    readings are the same for all four configurations of the flags. *)
Theorem run_independent_of_flags (a b c d : bool)
    (ms : list MeasurementPackage) (s : UKF) :
  run ms (set_flags a b s) = set_flags a b (run ms s) /\
  x_ (run ms (UKF_config a b)) = x_ (run ms (UKF_config c d)) /\
  P_ (run ms (UKF_config a b)) = P_ (run ms (UKF_config c d)) /\
  NIS_lidar (run ms (UKF_config a b)) = NIS_lidar (run ms (UKF_config c d)) /\
  NIS_radar (run ms (UKF_config a b)) = NIS_radar (run ms (UKF_config c d)).
Proof.
  split; [apply run_commute|].
  rewrite (config_flags a b), (config_flags c d), !run_commute.
  repeat split.
Qed.

(** ** The radar measurement model *)

Lemma radar_space_n_z (s : UKF) : n_z (radar_space s) = 3%Z.
Proof.
  unfold radar_space. cbv zeta.
  match goal with
  | |- n_z (set_S_ ?A (set_z_pred_ ?B ?T)) = _ =>
      change (n_z (set_S_ A (set_z_pred_ B T))) with (n_z T)
  end.
  rewrite (for_each_frame n_z); [reflexivity|].
  intros j t. reflexivity.
Qed.

(** X7: [UpdateRadar] sets the measurement dimension to 3 and writes all
    15 columns of [Zsig_]: column [i] holds the range
    r = sqrt (px^2 + py^2), the bearing atan2 (py, px) and the range rate
    (px v cos yaw + py v sin yaw) / r of predicted sigma point [i].  The
    range is never negative, and wherever it is not zero the range rate
    times the range is the projection px v cos yaw + py v sin yaw. *)
Theorem UpdateRadar_measurement_model (m : MeasurementPackage) (s : UKF)
    (i : nat) :
  n_aug_ s = 7%Z -> (i < 15)%nat ->
  let px := mget (Xsig_pred_ s) 0 i in
  let py := mget (Xsig_pred_ s) 1 i in
  let v := mget (Xsig_pred_ s) 2 i in
  let yaw := mget (Xsig_pred_ s) 3 i in
  let r := sqrt (px * px + py * py) in
  let s' := UpdateRadar m s in
  n_z s' = 3%Z /\ length (Zsig_ s') = 15%nat /\
  col (Zsig_ s') i =
    [r; atan2 py px; (px * (cos yaw * v) + py * (sin yaw * v)) / r] /\
  0 <= mget (Zsig_ s') 0 i /\
  (r <> 0 ->
   mget (Zsig_ s') 2 i * mget (Zsig_ s') 0 i =
     px * v * cos yaw + py * v * sin yaw).
Proof.
  intros Hn Hi. cbv zeta.
  assert (HZ : Zsig_ (UpdateRadar m s) =
               map (fun i => radar_point (col (Xsig_pred_ s) i)) (seq 0 15)).
  { rewrite UpdateRadar_stages.
    rewrite UpdateMeasurment_frame, predictMeasurment_frame by frame_tac.
    apply radar_space_columns, Hn. }
  assert (Hc : col (Zsig_ (UpdateRadar m s)) i =
               radar_point (col (Xsig_pred_ s) i)).
  { rewrite HZ. unfold col at 1.
    rewrite (nth_indep _ [] (radar_point (col (Xsig_pred_ s) 0)))
      by (rewrite length_map, length_seq; exact Hi).
    rewrite (map_nth (fun i => radar_point (col (Xsig_pred_ s) i))).
    rewrite seq_nth by exact Hi. reflexivity. }
  split.
  { rewrite UpdateRadar_stages.
    rewrite UpdateMeasurment_frame, predictMeasurment_frame by frame_tac.
    apply radar_space_n_z. }
  split; [rewrite HZ, length_map, length_seq; reflexivity|].
  split; [rewrite Hc; reflexivity|].
  set (px := mget (Xsig_pred_ s) 0 i).
  set (py := mget (Xsig_pred_ s) 1 i).
  set (v := mget (Xsig_pred_ s) 2 i).
  set (yaw := mget (Xsig_pred_ s) 3 i).
  assert (H0 : mget (Zsig_ (UpdateRadar m s)) 0 i = sqrt (px * px + py * py)).
  { unfold mget at 1. rewrite Hc. reflexivity. }
  assert (H2 : mget (Zsig_ (UpdateRadar m s)) 2 i =
               (px * (cos yaw * v) + py * (sin yaw * v)) /
               sqrt (px * px + py * py)).
  { unfold mget at 1. rewrite Hc. reflexivity. }
  rewrite H0, H2.
  split; [apply sqrt_pos|].
  intros Hr. field. exact Hr.
Qed.

Lemma UpdateRadar_measurement_model_witness :
  n_z (UpdateRadar (radar 0 1 0 0) UKF_new) = 3%Z.
Proof.
  exact (proj1 (UpdateRadar_measurement_model (radar 0 1 0 0) UKF_new 0
                  eq_refl (Nat.lt_0_succ 14))).
Defined.
(** ** The NIS values *)

Lemma predicted_NIS (delta_t : R) (m : MeasurementPackage) (s : UKF) :
  NIS_lidar (predicted delta_t m s) = NIS_lidar s /\
  NIS_radar (predicted delta_t m s) = NIS_radar s.
Proof.
  unfold predicted. cbv zeta.
  destruct (sensor_type_ m).
  - rewrite (predictMeasurment_frame NIS_lidar),
      (predictMeasurment_frame NIS_radar) by frame_tac.
    rewrite (lidar_space_frame NIS_lidar), (lidar_space_frame NIS_radar)
      by frame_tac.
    rewrite (Prediction_frame NIS_lidar), (Prediction_frame NIS_radar)
      by frame_tac.
    split; reflexivity.
  - rewrite (predictMeasurment_frame NIS_lidar),
      (predictMeasurment_frame NIS_radar) by frame_tac.
    rewrite (radar_space_frame NIS_lidar), (radar_space_frame NIS_radar)
      by frame_tac.
    rewrite (Prediction_frame NIS_lidar), (Prediction_frame NIS_radar)
      by frame_tac.
    split; reflexivity.
Qed.

Lemma process_with_predicted (delta_t : R) (m : MeasurementPackage) (s : UKF) :
  process_with delta_t m s = UpdateMeasurment m (predicted delta_t m s).
Proof.
  unfold process_with, predicted. cbv zeta.
  destruct (sensor_type_ m);
    [apply UpdateLidar_stages | apply UpdateRadar_stages].
Qed.

Lemma UpdateMeasurment_NIS (m : MeasurementPackage) (s : UKF) :
  match sensor_type_ m with
  | LASER => NIS_lidar (UpdateMeasurment m s) = nis m s /\
             NIS_radar (UpdateMeasurment m s) = NIS_radar s
  | RADAR => NIS_radar (UpdateMeasurment m s) = nis m s /\
             NIS_lidar (UpdateMeasurment m s) = NIS_lidar s
  end.
Proof.
  unfold UpdateMeasurment, nis. cbv zeta.
  destruct (sensor_type_ m); split; reflexivity.
Qed.

(** X8: the consistency statistic of a reading, residual^T * S^-1 *
    residual, is stored in the slot of the reading's sensor, and the slot
    of the other sensor keeps its value; the first reading, which only
    initialises the filter, changes neither. *)
Theorem ProcessMeasurement_NIS (m : MeasurementPackage) (s : UKF) :
  let s' := ProcessMeasurement m s in
  let v := predicted (elapsed m s) m s in
  match is_initialized_ s, sensor_type_ m with
  | false, _ => NIS_lidar s' = NIS_lidar s /\ NIS_radar s' = NIS_radar s
  | true, LASER =>
      NIS_lidar s' = dot (residual m v)
                       (mvmul (Inverse.inverse (S_ v)) (residual m v)) /\
      NIS_radar s' = NIS_radar s
  | true, RADAR =>
      NIS_radar s' = dot (residual m v)
                       (mvmul (Inverse.inverse (S_ v)) (residual m v)) /\
      NIS_lidar s' = NIS_lidar s
  end.
Proof.
  cbv zeta. destruct (is_initialized_ s) eqn:Hi.
  - rewrite ProcessMeasurement_process_with by exact Hi.
    rewrite process_with_predicted.
    pose proof (UpdateMeasurment_NIS m (predicted (elapsed m s) m s)) as H.
    destruct (predicted_NIS (elapsed m s) m s) as [Hl Hr].
    destruct (sensor_type_ m); destruct H as [H1 H2]; split;
      [exact H1 | rewrite H2; assumption | exact H1 | rewrite H2; assumption].
  - rewrite ProcessMeasurement_uninitialized by exact Hi.
    destruct (sensor_type_ m); split; reflexivity.
Qed.

(** ** The laser measurement model *)

Lemma firstn_vzip (f : R -> R -> R) (n : nat) :
  forall u v, firstn n (vzip f u v) = vzip f (firstn n u) (firstn n v).
Proof.
  induction n as [|n IH]; intros u v; [reflexivity|].
  destruct u as [|a u]; [reflexivity|].
  destruct v as [|b v]; [reflexivity|].
  simpl. rewrite IH. reflexivity.
Qed.

Lemma col_map_firstn (n : nat) (X : Mat) (i : nat) :
  col (map (firstn n) X) i = firstn n (col X i).
Proof.
  unfold col. rewrite <- (@firstn_nil R n) at 1.
  apply (map_nth (firstn n)).
Qed.

Lemma weighted_mean_firstn (n : nat) (W : Vec) (X : Mat) (idx : list nat) :
  forall acc,
  firstn n (weighted_mean W X idx acc) =
    weighted_mean W (map (firstn n) X) idx (firstn n acc).
Proof.
  unfold weighted_mean.
  induction idx as [|i idx IH]; intros acc; [reflexivity|].
  simpl. rewrite IH. f_equal.
  unfold vadd, vscale. rewrite firstn_vzip, col_map_firstn, firstn_map.
  reflexivity.
Qed.

Lemma lidar_space_z_pred (s : UKF) : z_pred_ (lidar_space s) = vzero 2.
Proof. reflexivity. Qed.

Lemma firstn_vfill (x : Vec) :
  length x = 5%nat -> firstn 2 (vfill 0 x) = vfill 0 (vzero 2).
Proof. intros H. list_of_length H. reflexivity. Qed.

Lemma Prediction_Xsig_pred_length (delta_t : R) (s : UKF) :
  sized s -> length (Xsig_pred_ (Prediction delta_t s)) = 15%nat.
Proof.
  intros Hs. destruct Hs as [Hnx Hna Hlx HP Hxa HPa HXp HXa Hlw].
  rewrite Prediction_stages.
  rewrite recombine_frame by frame_tac.
  rewrite predictSigmaPoints_columns.
  - rewrite length_map, length_seq. reflexivity.
  - rewrite generateSigmaPoints_frame, augment_frame; auto; frame_tac.
  - rewrite generateSigmaPoints_frame, augment_frame; auto; frame_tac.
Qed.

(** X9: for a LASER reading the measurement model is the projection on
    the position: the measurement sigma points are the first two
    coefficients of the predicted sigma points, and the predicted
    measurement is the position part of the predicted mean. *)
Theorem lidar_prediction_is_position (delta_t : R) (m : MeasurementPackage)
    (s : UKF) :
  sized s -> sensor_type_ m = LASER ->
  let v := predicted delta_t m s in
  n_z v = 2%Z /\
  Zsig_ v = map (firstn 2) (Xsig_pred_ v) /\
  z_pred_ v = firstn 2 (x_ v).
Proof.
  intros Hs Hm. cbv zeta. unfold predicted. rewrite Hm. cbv zeta.
  set (s0 := set_previous_timestamp_ (timestamp_ m) s).
  assert (Hs0 : sized s0) by (destruct Hs; constructor; assumption).
  set (u := Prediction delta_t s0).
  assert (Hn : n_aug_ u = 7%Z).
  { unfold u. rewrite Prediction_frame by frame_tac. apply Hs0. }
  assert (Hlen : length (Xsig_pred_ u) = 15%nat)
    by apply Prediction_Xsig_pred_length, Hs0.
  assert (HZ : Zsig_ (lidar_space u) = map (firstn 2) (Xsig_pred_ u)).
  { rewrite lidar_space_Zsig, Hn. unfold block00.
    change (Z.to_nat (2 * 7 + 1)) with 15%nat.
    rewrite <- Hlen, firstn_all. reflexivity. }
  split.
  { rewrite (predictMeasurment_frame n_z) by frame_tac.
    apply lidar_space_n_z. }
  split.
  { rewrite (predictMeasurment_frame Zsig_),
      (predictMeasurment_frame Xsig_pred_) by frame_tac.
    rewrite (lidar_space_frame Xsig_pred_) by frame_tac. exact HZ. }
  rewrite predictMeasurment_mean, (predictMeasurment_frame x_) by frame_tac.
  rewrite HZ.
  rewrite (lidar_space_frame weights_), (lidar_space_frame n_aug_),
    (lidar_space_frame x_) by frame_tac.
  rewrite lidar_space_z_pred.
  assert (Hx : x_ u =
    weighted_mean (weights_ u) (Xsig_pred_ u) (range 0 (2 * n_aug_ u + 1))
      (vfill 0 (x_ s0))).
  { unfold u. rewrite Prediction_mean.
    rewrite (Prediction_frame weights_), (Prediction_frame n_aug_)
      by frame_tac.
    reflexivity. }
  rewrite Hx, weighted_mean_firstn. f_equal.
  symmetry. apply firstn_vfill, Hs0.
Qed.

Lemma lidar_prediction_is_position_witness :
  n_z (predicted 1 (laser 0 1 1) UKF_new) = 2%Z.
Proof.
  exact (proj1 (lidar_prediction_is_position 1 (laser 0 1 1) UKF_new
                  (UKF_new_sized true true) eq_refl)).
Defined.

(** ** Sizes of the vector and matrix operations *)

Lemma vzip_length (f : R -> R -> R) (n : nat) :
  forall u v, length u = n -> length v = n -> length (vzip f u v) = n.
Proof.
  induction n as [|n IH]; intros [|a u] [|b v] Hu Hv;
    try discriminate; [reflexivity|].
  simpl. f_equal. apply IH; [injection Hu | injection Hv]; auto.
Qed.

Lemma vset_length (a : R) :
  forall v i, length (vset v i a) = length v.
Proof.
  induction v as [|h t IH]; intros [|i]; simpl; auto.
Qed.

Lemma normalize_at_length (i : nat) (v : Vec) :
  length (normalize_at i v) = length v.
Proof. apply vset_length. Qed.

Lemma vscale_length (a : R) (v : Vec) : length (vscale a v) = length v.
Proof. apply length_map. Qed.

Lemma shaped_col (r c : nat) (M : Mat) (i : nat) :
  shaped r c M -> (i < c)%nat -> length (col M i) = r.
Proof.
  intros [Hl Hf] Hi. unfold col.
  rewrite Forall_forall in Hf. apply Hf, nth_In. lia.
Qed.

Lemma shaped_rows (r c : nat) (M : Mat) :
  shaped r c M -> (0 < c)%nat -> rows M = r.
Proof.
  intros [Hl Hf] Hc. unfold rows.
  destruct M as [|v M]; simpl in *; [lia|].
  inversion Hf; assumption.
Qed.

Lemma shaped_set_col (r c : nat) (v : Vec) :
  forall M k, shaped r c M -> ((k < c)%nat -> length v = r) ->
  shaped r c (set_col M k v).
Proof.
  intros M k [Hl Hf]. revert c k Hl.
  induction Hf as [|h t Hh Ht IH]; intros c k Hl Hv.
  - destruct k; split; auto.
  - simpl in Hl. destruct c as [|c]; [discriminate|].
    destruct k as [|k]; simpl.
    + split; [exact Hl|]. constructor; [apply Hv; lia | exact Ht].
    + destruct (IH c k) as [Hl' Hf']; [lia | intros; apply Hv; lia|].
      split; [simpl; lia | constructor; assumption].
Qed.

Lemma shaped_mset (r c : nat) (M : Mat) (i j : nat) (a : R) :
  shaped r c M -> shaped r c (mset M i j a).
Proof.
  intros H. unfold mset. apply shaped_set_col; [exact H|].
  intros Hj. rewrite vset_length. apply (shaped_col r c); assumption.
Qed.

Lemma shaped_mzero (r c : nat) : shaped r c (mzero r c).
Proof.
  split; [apply repeat_length|].
  apply Forall_forall. intros v Hv. apply repeat_spec in Hv. subst.
  apply repeat_length.
Qed.

Lemma shaped_mfill (a : R) (r c : nat) (M : Mat) :
  shaped r c M -> shaped r c (mfill a M).
Proof.
  intros [Hl Hf]. unfold mfill. split; [rewrite length_map; exact Hl|].
  apply Forall_map. eapply Forall_impl; [|exact Hf].
  intros v Hv. unfold vfill. rewrite length_map. exact Hv.
Qed.

Lemma shaped_mzip (f : R -> R -> R) (r : nat) :
  forall c A B, shaped r c A -> shaped r c B -> shaped r c (mzip (vzip f) A B).
Proof.
  induction c as [|c IH]; intros [|a A] [|b B] [HlA HfA] [HlB HfB];
    try discriminate; [split; [reflexivity | constructor]|].
  apply Forall_cons_iff in HfA. destruct HfA as [Ha HA].
  apply Forall_cons_iff in HfB. destruct HfB as [Hb HB].
  simpl in HlA, HlB. injection HlA as HlA. injection HlB as HlB.
  destruct (IH A B (conj HlA HA) (conj HlB HB)) as [Hl Hf].
  split; [simpl; rewrite Hl; reflexivity|].
  constructor; [apply vzip_length; assumption | exact Hf].
Qed.

Lemma shaped_outer (u v : Vec) : shaped (length u) (length v) (outer u v).
Proof.
  unfold outer. split; [apply length_map|].
  apply Forall_map, Forall_forall. intros b _. apply length_map.
Qed.

Lemma mvmul_length (M : Mat) (v : Vec) : length (mvmul M v) = rows M.
Proof. unfold mvmul. rewrite length_map, length_seq. reflexivity. Qed.

Lemma shaped_mmul (A B : Mat) : shaped (rows A) (cols B) (mmul A B).
Proof.
  unfold mmul. split; [apply length_map|].
  apply Forall_map, Forall_forall. intros b _. apply mvmul_length.
Qed.

Lemma shaped_transpose (M : Mat) : shaped (cols M) (rows M) (transpose M).
Proof.
  unfold transpose. split; [rewrite length_map, length_seq; reflexivity|].
  apply Forall_map, Forall_forall. intros b _. apply length_map.
Qed.

Lemma shaped_inverse (M : Mat) :
  shaped (cols M) (cols M) (Inverse.inverse M).
Proof.
  unfold Inverse.inverse. cbv zeta.
  split; [rewrite length_map, length_seq; reflexivity|].
  apply Forall_map, Forall_forall. intros b _.
  rewrite length_map, length_seq. reflexivity.
Qed.

Lemma shaped_block00 (r r' c : nat) (M : Mat) :
  shaped r' c M -> (r <= r')%nat -> shaped r c (block00 r c M).
Proof.
  intros [Hl Hf] Hr. unfold block00.
  rewrite <- Hl, firstn_all. split; [apply length_map|].
  apply Forall_map. eapply Forall_impl; [|exact Hf].
  intros v Hv. cbv beta in Hv. rewrite length_firstn, Hv. lia.
Qed.

(** The weighted sums keep the size of what they add up. *)
Lemma weighted_mean_length (n : nat) (W : Vec) (X : Mat) (idx : list nat) :
  (forall i, In i idx -> length (col X i) = n) ->
  forall acc, length acc = n -> length (weighted_mean W X idx acc) = n.
Proof.
  unfold weighted_mean.
  induction idx as [|i idx IH]; intros HX acc Hacc; [exact Hacc|].
  simpl. apply IH; [intros j Hj; apply HX; right; exact Hj|].
  apply vzip_length; [exact Hacc|].
  rewrite vscale_length. apply HX. left. reflexivity.
Qed.

Lemma weighted_cross_shaped (r c : nat) (W : Vec) (X : Mat) (x : Vec)
    (Z : Mat) (z : Vec) (idx : list nat) :
  (forall i, In i idx -> length (col X i) = r) -> length x = r ->
  (forall i, In i idx -> length (col Z i) = c) -> length z = c ->
  forall acc, shaped r c acc ->
  shaped r c (weighted_cross W X x Z z idx acc).
Proof.
  unfold weighted_cross.
  induction idx as [|i idx IH]; intros HX Hx HZ Hz acc Hacc; [exact Hacc|].
  simpl. apply IH; auto.
  - intros j Hj. apply HX. right. exact Hj.
  - intros j Hj. apply HZ. right. exact Hj.
  - apply shaped_mzip; [exact Hacc|].
    set (dx := normalize_at 3 (vsub (col X i) x)).
    set (dz := normalize_at 1 (vsub (col Z i) z)).
    assert (Hdx : length (vscale (vget W i) dx) = r).
    { rewrite vscale_length. unfold dx. rewrite normalize_at_length.
      apply vzip_length; [apply HX; left; reflexivity | exact Hx]. }
    assert (Hdz : length dz = c).
    { unfold dz. rewrite normalize_at_length.
      apply vzip_length; [apply HZ; left; reflexivity | exact Hz]. }
    pose proof (shaped_outer (vscale (vget W i) dx) dz) as H.
    rewrite Hdx, Hdz in H. exact H.
Qed.

Lemma weighted_cov_shaped (n : nat) (W : Vec) (X : Mat) (mean : Vec)
    (k : nat) (idx : list nat) :
  (forall i, In i idx -> length (col X i) = n) -> length mean = n ->
  forall acc, shaped n n acc ->
  shaped n n (weighted_cov W X mean k idx acc).
Proof.
  unfold weighted_cov.
  induction idx as [|i idx IH]; intros HX Hx acc Hacc; [exact Hacc|].
  simpl. apply IH; auto.
  - intros j Hj. apply HX. right. exact Hj.
  - apply shaped_mzip; [exact Hacc|].
    set (d := normalize_at k (vsub (col X i) mean)).
    assert (Hd : length d = n).
    { unfold d. rewrite normalize_at_length.
      apply vzip_length; [apply HX; left; reflexivity | exact Hx]. }
    assert (Hd' : length (vscale (vget W i) d) = n)
      by (rewrite vscale_length; exact Hd).
    pose proof (shaped_outer (vscale (vget W i) d) d) as H.
    rewrite Hd', Hd in H. exact H.
Qed.

(** The Cholesky factor has the size of the matrix, whether or not the
    factorisation runs to its end. *)
Lemma step_shaped (n : nat) (M M' : Mat) (k : nat) :
  shaped n n M -> (k < n)%nat -> LLT.step M k = Some M' -> shaped n n M'.
Proof.
  intros HM Hk. unfold LLT.step. cbv zeta.
  destruct (Rle_dec (LLT.pivot M k) 0); [discriminate|].
  intros H. injection H as H. subst M'.
  apply shaped_set_col; [exact HM|]. intros _.
  rewrite length_app, length_firstn. simpl.
  rewrite length_map, length_seq.
  rewrite (shaped_col n n M k HM Hk), (shaped_rows n n M HM) by lia. lia.
Qed.

Lemma loop_shaped (n : nat) (ks : list nat) :
  Forall (fun k => (k < n)%nat) ks ->
  forall M, shaped n n M -> shaped n n (LLT.loop ks M).
Proof.
  induction 1 as [|k ks Hk Hks IH]; intros M HM; [exact HM|].
  simpl. destruct (LLT.step M k) as [M'|] eqn:E; [|exact HM].
  apply IH. apply (step_shaped n M M' k); assumption.
Qed.

Lemma lower_col_length (c : nat) (v : Vec) :
  length (LLT.lower_col c v) = length v.
Proof.
  unfold LLT.lower_col, vzero.
  rewrite length_app, repeat_length, length_skipn. lia.
Qed.

Lemma lower_from_shaped (r : nat) :
  forall M c k, shaped r c M -> shaped r c (LLT.lower_from k M).
Proof.
  induction M as [|v M IH]; intros c k [Hl Hf]; [split; assumption|].
  apply Forall_cons_iff in Hf. destruct Hf as [Hv HM].
  destruct (IH (length M) (S k) (conj eq_refl HM)) as [Hl' Hf'].
  split; [simpl in *; rewrite Hl'; exact Hl|].
  simpl. constructor; [rewrite lower_col_length; exact Hv | exact Hf'].
Qed.

Lemma matrixL_shaped (n : nat) (M : Mat) :
  shaped n n M -> shaped n n (LLT.matrixL M).
Proof.
  intros HM. unfold LLT.matrixL, LLT.lower.
  apply lower_from_shaped, loop_shaped; [|exact HM].
  apply Forall_forall. intros k Hk. apply in_seq in Hk.
  destruct n as [|n].
  - destruct HM as [Hl _]. destruct M; [unfold rows in Hk; simpl in Hk; lia | discriminate].
  - rewrite (shaped_rows (S n) (S n) M HM) in Hk by lia. lia.
Qed.

(** ** Sizes of the members *)

Lemma motion_length (delta_t : R) (p : Vec) : length (motion delta_t p) = 5%nat.
Proof. reflexivity. Qed.

Lemma in_sigma_range (s : UKF) (i : nat) :
  n_aug_ s = 7%Z -> In i (range 0 (2 * n_aug_ s + 1)) -> (i < 15)%nat.
Proof.
  intros Hn. rewrite (range_sigma s Hn). unfold sigma_indices.
  intros H. apply in_seq in H. lia.
Qed.

Lemma augment_sized (s : UKF) :
  sized s ->
  length (x_aug_ (augment s)) = 7%nat /\ shaped 7 7 (P_aug_ (augment s)).
Proof.
  intros [Hnx Hna Hx HP Hxa HPa HXp HXa Hw]. split.
  - rewrite augment_mean by assumption. rewrite length_app, Hx. reflexivity.
  - rewrite augment_cov by assumption.
    split; [reflexivity|].
    apply Forall_map, Forall_forall. intros c _. reflexivity.
Qed.

Lemma generateSigmaPoints_sized (s : UKF) :
  n_aug_ s = 7%Z -> length (x_aug_ s) = 7%nat -> shaped 7 7 (P_aug_ s) ->
  shaped 7 15 (Xsig_aug_ s) ->
  shaped 7 15 (Xsig_aug_ (generateSigmaPoints s)).
Proof.
  intros Hn Hx HP HX.
  rewrite generateSigmaPoints_columns by (try apply HX; assumption).
  cbv zeta.
  pose proof (matrixL_shaped 7 (P_aug_ s) HP) as HL.
  split; [reflexivity|].
  constructor; [exact Hx|].
  apply Forall_app. split; apply Forall_map, Forall_forall; intros i Hi;
    apply in_seq in Hi;
    (apply vzip_length; [exact Hx|]);
    rewrite vscale_length; apply (shaped_col 7 7); auto; lia.
Qed.

Lemma predictSigmaPoints_sized (delta_t : R) (s : UKF) :
  n_aug_ s = 7%Z -> shaped 5 15 (Xsig_pred_ s) ->
  shaped 5 15 (Xsig_pred_ (predictSigmaPoints delta_t s)).
Proof.
  intros Hn HX. rewrite predictSigmaPoints_columns by assumption.
  split; [reflexivity|].
  apply Forall_map, Forall_forall. intros i _. reflexivity.
Qed.

Lemma recombine_sized (s : UKF) :
  n_aug_ s = 7%Z -> length (x_ s) = 5%nat -> shaped 5 5 (P_ s) ->
  shaped 5 15 (Xsig_pred_ s) ->
  length (x_ (recombine s)) = 5%nat /\ shaped 5 5 (P_ (recombine s)).
Proof.
  intros Hn Hx HP HX.
  assert (Hc : forall i, In i (range 0 (2 * n_aug_ s + 1)) ->
                         length (col (Xsig_pred_ s) i) = 5%nat).
  { intros i Hi. apply (shaped_col 5 15); [exact HX|].
    apply (in_sigma_range s); assumption. }
  assert (Hm : length (x_ (recombine s)) = 5%nat).
  { rewrite recombine_mean. apply weighted_mean_length; [exact Hc|].
    unfold vfill. rewrite length_map. exact Hx. }
  split; [exact Hm|].
  rewrite recombine_cov. apply weighted_cov_shaped; auto.
  apply shaped_mfill, HP.
Qed.

Lemma Prediction_sized (delta_t : R) (s : UKF) :
  sized s -> sized (Prediction delta_t s).
Proof.
  intros Hs.
  destruct (augment_sized s Hs) as [Ha1 Ha2].
  destruct (Prediction_aug delta_t s) as (E1 & E2 & E3).
  destruct (propagated_members delta_t s) as (Ew & En & Ex & EP).
  destruct Hs as [Hnx Hna Hx HP Hxa HPa HXp HXa Hw].
  assert (Hg : shaped 5 15
                 (Xsig_pred_ (predictSigmaPoints delta_t
                                (generateSigmaPoints (augment s))))).
  { apply predictSigmaPoints_sized.
    - rewrite generateSigmaPoints_frame, augment_frame by frame_tac.
      exact Hna.
    - rewrite generateSigmaPoints_frame, augment_frame by frame_tac.
      exact HXp. }
  destruct (recombine_sized
              (predictSigmaPoints delta_t (generateSigmaPoints (augment s))))
    as [Hm Hc].
  { rewrite En. exact Hna. }
  { rewrite Ex. exact Hx. }
  { rewrite EP. exact HP. }
  { exact Hg. }
  constructor.
  - rewrite Prediction_frame by frame_tac. exact Hnx.
  - rewrite Prediction_frame by frame_tac. exact Hna.
  - rewrite Prediction_stages. exact Hm.
  - rewrite Prediction_stages. exact Hc.
  - rewrite E1. exact Ha1.
  - rewrite E2. exact Ha2.
  - rewrite Prediction_stages, recombine_frame by frame_tac. exact Hg.
  - rewrite E3. apply generateSigmaPoints_sized.
    + rewrite augment_frame by frame_tac. exact Hna.
    + exact Ha1.
    + exact Ha2.
    + rewrite augment_frame by frame_tac. exact HXa.
  - rewrite Prediction_frame by frame_tac. exact Hw.
Qed.

Lemma predictMeasurment_sized (Rn : Mat) (nz : nat) (t : UKF) :
  n_aug_ t = 7%Z -> shaped nz 15 (Zsig_ t) -> length (z_pred_ t) = nz ->
  shaped nz nz (S_ t) -> shaped nz nz Rn ->
  length (z_pred_ (predictMeasurment Rn t)) = nz /\
  shaped nz nz (S_ (predictMeasurment Rn t)).
Proof.
  intros Hn HZ Hz HS HR.
  assert (Hc : forall i, In i (range 0 (2 * n_aug_ t + 1)) ->
                         length (col (Zsig_ t) i) = nz).
  { intros i Hi. apply (shaped_col nz 15); [exact HZ|].
    apply (in_sigma_range t); assumption. }
  assert (Hm : length (z_pred_ (predictMeasurment Rn t)) = nz).
  { rewrite predictMeasurment_mean. apply weighted_mean_length; [exact Hc|].
    unfold vfill. rewrite length_map. exact Hz. }
  split; [exact Hm|].
  rewrite predictMeasurment_cov. apply shaped_mzip; [|exact HR].
  apply weighted_cov_shaped; auto. apply shaped_mfill, HS.
Qed.

Lemma kalman_gain_shaped (nz : nat) (v : UKF) :
  (0 < nz)%nat -> n_x_ v = 5%Z -> n_aug_ v = 7%Z -> n_z v = Z.of_nat nz ->
  length (x_ v) = 5%nat -> shaped 5 15 (Xsig_pred_ v) ->
  shaped nz 15 (Zsig_ v) -> length (z_pred_ v) = nz ->
  shaped nz nz (S_ v) ->
  shaped 5 nz (kalman_gain v).
Proof.
  intros Hnz Hnx Hna Hz Hx HX HZ Hzp HS.
  assert (HT : shaped 5 nz (cross_correlation v)).
  { rewrite cross_correlation_sum, Hnx, Hz, Nat2Z.id.
    apply weighted_cross_shaped; auto.
    - intros i Hi. apply (shaped_col 5 15); [exact HX|].
      apply (in_sigma_range v); assumption.
    - intros i Hi. apply (shaped_col nz 15); [exact HZ|].
      apply (in_sigma_range v); assumption.
    - apply shaped_mfill, (shaped_mzero 5 nz). }
  pose proof (shaped_mmul (cross_correlation v) (Inverse.inverse (S_ v)))
    as HK.
  rewrite (shaped_rows 5 nz _ HT Hnz) in HK.
  destruct (shaped_inverse (S_ v)) as [Hl _].
  unfold cols in HK at 1. rewrite Hl in HK.
  destruct HS as [HS _]. unfold cols in HK. rewrite HS in HK.
  exact HK.
Qed.

Lemma UpdateMeasurment_sized (m : MeasurementPackage) (nz : nat) (v : UKF) :
  (0 < nz)%nat -> n_x_ v = 5%Z -> n_aug_ v = 7%Z -> n_z v = Z.of_nat nz ->
  length (x_ v) = 5%nat -> shaped 5 5 (P_ v) ->
  shaped 5 15 (Xsig_pred_ v) ->
  shaped nz 15 (Zsig_ v) -> length (z_pred_ v) = nz ->
  shaped nz nz (S_ v) ->
  length (x_ (UpdateMeasurment m v)) = 5%nat /\
  shaped 5 5 (P_ (UpdateMeasurment m v)).
Proof.
  intros Hnz Hnx Hna Hz Hx HP HX HZ Hzp HS.
  pose proof (kalman_gain_shaped nz v Hnz Hnx Hna Hz Hx HX HZ Hzp HS) as HK.
  pose proof (shaped_rows 5 nz _ HK Hnz) as Hr.
  split.
  - rewrite UpdateMeasurment_mean. apply vzip_length; [exact Hx|].
    rewrite mvmul_length. exact Hr.
  - rewrite UpdateMeasurment_cov. apply shaped_mzip; [exact HP|].
    pose proof (shaped_mmul (mmul (kalman_gain v) (S_ v))
                  (transpose (kalman_gain v))) as H.
    destruct (shaped_transpose (kalman_gain v)) as [Ht _].
    unfold cols in H at 1. rewrite Ht, Hr in H.
    pose proof (shaped_mmul (kalman_gain v) (S_ v)) as H1.
    rewrite Hr in H1. destruct HS as [HS _].
    unfold cols in H1. rewrite HS in H1.
    rewrite (shaped_rows 5 nz _ H1 Hnz) in H. exact H.
Qed.

Lemma correction_sized (m : MeasurementPackage) (Rn : Mat) (nz : nat)
    (u t : UKF) :
  well_sized u -> (0 < nz)%nat -> shaped nz nz Rn ->
  n_x_ t = n_x_ u -> n_aug_ t = n_aug_ u -> x_ t = x_ u -> P_ t = P_ u ->
  x_aug_ t = x_aug_ u -> P_aug_ t = P_aug_ u ->
  Xsig_pred_ t = Xsig_pred_ u -> Xsig_aug_ t = Xsig_aug_ u ->
  weights_ t = weights_ u -> R_lidar_ t = R_lidar_ u ->
  R_radar_ t = R_radar_ u ->
  n_z t = Z.of_nat nz -> shaped nz 15 (Zsig_ t) ->
  length (z_pred_ t) = nz -> shaped nz nz (S_ t) ->
  well_sized (UpdateMeasurment m (predictMeasurment Rn t)).
Proof.
  intros [[Hnx Hna Hx HP Hxa HPa HXp HXa Hw] [Hl Hr]] Hnz HR
    E1 E2 E3 E4 E5 E6 E7 E8 E9 E10 E11 Hz HZ Hzp HS.
  rewrite <- E1 in Hnx. rewrite <- E2 in Hna. rewrite <- E3 in Hx.
  rewrite <- E4 in HP. rewrite <- E5 in Hxa. rewrite <- E6 in HPa.
  rewrite <- E7 in HXp. rewrite <- E8 in HXa. rewrite <- E9 in Hw.
  rewrite <- E10 in Hl. rewrite <- E11 in Hr.
  destruct (predictMeasurment_sized Rn nz t Hna HZ Hzp HS HR) as [Hm Hc].
  destruct (UpdateMeasurment_sized m nz (predictMeasurment Rn t)) as [Hx' HP'];
    rewrite ?(predictMeasurment_frame n_x_), ?(predictMeasurment_frame n_aug_),
      ?(predictMeasurment_frame n_z), ?(predictMeasurment_frame x_),
      ?(predictMeasurment_frame P_), ?(predictMeasurment_frame Xsig_pred_),
      ?(predictMeasurment_frame Zsig_) by frame_tac;
    try assumption.
  split; [constructor | split].
  - rewrite UpdateMeasurment_frame, predictMeasurment_frame by frame_tac.
    exact Hnx.
  - rewrite UpdateMeasurment_frame, predictMeasurment_frame by frame_tac.
    exact Hna.
  - exact Hx'.
  - exact HP'.
  - rewrite UpdateMeasurment_frame, predictMeasurment_frame by frame_tac.
    exact Hxa.
  - rewrite UpdateMeasurment_frame, predictMeasurment_frame by frame_tac.
    exact HPa.
  - rewrite UpdateMeasurment_frame, predictMeasurment_frame by frame_tac.
    exact HXp.
  - rewrite UpdateMeasurment_frame, predictMeasurment_frame by frame_tac.
    exact HXa.
  - rewrite UpdateMeasurment_frame, predictMeasurment_frame by frame_tac.
    exact Hw.
  - rewrite UpdateMeasurment_frame, predictMeasurment_frame by frame_tac.
    exact Hl.
  - rewrite UpdateMeasurment_frame, predictMeasurment_frame by frame_tac.
    exact Hr.
Qed.

Lemma Prediction_well_sized (delta_t : R) (s : UKF) :
  well_sized s -> well_sized (Prediction delta_t s).
Proof.
  intros (Hs & Hl & Hr). split; [apply Prediction_sized, Hs|].
  rewrite !Prediction_frame by frame_tac. split; assumption.
Qed.

Lemma UpdateLidar_well_sized (m : MeasurementPackage) (u : UKF) :
  well_sized u -> well_sized (UpdateLidar m u).
Proof.
  intros Hu. rewrite UpdateLidar_stages.
  pose proof Hu as (Hs & Hl & Hr).
  apply (correction_sized m _ 2 u); try reflexivity; try exact Hu.
  - lia.
  - rewrite lidar_space_frame by frame_tac. exact Hl.
  - rewrite lidar_space_Zsig.
    destruct Hs as [_ Hna _ _ _ _ HXp _ _]. rewrite Hna.
    apply (shaped_block00 2 5 15); [exact HXp | lia].
  - apply (shaped_mzero 2 2).
Qed.

Lemma radar_space_storage (s : UKF) :
  z_pred_ (radar_space s) = vzero 3 /\ S_ (radar_space s) = mzero 3 3.
Proof.
  pose proof (radar_space_n_z s) as Hn. revert Hn.
  unfold radar_space. cbv zeta.
  match goal with
  | |- n_z (set_S_ ?A (set_z_pred_ ?B ?T)) = _ -> _ =>
      change (n_z T = 3%Z ->
              vzero (Z.to_nat (n_z T)) = vzero 3 /\
              mzero (Z.to_nat (n_z T)) (Z.to_nat (n_z T)) = mzero 3 3)
  end.
  intros ->. split; reflexivity.
Qed.

Lemma UpdateRadar_well_sized (m : MeasurementPackage) (u : UKF) :
  well_sized u -> well_sized (UpdateRadar m u).
Proof.
  intros Hu. rewrite UpdateRadar_stages.
  pose proof Hu as (Hs & Hl & Hr).
  apply (correction_sized m _ 3 u);
    try (apply radar_space_frame; frame_tac); try exact Hu.
  - lia.
  - rewrite radar_space_frame by frame_tac. exact Hr.
  - apply radar_space_n_z.
  - rewrite radar_space_columns by apply Hs.
    split; [reflexivity|].
    apply Forall_map, Forall_forall. intros i _. reflexivity.
  - rewrite (proj1 (radar_space_storage u)). reflexivity.
  - rewrite (proj2 (radar_space_storage u)). apply (shaped_mzero 3 3).
Qed.

Lemma ProcessMeasurement_well_sized (m : MeasurementPackage) (s : UKF) :
  well_sized s -> well_sized (ProcessMeasurement m s).
Proof.
  intros Hs. destruct (is_initialized_ s) eqn:Hi.
  - rewrite ProcessMeasurement_initialized by exact Hi. cbv zeta.
    assert (Hp : well_sized (set_previous_timestamp_ (timestamp_ m) s)).
    { destruct Hs as ([Hnx Hna Hx HP Hxa HPa HXp HXa Hw] & Hl & Hr).
      split; [constructor | split]; assumption. }
    destruct (sensor_type_ m).
    + apply UpdateLidar_well_sized, Prediction_well_sized, Hp.
    + apply UpdateRadar_well_sized, Prediction_well_sized, Hp.
  - rewrite ProcessMeasurement_uninitialized by exact Hi.
    destruct Hs as ([Hnx Hna Hx HP Hxa HPa HXp HXa Hw] & Hl & Hr).
    destruct (sensor_type_ m);
      (split; [constructor | split]); try assumption; reflexivity.
Qed.

(** X10: the sizes of the members are an invariant of the filter: when
    the mean has 5 coefficients, the covariance is 5x5, the augmented mean
    and covariance have size 7, the sigma point matrices are 5x15 and
    7x15, there are 15 weights and the two noise matrices are 2x2 and 3x3,
    the same holds after any sequence of readings, whatever the sensors
    and the values of the readings. *)
Theorem run_keeps_sizes (ms : list MeasurementPackage) (s : UKF) :
  well_sized s -> well_sized (run ms s).
Proof.
  unfold run. revert s.
  induction ms as [|m ms IH]; intros s Hs; [exact Hs|].
  simpl. apply IH, ProcessMeasurement_well_sized, Hs.
Qed.

Lemma run_keeps_sizes_witness :
  well_sized (run [laser 0 1 1; radar 1000000 1 0 0; laser 2000000 1 1]
                UKF_new).
Proof.
  apply run_keeps_sizes.
  split; [apply UKF_new_sized | split; shaped_tac].
Defined.

(** ** The predicted mean *)

Lemma Prediction_points (delta_t : R) (s : UKF) :
  sized s ->
  Xsig_pred_ (Prediction delta_t s) =
    map (fun i =>
           motion delta_t
             (col (sigma_points (x_ s ++ [0; 0]) (sqrt (lambda_ s + 7))
                     (LLT.matrixL (P_aug_ (augment s)))) i))
        (seq 0 15).
Proof.
  intros Hs. destruct Hs as [Hnx Hna Hlx HP Hxa HPa HXp HXa Hlw].
  rewrite Prediction_stages.
  rewrite recombine_frame by frame_tac.
  rewrite predictSigmaPoints_columns.
  2:{ rewrite generateSigmaPoints_frame, augment_frame; auto; frame_tac. }
  2:{ rewrite generateSigmaPoints_frame, augment_frame; auto; frame_tac. }
  rewrite generateSigmaPoints_columns.
  2:{ rewrite augment_frame; auto; frame_tac. }
  2:{ rewrite augment_frame; [apply HXa| |]; frame_tac. }
  cbv zeta. rewrite augment_mean by assumption.
  rewrite (augment_frame lambda_) by frame_tac. reflexivity.
Qed.

Ltac mean_cbv :=
  cbv beta iota zeta delta
    [weighted_mean sigma_weights sigma_indices sigma_points motion
     col vadd vsub vscale vzip vget vfill nth map seq app fold_left firstn].

Lemma motion_mean (dt c x0 x1 x2 x3 x4 : R) (L : Mat) :
  shaped 7 7 L ->
  let m :=
    weighted_mean sigma_weights
      (map (fun i =>
              motion dt (col (sigma_points [x0; x1; x2; x3; x4; 0; 0] c L) i))
           (seq 0 15))
      sigma_indices [0; 0; 0; 0; 0] in
  vget m 2 = x2 /\ vget m 3 = x3 + x4 * dt /\ vget m 4 = x4.
Proof.
  intros HL. mat_of_shape HL. mean_cbv. repeat split; field.
Qed.

Lemma motion_zero (p : Vec) :
  length p = 7%nat -> motion 0 p = firstn 5 p.
Proof.
  intros H. list_of_length H. unfold motion. cbv zeta.
  cbv beta iota delta [vget nth firstn].
  destruct (Rgt_dec (Rabs a3) 0.001) as [Hy|Hy].
  - assert (a3 <> 0).
    { intros E. rewrite E, Rabs_R0 in Hy. lra. }
    replace (a2 + a3 * 0) with a2 by ring.
    list_split; field; assumption.
  - list_split; ring.
Qed.

Lemma Prediction_mean_points (delta_t : R) (s : UKF) :
  sized s -> weights_ s = sigma_weights ->
  exists L, shaped 7 7 L /\
  x_ (Prediction delta_t s) =
    weighted_mean sigma_weights
      (map (fun i =>
              motion delta_t
                (col (sigma_points (x_ s ++ [0; 0]) (sqrt (lambda_ s + 7)) L)
                   i))
           (seq 0 15))
      sigma_indices (vfill 0 (x_ s)).
Proof.
  intros Hs Hw. exists (LLT.matrixL (P_aug_ (augment s))). split.
  - apply matrixL_shaped, augment_sized, Hs.
  - rewrite Prediction_mean, Hw, (range_sigma s) by apply Hs.
    rewrite Prediction_points by exact Hs. reflexivity.
Qed.

(** X11: the constant turn rate and velocity model is linear in the speed,
    the heading and the turn rate, and the sigma points are symmetric
    around the mean, so the predicted mean of a filter with the
    constructor's weights keeps the speed and the turn rate of the mean,
    and its heading is the heading advanced by turn rate times elapsed
    time, whatever the covariance. *)
Theorem Prediction_mean_linear_part (delta_t : R) (s : UKF) :
  sized s -> weights_ s = sigma_weights ->
  vget (x_ (Prediction delta_t s)) 2 = vget (x_ s) 2 /\
  vget (x_ (Prediction delta_t s)) 3 =
    vget (x_ s) 3 + vget (x_ s) 4 * delta_t /\
  vget (x_ (Prediction delta_t s)) 4 = vget (x_ s) 4.
Proof.
  intros Hs Hw.
  destruct (Prediction_mean_points delta_t s Hs Hw) as (L & HL & E).
  rewrite E. clear E.
  assert (Hx : length (x_ s) = 5%nat) by apply Hs.
  generalize dependent (x_ s). intros x Hx.
  list_of_length Hx.
  apply (motion_mean delta_t (sqrt (lambda_ s + 7)) a a0 a1 a2 a3 L HL).
Qed.

Lemma Prediction_mean_linear_part_witness :
  vget (x_ (Prediction 1 UKF_new)) 2 = vget (x_ UKF_new) 2 /\
  vget (x_ (Prediction 1 UKF_new)) 3 =
    vget (x_ UKF_new) 3 + vget (x_ UKF_new) 4 * 1 /\
  vget (x_ (Prediction 1 UKF_new)) 4 = vget (x_ UKF_new) 4.
Proof.
  apply (Prediction_mean_linear_part 1 UKF_new (UKF_new_sized true true)
           (config_weights true true)).
Defined.

Lemma still_mean (c x0 x1 x2 x3 x4 : R) (L : Mat) :
  shaped 7 7 L ->
  weighted_mean sigma_weights
    (map (fun i =>
            motion 0 (col (sigma_points [x0; x1; x2; x3; x4; 0; 0] c L) i))
         (seq 0 15))
    sigma_indices [0; 0; 0; 0; 0] = [x0; x1; x2; x3; x4].
Proof.
  intros HL. mat_of_shape HL.
  cbv beta iota zeta delta
    [sigma_points col vadd vsub vscale vzip nth map seq app].
  rewrite !motion_zero by reflexivity.
  mean_cbv. list_split; field.
Qed.

(** X12: a prediction over no elapsed time keeps the mean: with the
    constructor's weights the predicted mean is the mean itself, whatever
    the covariance. *)
Theorem Prediction_zero_time_keeps_mean (s : UKF) :
  sized s -> weights_ s = sigma_weights -> x_ (Prediction 0 s) = x_ s.
Proof.
  intros Hs Hw.
  destruct (Prediction_mean_points 0 s Hs Hw) as (L & HL & E).
  rewrite E. clear E.
  assert (Hx : length (x_ s) = 5%nat) by apply Hs.
  generalize dependent (x_ s). intros x Hx.
  list_of_length Hx.
  apply (still_mean (sqrt (lambda_ s + 7)) a a0 a1 a2 a3 L HL).
Qed.

Lemma Prediction_zero_time_keeps_mean_witness :
  x_ (Prediction 0 UKF_new) = x_ UKF_new.
Proof.
  apply (Prediction_zero_time_keeps_mean UKF_new (UKF_new_sized true true)
           (config_weights true true)).
Defined.

(** ** A reading that agrees with the prediction *)

Lemma vsub_self (z : Vec) : vsub z z = vzero (length z).
Proof.
  induction z as [|a z IH]; [reflexivity|].
  unfold vsub, vzero in *. simpl. rewrite IH. f_equal. ring.
Qed.

Lemma normalize_at_vzero (n : nat) : normalize_at 1 (vzero n) = vzero n.
Proof.
  unfold normalize_at, vget, vzero.
  destruct n as [|[|n]]; [reflexivity | reflexivity|].
  cbn [repeat nth vset]. rewrite normalize_angle_0. reflexivity.
Qed.

Lemma dot_vzero_r (n : nat) : forall u, dot u (vzero n) = 0.
Proof.
  unfold vzero. induction n as [|n IH]; intros [|a u]; try reflexivity.
  cbn [repeat dot]. rewrite IH. ring.
Qed.

Lemma dot_vzero_l (n : nat) : forall u, dot (vzero n) u = 0.
Proof.
  unfold vzero. induction n as [|n IH]; intros [|a u]; try reflexivity.
  cbn [repeat dot]. rewrite IH. ring.
Qed.

Lemma mvmul_vzero (M : Mat) (n : nat) : mvmul M (vzero n) = vzero (rows M).
Proof.
  unfold mvmul.
  assert (H : forall j k,
            map (fun r => dot (row M r) (vzero n)) (seq k j) = vzero j).
  { induction j as [|j IH]; intros k; [reflexivity|].
    unfold vzero in *. cbn [seq map repeat].
    rewrite IH. f_equal. apply dot_vzero_r. }
  apply H.
Qed.

Lemma vadd_vzero (n : nat) : forall x, length x = n -> vadd x (vzero n) = x.
Proof.
  unfold vadd, vzero. induction n as [|n IH]; intros [|a x] H;
    try discriminate; [reflexivity|].
  cbn [repeat vzip]. rewrite IH by (injection H; auto). f_equal. ring.
Qed.

Lemma measurement_sized (Rn : Mat) (nz : nat) (t : UKF) :
  n_x_ t = 5%Z -> n_aug_ t = 7%Z -> n_z t = Z.of_nat nz ->
  length (x_ t) = 5%nat -> shaped 5 15 (Xsig_pred_ t) ->
  shaped nz 15 (Zsig_ t) -> length (z_pred_ t) = nz ->
  shaped nz nz (S_ t) -> shaped nz nz Rn -> (0 < nz)%nat ->
  let v := predictMeasurment Rn t in
  length (x_ v) = 5%nat /\ length (z_pred_ v) = nz /\
  shaped 5 nz (kalman_gain v).
Proof.
  intros Hnx Hna Hz Hx HX HZ Hzp HS HR Hnz. cbv zeta.
  destruct (predictMeasurment_sized Rn nz t Hna HZ Hzp HS HR) as [Hm Hc].
  split; [rewrite predictMeasurment_frame by frame_tac; exact Hx|].
  split; [exact Hm|].
  apply kalman_gain_shaped;
    rewrite ?(predictMeasurment_frame n_x_), ?(predictMeasurment_frame n_aug_),
      ?(predictMeasurment_frame n_z), ?(predictMeasurment_frame x_),
      ?(predictMeasurment_frame Xsig_pred_),
      ?(predictMeasurment_frame Zsig_) by frame_tac;
    assumption.
Qed.

Lemma predicted_sized (delta_t : R) (m : MeasurementPackage) (s : UKF) :
  well_sized s ->
  let v := predicted delta_t m s in
  exists nz : nat,
    (0 < nz)%nat /\ length (x_ v) = 5%nat /\ length (z_pred_ v) = nz /\
    shaped 5 nz (kalman_gain v).
Proof.
  intros Hs. cbv zeta. unfold predicted. cbv zeta.
  assert (Hp : well_sized (set_previous_timestamp_ (timestamp_ m) s)).
  { destruct Hs as ([Hnx Hna Hx HP Hxa HPa HXp HXa Hw] & Hl & Hr).
    split; [constructor | split]; assumption. }
  apply (Prediction_well_sized delta_t) in Hp.
  set (u := Prediction delta_t (set_previous_timestamp_ (timestamp_ m) s))
    in *.
  destruct Hp as ([Hnx Hna Hx HP Hxa HPa HXp HXa Hw] & Hl & Hr).
  destruct (sensor_type_ m).
  - exists 2%nat. split; [lia|]. apply measurement_sized; try assumption; try reflexivity.
    + rewrite lidar_space_Zsig, Hna.
      apply (shaped_block00 2 5 15); [exact HXp | lia].
    + apply (shaped_mzero 2 2).
    + lia.
  - exists 3%nat. split; [lia|].
    apply measurement_sized;
      rewrite ?(radar_space_frame n_x_), ?(radar_space_frame n_aug_),
        ?(radar_space_frame x_), ?(radar_space_frame Xsig_pred_),
        ?(radar_space_frame R_radar_) by frame_tac;
      try assumption.
    + apply radar_space_n_z.
    + rewrite radar_space_columns by exact Hna.
      split; [reflexivity|].
      apply Forall_map, Forall_forall. intros i _. reflexivity.
    + rewrite (proj1 (radar_space_storage u)). reflexivity.
    + rewrite (proj2 (radar_space_storage u)). apply (shaped_mzero 3 3).
    + lia.
Qed.

(** X13: a reading that agrees with the predicted measurement does not
    move the estimate: the mean after the call is the predicted mean and
    the consistency statistic stored for the sensor is 0. *)
Theorem reading_as_predicted_keeps_mean (m : MeasurementPackage) (s : UKF) :
  well_sized s -> is_initialized_ s = true ->
  let v := predicted (elapsed m s) m s in
  raw_measurements_ m = z_pred_ v ->
  x_ (ProcessMeasurement m s) = x_ v /\
  match sensor_type_ m with
  | LASER => NIS_lidar (ProcessMeasurement m s) = 0
  | RADAR => NIS_radar (ProcessMeasurement m s) = 0
  end.
Proof.
  intros Hs Hi. cbv zeta. intros Hz.
  rewrite ProcessMeasurement_process_with by exact Hi.
  rewrite process_with_predicted.
  destruct (predicted_sized (elapsed m s) m s Hs) as (nz & Hnz & Hx & Hzp & HK).
  set (v := predicted (elapsed m s) m s) in *.
  assert (Hr : residual m v = vzero nz).
  { unfold residual. cbv zeta. rewrite Hz, vsub_self, Hzp.
    apply normalize_at_vzero. }
  split.
  - rewrite UpdateMeasurment_mean, Hr, mvmul_vzero.
    rewrite (shaped_rows 5 nz _ HK Hnz).
    apply vadd_vzero, Hx.
  - pose proof (UpdateMeasurment_NIS m v) as H. unfold nis in H.
    cbv zeta in H. rewrite Hr in H.
    destruct (sensor_type_ m); destruct H as [H _]; rewrite H;
      apply dot_vzero_l.
Qed.

Lemma started_z_pred (ul ur : bool) (t : Z) (delta_t : R)
    (m : MeasurementPackage) :
  sensor_type_ m = LASER ->
  z_pred_ (predicted delta_t m (started ul ur t)) = [1; 1].
Proof.
  intros Hm. rewrite started_predicted by exact Hm. cbv zeta.
  apply (rest_z_pred 1 1 (sqrt 5) delta_t
           (sqrt 0.3) (sqrt 0.2) (sqrt 0.3) (sqrt 1) (sqrt 1)
           (sqrt (6 * 6)) (sqrt (PI / 6 * (PI / 6)))
           (0.15 * 0.15) (0.15 * 0.15) _
           (started_sized ul ur t _) (started_x ul ur t _)
           (started_weights ul ur t _)
           (started_spread ul ur t _) (started_factor ul ur t _)
           (started_R ul ur t _)).
Qed.

Lemma started_well_sized (ul ur : bool) (t : Z) :
  well_sized (started ul ur t).
Proof. split; [sized_tac | split; shaped_tac]. Qed.

Lemma reading_as_predicted_keeps_mean_witness :
  let m := laser 1000000 1 1 in
  let s := started true true 0 in
  x_ (ProcessMeasurement m s) = x_ (predicted (elapsed m s) m s) /\
  NIS_lidar (ProcessMeasurement m s) = 0.
Proof.
  cbv zeta.
  apply (reading_as_predicted_keeps_mean (laser 1000000 1 1)
           (started true true 0) (started_well_sized true true 0) eq_refl).
  symmetry. apply started_z_pred. reflexivity.
Defined.

(** ** Symmetry of the covariances *)

Ltac cov_cbv :=
  cbv beta iota zeta delta
    [weighted_cov sigma_indices normalize_at transpose rows row
     madd msub mzip outer mmul mvmul dot mzero vzero mfill vfill
     col vadd vsub vscale vzip vget vset nth map seq app fold_left hd length
     repeat].

Ltac cov_cbv_in H :=
  cbv beta iota zeta delta
    [transpose rows row col vget nth map seq hd length] in H.

Lemma mfill_shaped (r c : nat) (M : Mat) :
  shaped r c M -> mfill 0 M = mzero r c.
Proof.
  intros [Hl Hf]. unfold mfill, mzero. subst c.
  induction Hf as [|v M Hv HM IH]; [reflexivity|].
  simpl. rewrite IH. f_equal.
  unfold vfill, vzero. subst r. clear.
  induction v as [|a v IH]; [reflexivity|]. simpl. rewrite IH. reflexivity.
Qed.

Lemma weighted_cov_symmetric5 (W : Vec) (X : Mat) (mean : Vec) :
  shaped 5 15 X -> length mean = 5%nat ->
  symmetric (weighted_cov W X mean 3 sigma_indices (mzero 5 5)).
Proof.
  intros HX Hm. mat_of_shape HX. list_of_length Hm.
  unfold symmetric. cov_cbv. list_split; ring.
Qed.

Lemma weighted_cov_symmetric2 (W : Vec) (Z : Mat) (z : Vec) (Rn : Mat) :
  shaped 2 15 Z -> length z = 2%nat -> shaped 2 2 Rn -> symmetric Rn ->
  symmetric (madd (weighted_cov W Z z 1 sigma_indices (mzero 2 2)) Rn).
Proof.
  intros HZ Hz HR HS. mat_of_shape HZ. list_of_length Hz. mat_of_shape HR.
  unfold symmetric in *. cov_cbv_in HS. cov_cbv.
  injection HS; intros; subst.
  list_split; ring.
Qed.

Lemma weighted_cov_symmetric3 (W : Vec) (Z : Mat) (z : Vec) (Rn : Mat) :
  shaped 3 15 Z -> length z = 3%nat -> shaped 3 3 Rn -> symmetric Rn ->
  symmetric (madd (weighted_cov W Z z 1 sigma_indices (mzero 3 3)) Rn).
Proof.
  intros HZ Hz HR HS. mat_of_shape HZ. list_of_length Hz. mat_of_shape HR.
  unfold symmetric in *. cov_cbv_in HS. cov_cbv.
  injection HS; intros; subst.
  list_split; ring.
Qed.

Lemma correction_symmetric2 (P K S : Mat) :
  shaped 5 5 P -> shaped 5 2 K -> shaped 2 2 S ->
  symmetric P -> symmetric S ->
  symmetric (msub P (mmul (mmul K S) (transpose K))).
Proof.
  intros HP HK HS SP SS. mat_of_shape HP. mat_of_shape HK. mat_of_shape HS.
  unfold symmetric in *. cov_cbv_in SP. cov_cbv_in SS. cov_cbv.
  injection SS; intros; subst.
  injection SP; intros; subst.
  list_split; ring.
Qed.

Lemma correction_symmetric3 (P K S : Mat) :
  shaped 5 5 P -> shaped 5 3 K -> shaped 3 3 S ->
  symmetric P -> symmetric S ->
  symmetric (msub P (mmul (mmul K S) (transpose K))).
Proof.
  intros HP HK HS SP SS. mat_of_shape HP. mat_of_shape HK. mat_of_shape HS.
  unfold symmetric in *. cov_cbv_in SP. cov_cbv_in SS. cov_cbv.
  injection SS; intros; subst.
  injection SP; intros; subst.
  list_split; ring.
Qed.

Lemma Prediction_symmetric (delta_t : R) (s : UKF) :
  sized s -> symmetric (P_ (Prediction delta_t s)).
Proof.
  intros Hs. pose proof (Prediction_sized delta_t s Hs) as Hp.
  rewrite Prediction_cov, (range_sigma s) by apply Hs.
  rewrite (mfill_shaped 5 5) by apply Hs.
  apply weighted_cov_symmetric5; apply Hp.
Qed.

Lemma correction_symmetric (m : MeasurementPackage) (Rn : Mat) (nz : nat)
    (t : UKF) :
  nz = 2%nat \/ nz = 3%nat ->
  n_x_ t = 5%Z -> n_aug_ t = 7%Z -> n_z t = Z.of_nat nz ->
  length (x_ t) = 5%nat -> shaped 5 5 (P_ t) -> shaped 5 15 (Xsig_pred_ t) ->
  shaped nz 15 (Zsig_ t) -> length (z_pred_ t) = nz ->
  shaped nz nz (S_ t) -> shaped nz nz Rn ->
  symmetric (P_ t) -> symmetric Rn ->
  symmetric (P_ (UpdateMeasurment m (predictMeasurment Rn t))).
Proof.
  intros Hnz Hnx Hna Hz Hx HP HX HZ Hzp HS HR SP SR.
  assert (Hpos : (0 < nz)%nat) by (destruct Hnz; subst; lia).
  destruct (measurement_sized Rn nz t Hnx Hna Hz Hx HX HZ Hzp HS HR Hpos)
    as (_ & Hzp' & HK).
  destruct (predictMeasurment_sized Rn nz t Hna HZ Hzp HS HR) as [_ HS'].
  assert (SS : symmetric (S_ (predictMeasurment Rn t))).
  { rewrite predictMeasurment_cov, (range_sigma t Hna).
    rewrite (mfill_shaped nz nz) by exact HS.
    destruct Hnz; subst nz;
      [apply weighted_cov_symmetric2 | apply weighted_cov_symmetric3];
      assumption. }
  rewrite UpdateMeasurment_cov.
  rewrite (predictMeasurment_frame P_) by frame_tac.
  destruct Hnz; subst nz;
    [apply correction_symmetric2 | apply correction_symmetric3];
    assumption.
Qed.

Lemma UpdateLidar_symmetric (m : MeasurementPackage) (u : UKF) :
  well_sized u -> symmetric (P_ u) -> symmetric (R_lidar_ u) ->
  symmetric (P_ (UpdateLidar m u)).
Proof.
  intros (Hs & Hl & Hr) SP SR. rewrite UpdateLidar_stages.
  destruct Hs as [Hnx Hna Hx HP Hxa HPa HXp HXa Hw].
  apply (correction_symmetric m _ 2); try assumption; try reflexivity.
  - left. reflexivity.
  - rewrite lidar_space_Zsig, Hna.
    apply (shaped_block00 2 5 15); [exact HXp | lia].
  - apply (shaped_mzero 2 2).
Qed.

Lemma UpdateRadar_symmetric (m : MeasurementPackage) (u : UKF) :
  well_sized u -> symmetric (P_ u) -> symmetric (R_radar_ u) ->
  symmetric (P_ (UpdateRadar m u)).
Proof.
  intros (Hs & Hl & Hr) SP SR. rewrite UpdateRadar_stages.
  destruct Hs as [Hnx Hna Hx HP Hxa HPa HXp HXa Hw].
  apply (correction_symmetric m _ 3);
    rewrite ?(radar_space_frame n_x_), ?(radar_space_frame n_aug_),
      ?(radar_space_frame x_), ?(radar_space_frame P_),
      ?(radar_space_frame Xsig_pred_),
      ?(radar_space_frame R_radar_) by frame_tac;
    try assumption.
  - right. reflexivity.
  - apply radar_space_n_z.
  - rewrite radar_space_columns by exact Hna.
    split; [reflexivity|].
    apply Forall_map, Forall_forall. intros i _. reflexivity.
  - rewrite (proj1 (radar_space_storage u)). reflexivity.
  - rewrite (proj2 (radar_space_storage u)). apply (shaped_mzero 3 3).
Qed.

Lemma ProcessMeasurement_symmetric (m : MeasurementPackage) (s : UKF) :
  well_sized s -> symmetric (R_lidar_ s) -> symmetric (R_radar_ s) ->
  symmetric (P_ s) -> symmetric (P_ (ProcessMeasurement m s)).
Proof.
  intros Hs Sl Sr SP. destruct (is_initialized_ s) eqn:Hi.
  - rewrite ProcessMeasurement_initialized by exact Hi. cbv zeta.
    assert (Hp : well_sized (set_previous_timestamp_ (timestamp_ m) s)).
    { destruct Hs as ([Hnx Hna Hx HP Hxa HPa HXp HXa Hw] & Hl & Hr).
      split; [constructor | split]; assumption. }
    pose proof (Prediction_well_sized
                  (IZR (timestamp_ m - previous_timestamp_ s) / 1000000.0)
                  _ Hp) as Hu.
    pose proof (Prediction_symmetric
                  (IZR (timestamp_ m - previous_timestamp_ s) / 1000000.0)
                  _ (proj1 Hp)) as Su.
    destruct (sensor_type_ m).
    + apply UpdateLidar_symmetric; [exact Hu | exact Su|].
      rewrite Prediction_frame by frame_tac. exact Sl.
    + apply UpdateRadar_symmetric; [exact Hu | exact Su|].
      rewrite Prediction_frame by frame_tac. exact Sr.
  - rewrite ProcessMeasurement_uninitialized by exact Hi.
    destruct (sensor_type_ m); exact SP.
Qed.

(** X14: the covariance stays symmetric: from a state of the right sizes
    whose covariance and two measurement noise matrices are symmetric, the
    covariance is symmetric after any sequence of readings. *)
Theorem run_keeps_covariance_symmetric (ms : list MeasurementPackage)
    (s : UKF) :
  well_sized s -> symmetric (R_lidar_ s) -> symmetric (R_radar_ s) ->
  symmetric (P_ s) -> symmetric (P_ (run ms s)).
Proof.
  unfold run. revert s.
  induction ms as [|m ms IH]; intros s Hs Sl Sr SP; [exact SP|].
  simpl. apply IH.
  - apply ProcessMeasurement_well_sized, Hs.
  - rewrite ProcessMeasurement_frame by configuration_tac. exact Sl.
  - rewrite ProcessMeasurement_frame by configuration_tac. exact Sr.
  - apply ProcessMeasurement_symmetric; assumption.
Qed.

Lemma config_symmetric (ul ur : bool) :
  symmetric (R_lidar_ (UKF_config ul ur)) /\
  symmetric (R_radar_ (UKF_config ul ur)) /\
  symmetric (P_ (UKF_config ul ur)).
Proof.
  unfold symmetric, UKF_config. ukf_cbv. cov_cbv. repeat split.
Qed.

Lemma run_keeps_covariance_symmetric_witness :
  symmetric
    (P_ (run [laser 0 1 1; radar 1000000 1 0 0; laser 2000000 1 1] UKF_new)).
Proof.
  apply run_keeps_covariance_symmetric.
  - split; [apply UKF_new_sized | split; shaped_tac].
  - apply (config_symmetric true true).
  - apply (config_symmetric true true).
  - apply (config_symmetric true true).
Defined.

(** ** The members that are only working storage *)

Lemma Prediction_ext (delta_t : R) (s s' : UKF) :
  sized s -> sized s' ->
  x_ s = x_ s' -> P_ s = P_ s' -> lambda_ s = lambda_ s' ->
  std_a_ s = std_a_ s' -> std_yawdd_ s = std_yawdd_ s' ->
  weights_ s = weights_ s' ->
  Xsig_pred_ (Prediction delta_t s) = Xsig_pred_ (Prediction delta_t s') /\
  x_ (Prediction delta_t s) = x_ (Prediction delta_t s') /\
  P_ (Prediction delta_t s) = P_ (Prediction delta_t s').
Proof.
  intros Hs Hs' Ex EP El Ea Ey Ew.
  assert (EX : Xsig_pred_ (Prediction delta_t s) =
               Xsig_pred_ (Prediction delta_t s')).
  { rewrite !Prediction_points by assumption.
    rewrite !augment_cov by (try apply Hs; apply Hs').
    unfold augmented_entry. rewrite Ex, EP, El, Ea, Ey. reflexivity. }
  assert (Em : x_ (Prediction delta_t s) = x_ (Prediction delta_t s')).
  { rewrite !Prediction_mean, EX, Ex, Ew.
    rewrite (range_sigma s), (range_sigma s') by (try apply Hs; apply Hs').
    reflexivity. }
  split; [exact EX|]. split; [exact Em|].
  rewrite !Prediction_cov, EX, Em, EP, Ew.
  rewrite (range_sigma s), (range_sigma s') by (try apply Hs; apply Hs').
  reflexivity.
Qed.

Lemma predictMeasurment_ext (Rn : Mat) (t t' : UKF) :
  weights_ t = weights_ t' -> n_aug_ t = n_aug_ t' ->
  Zsig_ t = Zsig_ t' -> z_pred_ t = z_pred_ t' -> S_ t = S_ t' ->
  z_pred_ (predictMeasurment Rn t) = z_pred_ (predictMeasurment Rn t') /\
  S_ (predictMeasurment Rn t) = S_ (predictMeasurment Rn t').
Proof.
  intros Ew En EZ Ez ES.
  assert (Em : z_pred_ (predictMeasurment Rn t) =
               z_pred_ (predictMeasurment Rn t')).
  { rewrite !predictMeasurment_mean, Ew, En, EZ, Ez. reflexivity. }
  split; [exact Em|].
  rewrite !predictMeasurment_cov, Em, Ew, En, EZ, ES. reflexivity.
Qed.

Lemma UpdateMeasurment_ext (m : MeasurementPackage) (v v' : UKF) :
  n_x_ v = n_x_ v' -> n_aug_ v = n_aug_ v' -> n_z v = n_z v' ->
  weights_ v = weights_ v' -> x_ v = x_ v' -> P_ v = P_ v' ->
  Xsig_pred_ v = Xsig_pred_ v' -> Zsig_ v = Zsig_ v' ->
  z_pred_ v = z_pred_ v' -> S_ v = S_ v' ->
  x_ (UpdateMeasurment m v) = x_ (UpdateMeasurment m v') /\
  P_ (UpdateMeasurment m v) = P_ (UpdateMeasurment m v').
Proof.
  intros Enx Ena Enz Ew Ex EP EX EZ Ez ES.
  assert (EK : kalman_gain v = kalman_gain v').
  { unfold kalman_gain. rewrite !cross_correlation_sum.
    rewrite Enx, Ena, Enz, Ew, Ex, EX, EZ, Ez, ES. reflexivity. }
  rewrite !UpdateMeasurment_mean, !UpdateMeasurment_cov.
  unfold residual. cbv zeta. rewrite EK, Ex, EP, Ez, ES.
  split; reflexivity.
Qed.

Lemma correction_ext (m : MeasurementPackage) (Rn : Mat) (t t' : UKF) :
  n_x_ t = n_x_ t' -> n_aug_ t = n_aug_ t' -> n_z t = n_z t' ->
  weights_ t = weights_ t' -> x_ t = x_ t' -> P_ t = P_ t' ->
  Xsig_pred_ t = Xsig_pred_ t' -> Zsig_ t = Zsig_ t' ->
  z_pred_ t = z_pred_ t' -> S_ t = S_ t' ->
  x_ (UpdateMeasurment m (predictMeasurment Rn t)) =
    x_ (UpdateMeasurment m (predictMeasurment Rn t')) /\
  P_ (UpdateMeasurment m (predictMeasurment Rn t)) =
    P_ (UpdateMeasurment m (predictMeasurment Rn t')).
Proof.
  intros Enx Ena Enz Ew Ex EP EX EZ Ez ES.
  destruct (predictMeasurment_ext Rn t t' Ew Ena EZ Ez ES) as [Em Ec].
  apply UpdateMeasurment_ext;
    rewrite ?(predictMeasurment_frame n_x_), ?(predictMeasurment_frame n_aug_),
      ?(predictMeasurment_frame n_z), ?(predictMeasurment_frame weights_),
      ?(predictMeasurment_frame x_), ?(predictMeasurment_frame P_),
      ?(predictMeasurment_frame Xsig_pred_),
      ?(predictMeasurment_frame Zsig_) by frame_tac;
    assumption.
Qed.

Lemma UpdateLidar_ext (m : MeasurementPackage) (u u' : UKF) :
  n_x_ u = n_x_ u' -> n_aug_ u = n_aug_ u' ->
  weights_ u = weights_ u' -> x_ u = x_ u' -> P_ u = P_ u' ->
  Xsig_pred_ u = Xsig_pred_ u' -> R_lidar_ u = R_lidar_ u' ->
  x_ (UpdateLidar m u) = x_ (UpdateLidar m u') /\
  P_ (UpdateLidar m u) = P_ (UpdateLidar m u').
Proof.
  intros Enx Ena Ew Ex EP EX ER. rewrite !UpdateLidar_stages.
  rewrite !(lidar_space_frame R_lidar_) by frame_tac. rewrite ER.
  apply correction_ext; try assumption; try reflexivity.
  rewrite !lidar_space_Zsig, Ena, EX. reflexivity.
Qed.

Lemma UpdateRadar_ext (m : MeasurementPackage) (u u' : UKF) :
  n_aug_ u = 7%Z -> n_aug_ u' = 7%Z ->
  n_x_ u = n_x_ u' ->
  weights_ u = weights_ u' -> x_ u = x_ u' -> P_ u = P_ u' ->
  Xsig_pred_ u = Xsig_pred_ u' -> R_radar_ u = R_radar_ u' ->
  x_ (UpdateRadar m u) = x_ (UpdateRadar m u') /\
  P_ (UpdateRadar m u) = P_ (UpdateRadar m u').
Proof.
  intros Hna Hna' Enx Ew Ex EP EX ER. rewrite !UpdateRadar_stages.
  rewrite !(radar_space_frame R_radar_) by frame_tac. rewrite ER.
  apply correction_ext;
    rewrite ?(radar_space_frame n_x_), ?(radar_space_frame n_aug_),
      ?(radar_space_frame weights_), ?(radar_space_frame x_),
      ?(radar_space_frame P_), ?(radar_space_frame Xsig_pred_) by frame_tac;
    try assumption.
  - rewrite Hna, Hna'. reflexivity.
  - rewrite !radar_space_n_z. reflexivity.
  - rewrite !radar_space_columns, EX by assumption. reflexivity.
  - rewrite (proj1 (radar_space_storage u)), (proj1 (radar_space_storage u')).
    reflexivity.
  - rewrite (proj2 (radar_space_storage u)), (proj2 (radar_space_storage u')).
    reflexivity.
Qed.

Lemma ProcessMeasurement_marks (m : MeasurementPackage) (s : UKF) :
  is_initialized_ (ProcessMeasurement m s) = true /\
  previous_timestamp_ (ProcessMeasurement m s) = timestamp_ m.
Proof.
  destruct (is_initialized_ s) eqn:Hi.
  - rewrite ProcessMeasurement_initialized by exact Hi. cbv zeta.
    destruct (sensor_type_ m);
      rewrite ?(UpdateLidar_frame is_initialized_),
        ?(UpdateLidar_frame previous_timestamp_),
        ?(UpdateRadar_frame is_initialized_),
        ?(UpdateRadar_frame previous_timestamp_) by frame_tac;
      rewrite (Prediction_frame is_initialized_),
        (Prediction_frame previous_timestamp_) by frame_tac;
      split; [exact Hi | reflexivity | exact Hi | reflexivity].
  - rewrite ProcessMeasurement_uninitialized by exact Hi.
    split; reflexivity.
Qed.

Lemma ProcessMeasurement_same_belief (m : MeasurementPackage) (s s' : UKF) :
  sized s -> sized s' -> same_belief s s' ->
  same_belief (ProcessMeasurement m s) (ProcessMeasurement m s').
Proof.
  intros Hs Hs' (Ei & Et & Ex & EP & El & Ea & Ey & Ew & ERl & ERr).
  assert (Hb : x_ (ProcessMeasurement m s) = x_ (ProcessMeasurement m s') /\
               P_ (ProcessMeasurement m s) = P_ (ProcessMeasurement m s')).
  { destruct (is_initialized_ s) eqn:Hi.
    - rewrite (ProcessMeasurement_initialized m s) by exact Hi.
      rewrite (ProcessMeasurement_initialized m s') by (symmetry; exact Ei).
      cbv zeta. rewrite <- Et.
      set (dt := IZR (timestamp_ m - previous_timestamp_ s) / 1000000.0).
      set (p := set_previous_timestamp_ (timestamp_ m) s).
      set (p' := set_previous_timestamp_ (timestamp_ m) s').
      assert (Hp : sized p) by (destruct Hs; constructor; assumption).
      assert (Hp' : sized p') by (destruct Hs'; constructor; assumption).
      destruct (Prediction_ext dt p p' Hp Hp' Ex EP El Ea Ey Ew)
        as (EX & Em & Ec).
      pose proof (Prediction_sized dt p Hp) as Hu.
      pose proof (Prediction_sized dt p' Hp') as Hu'.
      destruct (sensor_type_ m).
      + apply UpdateLidar_ext; try assumption.
        * rewrite (sized_n_x _ Hu), (sized_n_x _ Hu'). reflexivity.
        * rewrite (sized_n_aug _ Hu), (sized_n_aug _ Hu'). reflexivity.
        * rewrite !(Prediction_frame weights_) by frame_tac. exact Ew.
        * rewrite !(Prediction_frame R_lidar_) by frame_tac. exact ERl.
      + apply UpdateRadar_ext; try assumption.
        * apply Hu.
        * apply Hu'.
        * rewrite (sized_n_x _ Hu), (sized_n_x _ Hu'). reflexivity.
        * rewrite !(Prediction_frame weights_) by frame_tac. exact Ew.
        * rewrite !(Prediction_frame R_radar_) by frame_tac. exact ERr.
    - rewrite (ProcessMeasurement_uninitialized m s) by exact Hi.
      rewrite (ProcessMeasurement_uninitialized m s')
        by (symmetry; exact Ei).
      destruct (sensor_type_ m); split; try reflexivity; exact EP. }
  destruct Hb as [Hx HP].
  destruct (ProcessMeasurement_marks m s) as [Hi1 Ht1].
  destruct (ProcessMeasurement_marks m s') as [Hi2 Ht2].
  unfold same_belief.
  rewrite Hi1, Hi2, Ht1, Ht2, Hx, HP.
  rewrite !(ProcessMeasurement_frame lambda_),
    !(ProcessMeasurement_frame std_a_), !(ProcessMeasurement_frame std_yawdd_),
    !(ProcessMeasurement_frame weights_), !(ProcessMeasurement_frame R_lidar_),
    !(ProcessMeasurement_frame R_radar_) by configuration_tac.
  repeat split; assumption.
Qed.

(** X15: the augmented mean and covariance, the sigma point matrices, the
    members in measurement space and the NIS values are working storage
    only: two filters of the right sizes that agree on the mean, the
    covariance, the initialisation flag, the time stamp and the constants
    of the constructor still agree on all of these after the same sequence
    of readings, whatever their other members held. *)
Theorem run_ignores_working_storage (ms : list MeasurementPackage)
    (s s' : UKF) :
  well_sized s -> well_sized s' -> same_belief s s' ->
  same_belief (run ms s) (run ms s').
Proof.
  unfold run. revert s s'.
  induction ms as [|m ms IH]; intros s s' Hs Hs' Hb; [exact Hb|].
  simpl. apply IH.
  - apply ProcessMeasurement_well_sized, Hs.
  - apply ProcessMeasurement_well_sized, Hs'.
  - apply ProcessMeasurement_same_belief; [apply Hs | apply Hs' | exact Hb].
Qed.

Lemma run_ignores_working_storage_witness :
  let ms := [laser 0 1 1; radar 1000000 1 0 0] in
  let s' :=
    set_x_aug_ [1; 1; 1; 1; 1; 1; 1] (set_Zsig_ [[9]] (set_NIS_lidar 4 UKF_new))
  in
  same_belief (run ms UKF_new) (run ms s').
Proof.
  cbv zeta. apply run_ignores_working_storage.
  - split; [apply UKF_new_sized | split; shaped_tac].
  - split; [sized_tac | split; shaped_tac].
  - repeat split.
Defined.

(** ** The gain *)

Ltac same_polynomial H :=
  match goal with
  | |- ?P <> 0 =>
      match type of H with
      | ?Q <> 0 => replace P with Q by ring; exact H
      end
  end.

Lemma gain_solves2 (T S : Mat) :
  shaped 5 2 T -> shaped 2 2 S -> Inverse.det S <> 0 ->
  mmul (mmul T (Inverse.inverse S)) S = T.
Proof.
  intros HT HS Hd. mat_of_shape HT. mat_of_shape HS.
  revert Hd. inverse_cbv. intros Hd.
  list_split; field; same_polynomial Hd.
Qed.

Lemma gain_solves3 (T S : Mat) :
  shaped 5 3 T -> shaped 3 3 S -> Inverse.det S <> 0 ->
  mmul (mmul T (Inverse.inverse S)) S = T.
Proof.
  intros HT HS Hd. mat_of_shape HT. mat_of_shape HS.
  revert Hd. inverse_cbv. intros Hd.
  list_split; field; same_polynomial Hd.
Qed.

Lemma measurement_shapes (Rn : Mat) (nz : nat) (t : UKF) :
  n_x_ t = 5%Z -> n_aug_ t = 7%Z -> n_z t = Z.of_nat nz ->
  length (x_ t) = 5%nat -> shaped 5 15 (Xsig_pred_ t) ->
  shaped nz 15 (Zsig_ t) -> length (z_pred_ t) = nz ->
  shaped nz nz (S_ t) -> shaped nz nz Rn ->
  let v := predictMeasurment Rn t in
  shaped 5 nz (cross_correlation v) /\ shaped nz nz (S_ v).
Proof.
  intros Hnx Hna Hz Hx HX HZ Hzp HS HR. cbv zeta.
  destruct (predictMeasurment_sized Rn nz t Hna HZ Hzp HS HR) as [Hm Hc].
  split; [|exact Hc].
  rewrite cross_correlation_sum.
  rewrite (predictMeasurment_frame n_x_), (predictMeasurment_frame n_aug_),
    (predictMeasurment_frame n_z), (predictMeasurment_frame x_),
    (predictMeasurment_frame Xsig_pred_), (predictMeasurment_frame Zsig_),
    (predictMeasurment_frame weights_) by frame_tac.
  rewrite Hnx, Hz, Nat2Z.id.
  apply weighted_cross_shaped; auto.
  - intros i Hi. apply (shaped_col 5 15); [exact HX|].
    apply (in_sigma_range t); assumption.
  - intros i Hi. apply (shaped_col nz 15); [exact HZ|].
    apply (in_sigma_range t); assumption.
  - apply shaped_mfill, (shaped_mzero 5 nz).
Qed.

Lemma predicted_shapes (delta_t : R) (m : MeasurementPackage) (s : UKF) :
  well_sized s ->
  let v := predicted delta_t m s in
  exists nz : nat,
    (nz = 2%nat \/ nz = 3%nat) /\
    shaped 5 nz (cross_correlation v) /\ shaped nz nz (S_ v).
Proof.
  intros Hs. cbv zeta. unfold predicted. cbv zeta.
  assert (Hp : well_sized (set_previous_timestamp_ (timestamp_ m) s)).
  { destruct Hs as ([Hnx Hna Hx HP Hxa HPa HXp HXa Hw] & Hl & Hr).
    split; [constructor | split]; assumption. }
  apply (Prediction_well_sized delta_t) in Hp.
  set (u := Prediction delta_t (set_previous_timestamp_ (timestamp_ m) s))
    in *.
  destruct Hp as ([Hnx Hna Hx HP Hxa HPa HXp HXa Hw] & Hl & Hr).
  destruct (sensor_type_ m).
  - exists 2%nat. split; [left; reflexivity|].
    apply measurement_shapes; try assumption; try reflexivity.
    + rewrite lidar_space_Zsig, Hna.
      apply (shaped_block00 2 5 15); [exact HXp | lia].
    + apply (shaped_mzero 2 2).
  - exists 3%nat. split; [right; reflexivity|].
    apply measurement_shapes;
      rewrite ?(radar_space_frame n_x_), ?(radar_space_frame n_aug_),
        ?(radar_space_frame x_), ?(radar_space_frame Xsig_pred_),
        ?(radar_space_frame R_radar_) by frame_tac;
      try assumption.
    + apply radar_space_n_z.
    + rewrite radar_space_columns by exact Hna.
      split; [reflexivity|].
      apply Forall_map, Forall_forall. intros i _. reflexivity.
    + rewrite (proj1 (radar_space_storage u)). reflexivity.
    + rewrite (proj2 (radar_space_storage u)). apply (shaped_mzero 3 3).
Qed.

(** X16: when the determinant of the innovation covariance S is not zero,
    the gain K = Tc * S^-1 of the correction solves K * S = Tc, so that
    the covariance after the correction, P - K * S * K^T, is
    P - Tc * K^T, for a LASER and for a RADAR reading. *)
Theorem kalman_gain_solves (delta_t : R) (m : MeasurementPackage) (s : UKF) :
  well_sized s ->
  let v := predicted delta_t m s in
  Inverse.det (S_ v) <> 0 ->
  mmul (kalman_gain v) (S_ v) = cross_correlation v /\
  P_ (process_with delta_t m s) =
    msub (P_ v) (mmul (cross_correlation v) (transpose (kalman_gain v))).
Proof.
  intros Hs. cbv zeta. intros Hd.
  destruct (predicted_shapes delta_t m s Hs) as (nz & Hnz & HT & HS).
  assert (E : mmul (kalman_gain (predicted delta_t m s))
                (S_ (predicted delta_t m s)) =
              cross_correlation (predicted delta_t m s)).
  { unfold kalman_gain.
    destruct Hnz; subst nz; [apply gain_solves2 | apply gain_solves3];
      assumption. }
  split; [exact E|].
  rewrite process_with_predicted, UpdateMeasurment_cov, E. reflexivity.
Qed.

Lemma started_S_regular (ul ur : bool) (t : Z) (delta_t : R)
    (m : MeasurementPackage) :
  sensor_type_ m = LASER ->
  Inverse.det (S_ (predicted delta_t m (started ul ur t))) <> 0.
Proof.
  intros Hm. rewrite started_predicted by exact Hm. cbv zeta.
  rewrite (rest_S 1 1 (sqrt 5) delta_t
             (sqrt 0.3) (sqrt 0.2) (sqrt 0.3) (sqrt 1) (sqrt 1)
             (sqrt (6 * 6)) (sqrt (PI / 6 * (PI / 6)))
             (0.15 * 0.15) (0.15 * 0.15) _
             (started_sized ul ur t _) (started_x ul ur t _)
             (started_weights ul ur t _)
             (started_spread ul ur t _) (started_factor ul ur t _)
             (started_R ul ur t _)).
  pose proof (diag_S00_pos (sqrt 5) delta_t (sqrt 0.3) (sqrt 0.3)
                (sqrt (6 * 6)) (0.15 * 0.15)) as H0.
  pose proof (diag_S11_pos (sqrt 5) (sqrt 0.2) (0.15 * 0.15)) as H1.
  assert (Hr : 0 < 0.15 * 0.15) by lra.
  specialize (H0 Hr). specialize (H1 Hr).
  inverse_cbv. nra.
Qed.

Lemma kalman_gain_solves_witness :
  let v := predicted 1 (laser 1000000 2 1) (started true true 0) in
  mmul (kalman_gain v) (S_ v) = cross_correlation v.
Proof.
  cbv zeta.
  apply (kalman_gain_solves 1 (laser 1000000 2 1) (started true true 0)
           (started_well_sized true true 0)).
  apply started_S_regular. reflexivity.
Defined.
